(** * aws-cost-notifier: the daily cost aggregation, its report and the run order

    A shallow embedding of [src/index.ts]: numbers are IEEE binary64 values
    (Rocq's primitive [float], the same format and rounding as a JavaScript
    number), strings are byte strings, [undefined] is [None], a thrown
    exception is the [Throw] branch of [result], and the calls that reach the
    outside (the cost provider, the console, the issue tracker, the clock) are
    steps of a small state monad that records them in a trace. *)

From Stdlib Require Import ZArith List String Ascii Bool Floats DecimalString.
From Stdlib Require Import Permutation Sorted Lia.
Import ListNotations.

(* A decimal literal denotes the nearest binary64 value, as it does in the
   source language. *)
Set Warnings "-inexact-float".

Open Scope string_scope.
Open Scope list_scope.
Open Scope float_scope.

(** ** JavaScript values and built-ins used by the program *)

Module JS.

(** What a [throw] carries. *)
Inductive error : Type :=
| TypeError (message : string)
| Error (message : string)
| Rejected (reason : string).

Inductive result (A : Type) : Type :=
| Ok (a : A)
| Throw (e : error).
Arguments Ok {A} a.
Arguments Throw {A} e.

Definition bind {A B : Type} (r : result A) (k : A -> result B) : result B :=
  match r with
  | Ok a => k a
  | Throw e => Throw e
  end.

(** Truthiness of a number: [0], [-0] and [NaN] are falsy. *)
Definition truthy (x : float) : bool :=
  negb (PrimFloat.eqb x 0) && negb (PrimFloat.is_nan x).

(** [x || 0] on a number that may be [undefined]. *)
Definition orZero (x : option float) : float :=
  match x with
  | Some v => if truthy v then v else 0
  | None => 0
  end.

(** [s || d] on a string that may be [undefined]: the empty string is falsy. *)
Definition orString (s : option string) (d : string) : string :=
  match s with
  | Some v => if String.eqb v "" then d else v
  | None => d
  end.

(** [String.prototype.toLowerCase] and [toUpperCase] are the language's: they
    follow the case mappings of Unicode, and the model takes them as given. *)
Class CaseMapping : Type := {
  toLowerCase : string -> string;
  toUpperCase : string -> string
}.

(** [s.includes(sub)]: [sub] occurs in [s] as a substring. *)
Fixpoint includes (s sub : string) : bool :=
  (String.prefix sub s ||
   match s with
   | EmptyString => false
   | String _ r => includes r sub
   end)%bool.

(** [Array.prototype.join]. *)
Definition join (sep : string) (parts : list string) : string :=
  String.concat sep parts.

(** [Map<string, number>]: entries in insertion order; [set] on a key that is
    present overwrites the value where the key stands. *)
Definition Map : Type := list (string * float).

Fixpoint Map_set (m : Map) (key : string) (value : float) : Map :=
  match m with
  | [] => [(key, value)]
  | (k, v) :: r =>
      if String.eqb k key then (k, value) :: r else (k, v) :: Map_set r key value
  end.

Fixpoint Map_get (m : Map) (key : string) : option float :=
  match m with
  | [] => None
  | (k, v) :: r => if String.eqb k key then Some v else Map_get r key
  end.

Definition Map_keys (m : Map) : list string := List.map fst m.

(** [new Set(array)]: the distinct elements in the order of first occurrence. *)
Definition Set_add (s : list string) (x : string) : list string :=
  if existsb (String.eqb x) s then s else s ++ [x].

Definition Set_of (xs : list string) : list string :=
  fold_left Set_add xs [].

(** [Array.prototype.sort(comparefn)]: the sort is stable and orders by the sign
    of [comparefn a b] ([> 0] puts [a] after [b]; [NaN] counts as [0]). With a
    comparator that is consistent on the elements, as [b.amount - a.amount] is
    on numbers none of which is [NaN], this fixes the result, and it is the
    result of this insertion sort: each element, from the last to the first,
    moves right past the elements it has to follow. With any other comparator
    the language leaves the order to the engine; the result here is then one
    rearrangement of the elements, not necessarily the engine's. *)
Section Sort.
Context {A : Type} (comparefn : A -> A -> float).

Fixpoint sort_insert (x : A) (l : list A) : list A :=
  match l with
  | [] => [x]
  | y :: r => if 0 <? comparefn x y then y :: sort_insert x r else x :: y :: r
  end.

Definition sort (l : list A) : list A := fold_right sort_insert [] l.
End Sort.

(** Lookup in an object used as a record of named entries. *)
Fixpoint prop {V : Type} (o : list (string * V)) (key : string) : option V :=
  match o with
  | [] => None
  | (k, v) :: r => if String.eqb k key then Some v else prop r key
  end.

Fixpoint prop_update {V : Type} (o : list (string * V)) (key : string)
  (f : V -> V) : list (string * V) :=
  match o with
  | [] => []
  | (k, v) :: r =>
      if String.eqb k key then (k, f v) :: r else (k, v) :: prop_update r key f
  end.

(** A JSON document, as [JSON.stringify] receives it; a field whose value is
    [undefined] is [None] and is left out of the text. *)
Unset Elimination Schemes.
Inductive JSON : Type :=
| JString (s : string)
| JArray (items : list JSON)
| JObject (fields : list (string * option JSON)).
Set Elimination Schemes.

End JS.

Import JS.

Notation "x <- e ;; k" := (JS.bind e (fun x => k))
  (at level 61, e at next level, right associativity).

(** [f] over a list, from left to right, stopping at the first throw. *)
Fixpoint mapM {A B : Type} (f : A -> result B) (l : list A) : result (list B) :=
  match l with
  | [] => Ok []
  | x :: r => y <- f x ;; ys <- mapM f r ;; Ok (y :: ys)
  end.

(** ** The cost provider's response (the fields the program reads) *)

Record MetricValue : Type := {
  Amount : option string;
  Unit : option string
}.

Record Group : Type := {
  Keys : option (list string);
  Metrics : option (list (string * MetricValue))
}.

Record ResultByTime : Type := {
  Groups : option (list Group)
}.

Record GetCostAndUsageResponse : Type := {
  ResultsByTime : option (list ResultByTime)
}.

(** ** The program's data model *)

Module Cost.
(** [interface CostByService]. *)
Record t : Type := mk {
  serviceName : string;
  amount : float;
  unit : string;
  previousAmount : option float;
  changePercentage : option float
}.
End Cost.

Module Cat.
(** One entry of [CostResult.categories]. *)
Record t : Type := mk {
  current : float;
  previous : float;
  changePercentage : float
}.
End Cat.

(** [interface CostResult]; [categories] keeps the keys in insertion order. *)
Record CostResult : Type := {
  costs : list Cost.t;
  total : float;
  previousTotal : float;
  totalChangePercentage : float;
  startDate : string;
  endDate : string;
  categories : list (string * Cat.t)
}.

(** ** getCostsByService: the computation on the two responses *)

Section Aggregator.

(** [Number(s)] on a string is the language's; the model takes it as given. *)
Variable Number : string -> float.

(** So are the case mappings of its strings. *)
Context {caseMapping : CaseMapping}.

(** [Number(group.Metrics?.UnblendedCost.Amount || 0)]: the optional chain stops
    at a missing [Metrics] only; a [Metrics] without [UnblendedCost] throws. *)
Definition groupAmount (group : Group) : result float :=
  match Metrics group with
  | None => Ok 0
  | Some metrics =>
      match prop metrics "UnblendedCost" with
      | None => Throw (TypeError "Cannot read properties of undefined (reading 'Amount')")
      | Some metric =>
          match Amount metric with
          | None => Ok 0
          | Some s => if String.eqb s "" then Ok 0 else Ok (Number s)
          end
      end
  end.

(** [group.Keys?.[0] || 'Unknown']. *)
Definition groupKey (group : Group) : string :=
  match Keys group with
  | None => "Unknown"
  | Some keys => orString (hd_error keys) "Unknown"
  end.

(** The body of one [for (const group of ...Groups)] loop, with the running
    total and the window's map threaded through. *)
Fixpoint processGroups (groups : list Group) (total : float) (windowCosts : Map)
  : result (float * Map) :=
  match groups with
  | [] => Ok (total, windowCosts)
  | group :: rest =>
      amount <- groupAmount group ;;
      processGroups rest (total + amount) (Map_set windowCosts (groupKey group) amount)
  end.

(** [if (response.ResultsByTime && response.ResultsByTime[0].Groups) { ... }]:
    an array is truthy also when it is empty, and then [ResultsByTime[0]] is
    [undefined] and reading [Groups] from it throws. *)
Definition processWindow (response : GetCostAndUsageResponse) : result (float * Map) :=
  match ResultsByTime response with
  | None => Ok (0, [])
  | Some [] => Throw (TypeError "Cannot read properties of undefined (reading 'Groups')")
  | Some (first :: _) =>
      match Groups first with
      | None => Ok (0, [])
      | Some groups => processGroups groups 0 []
      end
  end.

(** The zero-previous rule, written three times in the source (per service,
    per category, for the grand total). *)
Definition changePercentageOf (current previous : float) : float :=
  if previous =? 0 then (if current =? 0 then 0 else 100)
  else ((current - previous) / previous) * 100.

(** One iteration of [for (const service of allServices)]. *)
Definition serviceCost (currentCosts previousCosts : Map) (service : string) : Cost.t :=
  let currentAmount := orZero (Map_get currentCosts service) in
  let previousAmount := orZero (Map_get previousCosts service) in
  Cost.mk service currentAmount "USD" (Some previousAmount)
    (Some (changePercentageOf currentAmount previousAmount)).

(** [(a, b) => b.amount - a.amount]. *)
Definition byAmountDesc (a b : Cost.t) : float := Cost.amount b - Cost.amount a.

Definition initialCategories : list (string * Cat.t) :=
  [ ("ec2", Cat.mk 0 0 0);
    ("security", Cat.mk 0 0 0);
    ("management", Cat.mk 0 0 0);
    ("storage", Cat.mk 0 0 0);
    ("other", Cat.mk 0 0 0);
    ("tax", Cat.mk 0 0 0) ].

(** The conditional chain that picks a service's category. *)
Definition categoryOf (serviceName : string) : string :=
  let service := toLowerCase serviceName in
  if includes service "ec2" then "ec2"
  else if existsb (includes service) ["guardduty"; "vpc"; "kms"; "cloudfront"] then "security"
  else if existsb (includes service) ["cloudwatch"; "secrets manager"] then "management"
  else if existsb (includes service) ["rds"; "s3"; "dynamodb"; "glacier"] then "storage"
  else if includes service "tax" then "tax"
  else "other".

(** [categories[category].current += cost.amount;
     categories[category].previous += cost.previousAmount || 0]. *)
Definition addToCategory (cost : Cost.t) (c : Cat.t) : Cat.t :=
  Cat.mk (Cat.current c + Cost.amount cost)
         (Cat.previous c + orZero (Cost.previousAmount cost))
         (Cat.changePercentage c).

Fixpoint accumulate (costs : list Cost.t) (categories : list (string * Cat.t))
  : result (list (string * Cat.t)) :=
  match costs with
  | [] => Ok categories
  | cost :: rest =>
      let category := categoryOf (Cost.serviceName cost) in
      match prop categories category with
      | None => Throw (TypeError "Cannot read properties of undefined (reading 'current')")
      | Some _ => accumulate rest (prop_update categories category (addToCategory cost))
      end
  end.

(** [for (const category of Object.values(categories)) category.changePercentage = ...]. *)
Definition withChangePercentage (c : Cat.t) : Cat.t :=
  Cat.mk (Cat.current c) (Cat.previous c)
         (changePercentageOf (Cat.current c) (Cat.previous c)).

(** The loop over [allServices]: one record per distinct name, in the order the
    set iterates. *)
Definition unsortedCosts (currentCosts previousCosts : Map) : list Cost.t :=
  let allServices := Set_of (Map_keys currentCosts ++ Map_keys previousCosts) in
  List.map (serviceCost currentCosts previousCosts) allServices.

(** Everything in [getCostsByService] after the two awaited fetches. *)
Definition aggregate (currentResponse previousResponse : GetCostAndUsageResponse)
  (start_ end_ : string) : result CostResult :=
  cur <- processWindow currentResponse ;;
  prev <- processWindow previousResponse ;;
  let '(total, currentCosts) := cur in
  let '(previousTotal, previousCosts) := prev in
  let costs := unsortedCosts currentCosts previousCosts in
  let costs := sort byAmountDesc costs in
  categories <- accumulate costs initialCategories ;;
  let categories := List.map (fun kv => (fst kv, withChangePercentage (snd kv))) categories in
  let totalChangePercentage := changePercentageOf total previousTotal in
  Ok {| costs := costs;
        total := total;
        previousTotal := previousTotal;
        totalChangePercentage := totalChangePercentage;
        startDate := start_;
        endDate := end_;
        categories := categories |}.

End Aggregator.

(** ** The outside world, and the steps that reach it *)

Module Req.
(** The argument of [costExplorer.getCostAndUsage]. *)
Record t : Type := mk {
  Start : string;
  End_ : string;
  Granularity : string;
  Metrics : list string;
  GroupBy : list (string * string)
}.
End Req.

(** The argument of [octokit.issues.create], with the token the client was
    built with. *)
Record IssueRequest : Type := {
  auth : string;
  owner : string;
  repo : string;
  title : string;
  body : string;
  labels : list string
}.

(** What a run does to the outside, one event per call: the two awaited
    requests, [console.log] with the document it prints, [console.error] with
    the error it reports, and [process.exit]. *)
Inductive Event : Type :=
| CallGetCostAndUsage (request : Req.t)
| ConsoleLog (document : JSON)
| ConsoleError (e : error)
| CallIssuesCreate (request : IssueRequest)
| ProcessExit (code : Z).

Section Program.

Variable Number : string -> float.
Context {caseMapping : CaseMapping}.

(** [x.toFixed(digits)] on a finite number is the language's. *)
Variable toFixedFinite : float -> nat -> string.

(** The clock's values, with [subDays] and [format] of date-fns. *)
Variable Date : Type.
Variable subDays : Date -> Z -> Date.
Variable format : Date -> string -> string.

(** What a run finds outside: the environment variables, what the clock shows
    at its n-th reading, how the provider answers its n-th call, and how the
    issue tracker answers. *)
Record World : Type := {
  env : string -> option string;
  clock : nat -> Date;
  getCostAndUsage : nat -> Req.t -> result GetCostAndUsageResponse;
  issues_create : IssueRequest -> result unit
}.

Variable world : World.

Record State : Type := {
  trace : list Event;
  clockReads : nat
}.

Definition IO (A : Type) : Type := State -> result A * State.

Definition ret {A : Type} (a : A) : IO A := fun s => (Ok a, s).

Definition throw {A : Type} (e : error) : IO A := fun s => (Throw e, s).

Definition bindIO {A B : Type} (m : IO A) (k : A -> IO B) : IO B :=
  fun s =>
    match m s with
    | (Ok a, s') => k a s'
    | (Throw e, s') => (Throw e, s')
    end.

Definition tryCatch {A : Type} (m : IO A) (handler : error -> IO A) : IO A :=
  fun s =>
    match m s with
    | (Ok a, s') => (Ok a, s')
    | (Throw e, s') => handler e s'
    end.

Definition lift {A : Type} (r : result A) : IO A := fun s => (r, s).

Definition emit (ev : Event) : IO unit :=
  fun s => (Ok tt, {| trace := trace s ++ [ev]; clockReads := clockReads s |}).

Notation "x <~ e ;; k" := (bindIO e (fun x => k))
  (at level 61, e at next level, right associativity).

(** [new Date()]. *)
Definition newDate : IO Date :=
  fun s => (Ok (clock world (clockReads s)),
            {| trace := trace s; clockReads := S (clockReads s) |}).

Definition fetchCount (t : list Event) : nat :=
  List.length (filter (fun ev => match ev with CallGetCostAndUsage _ => true | _ => false end) t).

Definition issueCount (t : list Event) : nat :=
  List.length (filter (fun ev => match ev with CallIssuesCreate _ => true | _ => false end) t).

(** [await costExplorer.getCostAndUsage(request)]. *)
Definition awaitGetCostAndUsage (request : Req.t) : IO GetCostAndUsageResponse :=
  fun s =>
    (getCostAndUsage world (fetchCount (trace s)) request,
     {| trace := trace s ++ [CallGetCostAndUsage request]; clockReads := clockReads s |}).

(** [await octokit.issues.create(request)]. *)
Definition awaitIssuesCreate (request : IssueRequest) : IO unit :=
  fun s =>
    (issues_create world request,
     {| trace := trace s ++ [CallIssuesCreate request]; clockReads := clockReads s |}).

Definition costRequest (start_ end_ : string) : Req.t :=
  Req.mk start_ end_ "DAILY" ["UnblendedCost"] [("DIMENSION", "SERVICE")].

Definition getCostsByService : IO CostResult :=
  now <~ newDate ;;
  let yesterday := subDays now 1 in
  let twoDaysAgo := subDays now 2 in
  currentResponse <~ awaitGetCostAndUsage
    (costRequest (format yesterday "yyyy-MM-dd") (format now "yyyy-MM-dd")) ;;
  previousResponse <~ awaitGetCostAndUsage
    (costRequest (format twoDaysAgo "yyyy-MM-dd") (format yesterday "yyyy-MM-dd")) ;;
  lift (aggregate Number currentResponse previousResponse
          (format yesterday "yyyy-MM-dd") (format now "yyyy-MM-dd")).

(** ** The report: the summary document and the issue body *)

Definition nl : string := String (ascii_of_nat 10) EmptyString.

(** A template literal: its pieces, concatenated. *)
Definition template (pieces : list string) : string := String.concat "" pieces.

(** [x.toFixed(digits)]: a number that is not finite prints as its name. *)
Definition toFixed (x : float) (digits : nat) : string :=
  if PrimFloat.is_nan x then "NaN"
  else if PrimFloat.is_infinity x then (if x <? 0 then "-Infinity" else "Infinity")
  else toFixedFinite x digits.

(** [x?.toFixed(digits)] inside a template literal. *)
Definition toFixedOpt (x : option float) (digits : nat) : string :=
  match x with
  | Some v => toFixed v digits
  | None => "undefined"
  end.

Definition formatChangePercentage (percentage : float) : string :=
  let sign := if 0 <=? percentage then "+" else "" in
  template [sign; toFixed percentage 1; "%"].

(** [formatChangePercentage(cost.changePercentage!)]: the [!] is erased at run
    time, and [toFixed] of [undefined] throws. *)
Definition formatChangePercentage_ (percentage : option float) : result string :=
  match percentage with
  | Some p => Ok (formatChangePercentage p)
  | None => Throw (TypeError "Cannot read properties of undefined (reading 'toFixed')")
  end.

(** [(data.current / total * 100)]: a category's share of the grand total, as
    both renderers compute it before [toFixed(1)]. *)
Definition shareOfTotal (data : Cat.t) (total : float) : float :=
  Cat.current data / total * 100.

(** [([, a], [, b]) => b.current - a.current]. *)
Definition byCurrentDesc (a b : string * Cat.t) : float :=
  Cat.current (snd b) - Cat.current (snd a).

(** The text of one category in the issue body (the function given to [map]). *)
Definition categoryText (costResult : CostResult) (entry : string * Cat.t) : string :=
  let '(category, data) := entry in
  let percentage := toFixed (shareOfTotal data (total costResult)) 1 in
  template
    [ "### "; toUpperCase category; ": "; toFixed (Cat.current data) 2;
      " USD ("; percentage; "%)"; nl;
      "- 前日比: "; formatChangePercentage (Cat.changePercentage data); nl;
      "- 前日の金額: "; toFixed (Cat.previous data) 2; " USD" ].

Definition categorySection (costResult : CostResult) : string :=
  join (nl ++ nl)%string
    (List.map (categoryText costResult) (sort byCurrentDesc (categories costResult))).

(** [cost.amount > 0 || cost.previousAmount! > 0]. *)
Definition hasCost (cost : Cost.t) : bool :=
  (0 <? Cost.amount cost) ||
  match Cost.previousAmount cost with
  | Some p => 0 <? p
  | None => false
  end.

Definition detailSection (costResult : CostResult) : result string :=
  entries <- mapM
    (fun cost =>
       change <- formatChangePercentage_ (Cost.changePercentage cost) ;;
       Ok (template
             [ "- "; Cost.serviceName cost; ":"; nl;
               "  - 現在: "; toFixed (Cost.amount cost) 4; " "; Cost.unit cost; nl;
               "  - 前日: "; toFixedOpt (Cost.previousAmount cost) 4; " "; Cost.unit cost; nl;
               "  - 変化率: "; change ]))
    (filter hasCost (costs costResult)) ;;
  Ok (join nl entries).

(** [Math.abs(cost.changePercentage!) > 10 && cost.amount > 0.01];
    [Math.abs(undefined)] is [NaN], and no comparison with [NaN] holds. *)
Definition isNotable (cost : Cost.t) : bool :=
  match Cost.changePercentage cost with
  | Some p => 10 <? PrimFloat.abs p
  | None => false
  end && (0.01 <? Cost.amount cost).

Definition notableChanges (costResult : CostResult) : list Cost.t :=
  filter isNotable (costs costResult).

Definition notableLine (cost : Cost.t) : result string :=
  change <- formatChangePercentage_ (Cost.changePercentage cost) ;;
  Ok (template ["- "; Cost.serviceName cost; ": "; change; " の変化"]).

Definition notableSection (costResult : CostResult) : result string :=
  entries <- mapM notableLine (notableChanges costResult) ;;
  Ok (join nl entries).

(** The issue body up to the list of notable changes. *)
Definition bodyHead (costResult : CostResult) (today : Date)
  (categoryText detailText : string) : string :=
  template
    [ "# "; format today "yyyy年MM月dd日"; " AWSコスト分析レポート"; nl;
      nl;
      "## 概要"; nl;
      "- 期間："; startDate costResult; " 〜 "; endDate costResult; nl;
      "- 総コスト："; toFixed (total costResult) 2; " USD（前日比: ";
      formatChangePercentage (totalChangePercentage costResult); "）"; nl;
      nl;
      "## カテゴリー別コスト"; nl;
      categoryText; nl;
      nl;
      "## サービス別詳細（前日比較）"; nl;
      detailText; nl;
      nl;
      "## 分析と推奨事項"; nl;
      nl;
      "### 注目すべき変化"; nl ].

(** The fixed text that follows the list of notable changes. *)
Definition bodyTail : string :=
  template
    [ nl;
      nl;
      "### コスト最適化の提案"; nl;
      "1. **大きな増加が見られるサービス**"; nl;
      "   - 上記の変化率の大きいサービスを重点的に確認"; nl;
      "   - 想定外の使用がないか確認"; nl;
      nl;
      "2. **定期的な見直し**"; nl;
      "   - 使用率の低いリソースの特定"; nl;
      "   - 不要なリソースの削除"; nl;
      nl;
      "## 注意事項"; nl;
      "- 上記の金額は推定値であり、確定額は月末の請求書で確認できます"; nl;
      "- 為替レートにより日本円での金額は変動する可能性があります"; nl;
      "- 前日比は日次の変動を示しており、月間の傾向とは異なる可能性があります" ].

(** The template literal [issueBody]; its interpolations are evaluated from
    top to bottom. *)
Definition issueBody (costResult : CostResult) (today : Date) : result string :=
  let categoryText := categorySection costResult in
  detailText <- detailSection costResult ;;
  notableText <- notableSection costResult ;;
  Ok (template [bodyHead costResult today categoryText detailText; notableText; bodyTail]).

(** [!value] on an environment variable: unset and empty are both falsy. *)
Definition isSet (value : option string) : bool :=
  match value with
  | Some v => negb (String.eqb v "")
  | None => false
  end.

Definition createGitHubIssue (costResult : CostResult) : IO unit :=
  let token := env world "GITHUB_TOKEN" in
  let owner := env world "GITHUB_OWNER" in
  let repo := env world "GITHUB_REPO" in
  if negb (isSet token) then throw (Error "GITHUB_TOKEN environment variable is not set")
  else if negb (isSet owner) then throw (Error "GITHUB_OWNER environment variable is not set")
  else if negb (isSet repo) then throw (Error "GITHUB_REPO environment variable is not set")
  else
    today <~ newDate ;;
    issueBody <~ lift (issueBody costResult today) ;;
    titleDate <~ newDate ;;
    awaitIssuesCreate
      {| auth := orString token "";
         owner := orString owner "";
         repo := orString repo "";
         title := template [format titleDate "yyyy年MM月dd日"; " AWSコスト分析レポート"];
         body := issueBody;
         labels := ["cost"; "monitoring"; "daily-report"] |}.

(** The object of one category in the summary (the function given to [map]). *)
Definition categoryObject (result : CostResult) (entry : string * Cat.t) : JSON :=
  let '(name, data) := entry in
  JObject
    [ ("name", Some (JString name));
      ("current", Some (JString (toFixed (Cat.current data) 2)));
      ("previous", Some (JString (toFixed (Cat.previous data) 2)));
      ("changePercentage", Some (JString (toFixed (Cat.changePercentage data) 1)));
      ("percentage", Some (JString (toFixed (shareOfTotal data (total result)) 1))) ].

(** The object handed to [JSON.stringify(..., null, 2)] in [main]. *)
Definition summaryDocument (result : CostResult) : JSON :=
  JObject
    [ ("summary", Some (JObject
         [ ("period", Some (JObject
              [ ("start", Some (JString (startDate result)));
                ("end", Some (JString (endDate result))) ]));
           ("totalCost", Some (JString (toFixed (total result) 2)));
           ("previousTotalCost", Some (JString (toFixed (previousTotal result) 2)));
           ("changePercentage", Some (JString (toFixed (totalChangePercentage result) 1)));
           ("currency", Some (JString "USD")) ]));
      ("categories", Some (JArray (List.map (categoryObject result) (categories result))));
      ("details", Some (JArray
         (List.map
            (fun cost =>
               JObject
                 [ ("service", Some (JString (Cost.serviceName cost)));
                   ("current", Some (JString (toFixed (Cost.amount cost) 4)));
                   ("previous", option_map (fun p => JString (toFixed p 4)) (Cost.previousAmount cost));
                   ("changePercentage", option_map (fun p => JString (toFixed p 1)) (Cost.changePercentage cost));
                   ("unit", Some (JString (Cost.unit cost))) ])
            (costs result)))) ].

Definition main : IO unit :=
  tryCatch
    (result <~ getCostsByService ;;
     _ <~ emit (ConsoleLog (summaryDocument result)) ;;
     createGitHubIssue result)
    (fun error =>
       _ <~ emit (ConsoleError error) ;;
       emit (ProcessExit 1)).

Definition initialState : State := {| trace := []; clockReads := 0 |}.

(** The calls a run makes, in order. *)
Definition run : list Event := trace (snd (main initialState)).

End Program.

Arguments toFixed toFixedFinite x digits : assert.


(** ** Vocabulary for binary64 values *)

Module Binary64.

Local Open Scope Z_scope.

(** A result that is not zero and not NaN, with the given sign. *)
Definition nonzero_of_sign (s : bool) (r : spec_float) : Prop :=
  match r with
  | S754_finite s' _ _ => s' = s
  | S754_infinity s' => s' = s
  | _ => False
  end.

(** The order of the non-NaN values as a lexicographic order on triples. *)
Definition orderKey (x : spec_float) : Z * Z * Z :=
  match x with
  | S754_zero _ => (0, 0, 0)
  | S754_infinity s => (if s then -2 else 2, 0, 0)
  | S754_nan => (0, 0, 0)
  | S754_finite s m e => if s then (-1, - e, - Zpos m) else (1, e, Zpos m)
  end.

Definition lexCompare (a b : Z * Z * Z) : comparison :=
  let '(a1, a2, a3) := a in
  let '(b1, b2, b3) := b in
  match a1 ?= b1 with
  | Eq => match a2 ?= b2 with
          | Eq => a3 ?= b3
          | c => c
          end
  | c => c
  end.

Definition lexLt (a b : Z * Z * Z) : Prop :=
  let '(a1, a2, a3) := a in
  let '(b1, b2, b3) := b in
  a1 < b1 \/ (a1 = b1 /\ (a2 < b2 \/ (a2 = b2 /\ a3 < b3))).

Definition isNaN (x : spec_float) : bool :=
  match x with S754_nan => true | _ => false end.

Definition key (x : float) : Z * Z * Z := orderKey (Prim2SF x).

Local Open Scope float_scope.

(** How two floats compare: unordered when one is NaN, and otherwise as their
    keys do. *)
Inductive Compared (a b : float) : Prop :=
| Unordered :
    is_nan a = true \/ is_nan b = true ->
    (a <? b) = false -> (a =? b) = false -> (a <=? b) = false ->
    (b <? a) = false -> (b =? a) = false -> (b <=? a) = false -> Compared a b
| Less :
    is_nan a = false -> is_nan b = false -> lexLt (key a) (key b) ->
    (a <? b) = true -> (a =? b) = false -> (a <=? b) = true ->
    (b <? a) = false -> (b =? a) = false -> (b <=? a) = false -> Compared a b
| Same :
    is_nan a = false -> is_nan b = false -> key a = key b ->
    (a <? b) = false -> (a =? b) = true -> (a <=? b) = true ->
    (b <? a) = false -> (b =? a) = true -> (b <=? a) = true -> Compared a b
| Greater :
    is_nan a = false -> is_nan b = false -> lexLt (key b) (key a) ->
    (a <? b) = false -> (a =? b) = false -> (a <=? b) = false ->
    (b <? a) = true -> (b =? a) = false -> (b <=? a) = true -> Compared a b.

(** The value of a finite float in units of [2^-1074], of which every finite
    binary64 value is a whole multiple; [0] for the values that have none. *)
Definition exactValue (x : float) : Z :=
  match Prim2SF x with
  | S754_finite s m e => cond_Zopp s (Zpos m * 2 ^ (e + 1074))%Z
  | _ => 0%Z
  end.

Definition exactSum (l : list float) : Z :=
  fold_right Z.add 0%Z (List.map exactValue l).

(** The float sum the program forms with a running [+=], from [0], in list
    order. *)
Definition fsum (l : list float) : float := fold_left PrimFloat.add l 0.

End Binary64.

Import Binary64.

(** ** Vocabulary of the statements *)

(** The six category names, in the order the program creates them. *)
Definition categoryNames : list string :=
  ["ec2"; "security"; "management"; "storage"; "other"; "tax"].

(** Strings of ASCII characters, and what the case mappings of the language
    do to such a string: the letters A to Z become a to z, or the other way
    round, and every other character stays. *)
Fixpoint isAscii (s : string) : bool :=
  match s with
  | EmptyString => true
  | String c r => Nat.ltb (nat_of_ascii c) 128 && isAscii r
  end.

Definition lower_ascii (c : ascii) : ascii :=
  let n := nat_of_ascii c in
  if (Nat.leb 65 n && Nat.leb n 90)%bool then ascii_of_nat (n + 32) else c.

Definition upper_ascii (c : ascii) : ascii :=
  let n := nat_of_ascii c in
  if (Nat.leb 97 n && Nat.leb n 122)%bool then ascii_of_nat (n - 32) else c.

Fixpoint lowerAscii (s : string) : string :=
  match s with
  | EmptyString => EmptyString
  | String c r => String (lower_ascii c) (lowerAscii r)
  end.

Fixpoint upperAscii (s : string) : string :=
  match s with
  | EmptyString => EmptyString
  | String c r => String (upper_ascii c) (upperAscii r)
  end.

(** The case mappings are the ASCII ones on strings of ASCII characters. *)
Definition asciiOnAscii {caseMapping : CaseMapping} : Prop :=
  forall s, isAscii s = true -> toLowerCase s = lowerAscii s /\ toUpperCase s = upperAscii s.

(** The classification as the specification words it: an ordered list of
    rules, each a set of substrings and the category they select; the first
    rule with a substring that occurs in the lower-cased name wins, and a name
    that no rule matches is [other]. *)
Definition categoryRules : list (list string * string) :=
  [ (["ec2"], "ec2");
    (["guardduty"; "vpc"; "kms"; "cloudfront"], "security");
    (["cloudwatch"; "secrets manager"], "management");
    (["rds"; "s3"; "dynamodb"; "glacier"], "storage");
    (["tax"], "tax") ].

Fixpoint firstMatch (rules : list (list string * string)) (service : string) : string :=
  match rules with
  | [] => "other"
  | (substrings, category) :: rest =>
      if existsb (includes service) substrings then category
      else firstMatch rest service
  end.

(** The services of a list that the program accumulates into [category]. *)
Definition inCategory {caseMapping : CaseMapping} (category : string) (cost : Cost.t)
  : bool :=
  String.eqb (categoryOf (Cost.serviceName cost)) category.

(** The groups of a response's first result; none when a level is missing. *)
Definition windowGroups (response : GetCostAndUsageResponse) : list Group :=
  match ResultsByTime response with
  | Some (first :: _) =>
      match Groups first with
      | Some groups => groups
      | None => []
      end
  | _ => []
  end.

(** The name and the amount the program reads from each group, in order. *)
Definition fetched (Number : string -> float) (groups : list Group)
  : result (list (string * float)) :=
  mapM (fun group => amount <- groupAmount Number group ;; Ok (groupKey group, amount)) groups.

(** The names and amounts read from a window, when reading it succeeds. *)
Definition windowEntries (Number : string -> float) (response : GetCostAndUsageResponse)
  : list (string * float) :=
  match fetched Number (windowGroups response) with
  | Ok entries => entries
  | Throw _ => []
  end.

(** The amount of the last entry named [name]. *)
Definition lastWrite (name : string) (entries : list (string * float)) : option float :=
  fold_left (fun found entry => if String.eqb (fst entry) name then Some (snd entry) else found)
            entries None.

(** The map a window's loop builds from the entries it reads, on top of [m]. *)
Definition buildMap (entries : list (string * float)) (m : Map) : Map :=
  fold_left (fun acc entry => Map_set acc (fst entry) (snd entry)) entries m.

(** The map the program builds from a window, when reading it succeeds. *)
Definition windowCosts (Number : string -> float) (response : GetCostAndUsageResponse) : Map :=
  match processWindow Number response with
  | Ok (_, m) => m
  | Throw _ => []
  end.

(** The service records in the order the loop over [allServices] creates
    them, before the sort. *)
Definition iterationOrder (Number : string -> float)
  (cur prev : GetCostAndUsageResponse) : list Cost.t :=
  unsortedCosts (windowCosts Number cur) (windowCosts Number prev).

(** [a] may stand before [b] in a list sorted by amount, largest first. *)
Definition notBelow (a b : Cost.t) : Prop := (Cost.amount b <=? Cost.amount a) = true.

(** The services of a list whose amount equals [v]. *)
Definition withAmount (v : float) (l : list Cost.t) : list Cost.t :=
  filter (fun cost => Cost.amount cost =? v) l.

(** An amount that is zero or more (NaN is not). *)
Definition nonNegative (x : float) : Prop := (0 <=? x) = true.

(** What the loop over [costs] leaves in a category: its services' amounts
    added in list order. *)
Definition addAll (l : list Cost.t) (c : Cat.t) : Cat.t :=
  fold_left (fun acc cost => addToCategory cost acc) l c.

(** The exact sums of the amounts of a list's services, category by category,
    added up. *)
Definition exactSumByCategory {caseMapping : CaseMapping} (names : list string)
  (l : list Cost.t) : Z :=
  fold_right Z.add 0%Z
    (List.map (fun k => exactSum (List.map Cost.amount (filter (inCategory k) l))) names).

(** The line of the notable-changes list for a service whose change is [p]. *)
Definition notableText (toFixedFinite : float -> nat -> string) (cost : Cost.t) (p : float)
  : string :=
  template ["- "; Cost.serviceName cost; ": ";
            formatChangePercentage toFixedFinite p; " の変化"].

(** Reading a summary document back: a field of an object, the items of an
    array, and the [percentage] fields of the [categories] array. *)
Definition field (key : string) (document : JSON) : option JSON :=
  match document with
  | JObject fields =>
      match prop fields key with
      | Some value => value
      | None => None
      end
  | _ => None
  end.

Definition items (document : option JSON) : list JSON :=
  match document with
  | Some (JArray l) => l
  | _ => []
  end.

Definition percentageFields (document : JSON) : list (option JSON) :=
  List.map (field "percentage") (items (field "categories" document)).

(** ** Vocabulary of the statements about a run *)

Section RunVocabulary.

Variable Number : string -> float.
Context {caseMapping : CaseMapping}.
Variable Date : Type.
Variable subDays : Date -> Z -> Date.
Variable format : Date -> string -> string.
Variable world : World Date.

(** The two requests of a run: the clock is read once before them. *)
Definition currentRequest : Req.t :=
  costRequest (format (subDays (clock Date world 0) 1) "yyyy-MM-dd")
              (format (clock Date world 0) "yyyy-MM-dd").

Definition previousRequest : Req.t :=
  costRequest (format (subDays (clock Date world 0) 2) "yyyy-MM-dd")
              (format (subDays (clock Date world 0) 1) "yyyy-MM-dd").

(** What the aggregator returns in this world: the provider's first failure,
    or the aggregation of its two answers. *)
Definition aggregation : result CostResult :=
  cur <- getCostAndUsage Date world 0 currentRequest ;;
  prev <- getCostAndUsage Date world 1 previousRequest ;;
  aggregate Number cur prev
    (format (subDays (clock Date world 0) 1) "yyyy-MM-dd")
    (format (clock Date world 0) "yyyy-MM-dd").

(** The first required configuration value that is unset or empty, in the
    order token, owner, repository. *)
Definition firstMissing : option string :=
  if negb (isSet (env Date world "GITHUB_TOKEN")) then Some "GITHUB_TOKEN"
  else if negb (isSet (env Date world "GITHUB_OWNER")) then Some "GITHUB_OWNER"
  else if negb (isSet (env Date world "GITHUB_REPO")) then Some "GITHUB_REPO"
  else None.

(** The request the publisher sends for a body: the clock is read a second
    time for the body and a third time for the title. *)
Definition issueRequest (text : string) : IssueRequest :=
  {| auth := orString (env Date world "GITHUB_TOKEN") "";
     owner := orString (env Date world "GITHUB_OWNER") "";
     repo := orString (env Date world "GITHUB_REPO") "";
     title := template [format (clock Date world 2) "yyyy年MM月dd日"; " AWSコスト分析レポート"];
     body := text;
     labels := ["cost"; "monitoring"; "daily-report"] |}.

Variable toFixedFinite : float -> nat -> string.

(** The provider calls of a run: the second is made when the first succeeds. *)
Definition fetchEvents : list Event :=
  match getCostAndUsage Date world 0 currentRequest with
  | Ok _ => [CallGetCostAndUsage currentRequest; CallGetCostAndUsage previousRequest]
  | Throw _ => [CallGetCostAndUsage currentRequest]
  end.

Definition failure (e : error) : list Event := [ConsoleError e; ProcessExit 1].

(** What follows the summary of [r] in a run. *)
Definition publishEvents (r : CostResult) : list Event :=
  match firstMissing with
  | Some key => failure (Error (key ++ " environment variable is not set"))
  | None =>
      match issueBody toFixedFinite Date format r (clock Date world 1) with
      | Throw e => failure e
      | Ok text =>
          CallIssuesCreate (issueRequest text) ::
          match issues_create Date world (issueRequest text) with
          | Ok _ => []
          | Throw e => failure e
          end
      end
  end.

End RunVocabulary.

(** ** Instances of the language's functions, to run the model

    The program is parametric in [Number], [toFixed] on finite numbers and the
    date library. These instances compute them for the inputs the examples
    use. *)

Module Sample.

(** The case mappings on the strings of the examples, which are all ASCII. *)
#[global] Instance asciiCase : CaseMapping | 100 :=
  {| toLowerCase := lowerAscii; toUpperCase := upperAscii |}.

Definition digitOf (c : ascii) : option Z :=
  let n := nat_of_ascii c in
  if (Nat.leb 48 n && Nat.leb n 57)%bool then Some (Z.of_nat (n - 48)) else None.

(** The digits of [s] read as a decimal number on top of [acc]; [None] if some
    byte is not a digit. *)
Fixpoint readDigits (s : string) (acc : Z) : option Z :=
  match s with
  | EmptyString => Some acc
  | String c r =>
      match digitOf c with
      | Some d => readDigits r (10 * acc + d)%Z
      | None => None
      end
  end.

(** [s] cut at its first dot. *)
Fixpoint splitDot (s : string) : string * option string :=
  match s with
  | EmptyString => (EmptyString, None)
  | String c r =>
      if Ascii.eqb c "."%char then (EmptyString, Some r)
      else let '(a, b) := splitDot r in (String c a, b)
  end.

(** [m / 10^k] rounded to binary64 by the division of the floating-point
    specification. *)
Definition nearest (negative : bool) (m : Z) (k : nat) : float :=
  match m with
  | Zpos p =>
      SF2Prim (SFdiv prec emax (S754_finite negative p 0)
                 (S754_finite false (Z.to_pos (10 ^ Z.of_nat k)) 0))
  | _ => if negative then (-0)%float else 0
  end.

Definition unsigned (negative : bool) (s : string) : float :=
  let '(whole, fraction) := splitDot s in
  let fraction := match fraction with Some f => f | None => EmptyString end in
  if (String.eqb whole "" && String.eqb fraction "")%bool then nan
  else
    match readDigits (whole ++ fraction) 0 with
    | Some m => nearest negative m (String.length fraction)
    | None => nan
    end.

(** [Number(s)] for a decimal literal without exponent; anything else reads as
    [NaN]. *)
Definition Number (s : string) : float :=
  match s with
  | EmptyString => 0
  | String c r =>
      if Ascii.eqb c "-"%char then unsigned true r
      else if Ascii.eqb c "+"%char then unsigned false r
      else unsigned false s
  end.

Definition decimal (n : Z) : string :=
  NilZero.string_of_uint (N.to_uint (Z.to_N n)).

Fixpoint zeros (n : nat) : string :=
  match n with
  | O => EmptyString
  | S k => String "0"%char (zeros k)
  end.

(** [x.toFixed(digits)] for a finite [x] below [1e21]: the integer nearest to
    [x * 10^digits] (the larger of two), printed with the point put back. *)
Definition toFixedFinite (x : float) (digits : nat) : string :=
  match Prim2SF x with
  | S754_finite s m e =>
      let scaled := (Zpos m * 10 ^ Z.of_nat digits)%Z in
      let n := match e with
               | Zneg d => ((2 * scaled + 2 ^ Zpos d) / (2 * 2 ^ Zpos d))%Z
               | _ => (scaled * 2 ^ e)%Z
               end in
      let text := decimal n in
      let text := (zeros (S digits - String.length text) ++ text)%string in
      let whole := String.substring 0 (String.length text - digits) text in
      let fraction := String.substring (String.length text - digits) digits text in
      ((if s then "-" else "") ++ whole ++
       (match digits with O => "" | _ => "." ++ fraction end))%string
  | _ =>
      (match digits with O => "0" | _ => "0." ++ zeros digits end)%string
  end.

(** Dates as day numbers. *)
Definition Date : Type := Z.
Definition subDays (d : Date) (n : Z) : Date := (d - n)%Z.
Definition format (d : Date) (pattern : string) : string :=
  (pattern ++ ":" ++ (if (d <? 0)%Z then "-" else "") ++ decimal (Z.abs d))%string.

(** A provider response with one result, and a group with one key and one
    [UnblendedCost] amount. *)
Definition group (name amount : string) : Group :=
  {| Keys := Some [name];
     Metrics := Some [("UnblendedCost", {| Amount := Some amount; Unit := Some "USD" |})] |}.

Definition response (groups : list Group) : GetCostAndUsageResponse :=
  {| ResultsByTime := Some [ {| Groups := Some groups |} ] |}.

(** The two windows of the specification's end-to-end scenario, with a service
    that costs nothing on both days, one that is new today and one that was
    billed yesterday only. *)
Definition current : GetCostAndUsageResponse :=
  response [ group "Amazon Elastic Compute Cloud" "21.7158";
             group "Amazon Simple Storage Service" "2.10";
             group "AWS Key Management Service" "0";
             group "Tax" "1.5" ].

Definition previous : GetCostAndUsageResponse :=
  response [ group "Amazon Elastic Compute Cloud" "21.2345";
             group "Amazon Simple Storage Service" "2.00";
             group "AWS Key Management Service" "0";
             group "Amazon Route 53" "0.50" ].

Definition noResult : CostResult :=
  {| costs := []; total := 0; previousTotal := 0; totalChangePercentage := 0;
     startDate := ""; endDate := ""; categories := [] |}.

Definition okOr {A : Type} (default : A) (r : result A) : A :=
  match r with
  | Ok a => a
  | Throw _ => default
  end.

Definition report : CostResult :=
  okOr noResult (aggregate Number current previous "2025-04-19" "2025-04-20").

(** A window in which two groups have no key and two share a name. *)
Definition keyless (amount : string) (keys : option (list string)) : Group :=
  {| Keys := keys;
     Metrics := Some [("UnblendedCost", {| Amount := Some amount; Unit := Some "USD" |})] |}.

Definition repeated : GetCostAndUsageResponse :=
  response [ keyless "1.25" None;
             group "Amazon EC2" "3";
             keyless "2.5" (Some []);
             group "Amazon EC2" "4" ].

Definition repeatedReport : CostResult :=
  okOr noResult (aggregate Number repeated (response []) "2025-04-19" "2025-04-20").

(** Worlds for the examples: day 20198 on the clock, a provider that answers
    the first call with [cur] and the second with [prev], and a tracker that
    answers [sink]. *)
Definition world (variables : list (string * string))
  (cur prev : result GetCostAndUsageResponse) (sink : result unit) : World Date :=
  {| env := prop variables;
     clock := fun _ => 20198%Z;
     getCostAndUsage := fun n _ => match n with O => cur | _ => prev end;
     issues_create := fun _ => sink |}.

Definition configured : list (string * string) :=
  [ ("GITHUB_TOKEN", "ghp_example"); ("GITHUB_OWNER", "octo"); ("GITHUB_REPO", "costs") ].

Definition withoutToken : list (string * string) :=
  [ ("GITHUB_OWNER", "octo"); ("GITHUB_REPO", "costs") ].

Definition eventName (ev : Event) : string :=
  match ev with
  | CallGetCostAndUsage _ => "getCostAndUsage"
  | ConsoleLog _ => "console.log"
  | ConsoleError _ => "console.error"
  | CallIssuesCreate _ => "issues.create"
  | ProcessExit _ => "process.exit"
  end.

(** A run with the token unset, a run whose issue tracker refuses, and a run
    whose provider answers with an empty list of results. *)
Definition tokenUnset : World Date :=
  world withoutToken (Ok current) (Ok previous) (Ok tt).

Definition trackerDown : World Date :=
  world configured (Ok current) (Ok previous) (Throw (Rejected "HttpError: Bad credentials")).

Definition noResults : World Date :=
  world configured (Ok {| ResultsByTime := Some [] |}) (Ok previous) (Ok tt).

Definition reportIn (w : World Date) : CostResult :=
  okOr noResult (aggregation Number Date subDays format w).

Definition runIn (w : World Date) : list Event :=
  run Number toFixedFinite Date subDays format w.

(** A day on which a credit cancels the day's only charge, and a day without
    any cost. *)
Definition credited : GetCostAndUsageResponse :=
  response [ group "Amazon EC2" "5"; group "Refund" "-5" ].

Definition creditedReport : CostResult :=
  okOr noResult (aggregate Number credited (response []) "2025-04-19" "2025-04-20").

Definition emptyReport : CostResult :=
  okOr noResult (aggregate Number (response []) (response []) "2025-04-19" "2025-04-20").

(** Three services at 0.1, 0.2 and 0.3. *)
Definition tenths : GetCostAndUsageResponse :=
  response [ group "Service A" "0.1"; group "Service B" "0.2"; group "Service C" "0.3" ].

Definition tenthsReport : CostResult :=
  okOr noResult (aggregate Number tenths (response []) "2025-04-19" "2025-04-20").

End Sample.

(** ** Vocabulary of the further properties *)

(** A group whose [Metrics] is present and has no [UnblendedCost] entry. *)
Definition lacksMetric (group : Group) : bool :=
  match Metrics group with
  | Some metrics =>
      match prop metrics "UnblendedCost" with
      | Some _ => false
      | None => true
      end
  | None => false
  end.

(** [cost.previousAmount || 0], as the category loop reads it. *)
Definition previousOf (cost : Cost.t) : float := orZero (Cost.previousAmount cost).

(** The exact sums of a value of a list's services, category by category,
    added up. *)
Definition exactSumByCategoryOf {caseMapping : CaseMapping} (value : Cost.t -> float)
  (names : list string) (l : list Cost.t) : Z :=
  fold_right Z.add 0%Z
    (List.map (fun k => exactSum (List.map value (filter (inCategory k) l))) names).

(** Events by kind. *)
Definition isLog (ev : Event) : bool :=
  match ev with ConsoleLog _ => true | _ => false end.

Definition isError (ev : Event) : bool :=
  match ev with ConsoleError _ => true | _ => false end.

Definition isExit (ev : Event) : bool :=
  match ev with ProcessExit _ => true | _ => false end.

Definition eventCount (kind : Event -> bool) (t : list Event) : nat :=
  List.length (filter kind t).

(** The current sum of a category entry, and the order of the category
    breakdown: [a] may stand before [b]. *)
Definition currentOf (entry : string * Cat.t) : float := Cat.current (snd entry).

Definition largerFirst (a b : string * Cat.t) : Prop := (currentOf b <=? currentOf a) = true.

(** Inputs for the examples of the further properties. *)
Module More.

(** A window with an amount that is not a number. *)
Definition garbled : GetCostAndUsageResponse :=
  Sample.response [ Sample.group "Amazon EC2" "3"; Sample.group "AWS Lambda" "n/a" ].

Definition garbledReport : CostResult :=
  Sample.okOr Sample.noResult
    (aggregate Sample.Number garbled (Sample.response []) "2025-04-19" "2025-04-20").

(** A group whose [Metrics] has another metric only. *)
Definition blended : Group :=
  {| Keys := Some ["Amazon EC2"];
     Metrics := Some [("BlendedCost", {| Amount := Some "3"; Unit := Some "USD" |})] |}.

(** A run in which everything succeeds, and one whose provider refuses. *)
Definition allFine : World Sample.Date :=
  Sample.world Sample.configured (Ok Sample.current) (Ok Sample.previous) (Ok tt).

Definition providerDown : World Sample.Date :=
  Sample.world Sample.configured (Throw (Rejected "AccessDeniedException"))
    (Ok Sample.previous) (Ok tt).

End More.

(** * Facts about binary64 arithmetic *)

Module FloatFacts.

Local Open Scope Z_scope.

Lemma digits2_pos_size (p : positive) : digits2_pos p = Pos.size p.
Proof. induction p; simpl; congruence. Qed.

Lemma digits2_pos_bounds (p : positive) :
  2 ^ (Zpos (digits2_pos p) - 1) <= Zpos p < 2 ^ Zpos (digits2_pos p).
Proof.
  induction p as [p IH | p IH | ]; cbn [digits2_pos].
  - rewrite Pos2Z.inj_succ.
    replace (Z.succ (Zpos (digits2_pos p)) - 1) with (Z.succ (Zpos (digits2_pos p) - 1)) by lia.
    rewrite !Z.pow_succ_r by lia. lia.
  - rewrite Pos2Z.inj_succ.
    replace (Z.succ (Zpos (digits2_pos p)) - 1) with (Z.succ (Zpos (digits2_pos p) - 1)) by lia.
    rewrite !Z.pow_succ_r by lia. lia.
  - simpl. lia.
Qed.

Lemma shr_1_m (mrs : shr_record) :
  0 <= shr_m mrs -> shr_m (shr_1 mrs) = shr_m mrs / 2.
Proof.
  destruct mrs as [m r s]. simpl. intros Hm.
  destruct m as [ | [p | p | ] | p ]; cbn [shr_m]; try lia; try reflexivity.
  - apply Z.div_unique with (r := 1); lia.
  - apply Z.div_unique with (r := 0); lia.
Qed.

Lemma iter_shr_1_m (n : positive) : forall mrs,
  0 <= shr_m mrs -> shr_m (iter_pos shr_1 n mrs) = shr_m mrs / 2 ^ Zpos n.
Proof.
  induction n as [n IH | n IH | ]; intros mrs Hm; cbn [iter_pos].
  - assert (H1 : 0 <= shr_m (shr_1 mrs)) by (rewrite shr_1_m by lia; apply Z.div_pos; lia).
    assert (Hpow : 2 ^ Zpos n~1 = 2 * 2 ^ Zpos n * 2 ^ Zpos n).
    { replace (Zpos n~1) with (1 + Zpos n + Zpos n) by lia.
      rewrite !Z.pow_add_r by lia. reflexivity. }
    rewrite IH.
    2:{ rewrite IH by lia. apply Z.div_pos; lia. }
    rewrite IH by lia. rewrite shr_1_m by lia.
    rewrite !Z.div_div by lia. rewrite Hpow. f_equal. lia.
  - assert (Hpow : 2 ^ Zpos n~0 = 2 ^ Zpos n * 2 ^ Zpos n).
    { replace (Zpos n~0) with (Zpos n + Zpos n) by lia.
      rewrite Z.pow_add_r by lia. reflexivity. }
    rewrite IH.
    2:{ rewrite IH by lia. apply Z.div_pos; lia. }
    rewrite IH by lia.
    rewrite !Z.div_div by lia. rewrite Hpow. reflexivity.
  - rewrite shr_1_m by lia. reflexivity.
Qed.

Lemma shr_record_of_loc_m (m : Z) (l : location) : shr_m (shr_record_of_loc m l) = m.
Proof. destruct l as [ | [ | | ] ]; reflexivity. Qed.

Lemma shr_fexp_pos (m e : Z) (l : location) :
  0 < m -> emin <= e ->
  0 < shr_m (fst (shr_fexp prec emax m e l)) /\ emin <= snd (shr_fexp prec emax m e l).
Proof.
  intros Hm He. unfold shr_fexp, shr.
  destruct m as [ | p | p ]; try lia. cbn [Zdigits2].
  pose proof (digits2_pos_bounds p) as [Hlo Hhi].
  set (d := Zpos (digits2_pos p)) in *.
  destruct (fexp prec emax (d + e) - e) as [ | n | n ] eqn:En; cbn [fst snd];
    rewrite ?shr_record_of_loc_m; try lia.
  rewrite iter_shr_1_m by (rewrite shr_record_of_loc_m; lia).
  rewrite shr_record_of_loc_m.
  unfold fexp, SpecFloat.emin, prec, emax in *.
  split; [ | lia ].
  apply Z.div_str_pos. split; [ apply Z.pow_pos_nonneg; lia | ].
  apply Z.le_trans with (2 ^ (d - 1)); [ | exact Hlo ].
  apply Z.pow_le_mono_r; lia.
Qed.

Lemma round_nearest_even_pos (m : Z) (l : location) :
  0 < m -> 0 < round_nearest_even m l.
Proof.
  intros Hm. destruct l as [ | [ | | ] ]; simpl; try lia.
  destruct (Z.even m); lia.
Qed.

Lemma binary_round_aux_nonzero (s : bool) (m e : Z) (l : location) :
  0 < m -> emin <= e -> nonzero_of_sign s (binary_round_aux prec emax s m e l).
Proof.
  intros Hm He. unfold binary_round_aux.
  pose proof (shr_fexp_pos m e l Hm He) as [H1 H2].
  destruct (shr_fexp prec emax m e l) as [mrs' e']. cbn [fst snd] in H1, H2.
  pose proof (shr_fexp_pos _ e' loc_Exact
                (round_nearest_even_pos _ (loc_of_shr_record mrs') H1) H2) as [H3 H4].
  destruct (shr_fexp prec emax _ e' loc_Exact) as [mrs'' e'']. cbn [fst snd] in H3, H4.
  destruct (shr_m mrs'') as [ | q | q ]; try lia.
  destruct (e'' <=? emax - prec); reflexivity.
Qed.

Lemma binary_round_nonzero (s : bool) (m : positive) (e : Z) :
  emin <= e -> nonzero_of_sign s (binary_round prec emax s m e).
Proof.
  intros He. unfold binary_round, shl_align.
  set (e' := fexp prec emax (Zpos (digits2_pos m) + e)).
  assert (He' : emin <= e') by (unfold e', fexp, SpecFloat.emin, prec, emax; lia).
  destruct (e' - e) as [ | d | d ]; apply binary_round_aux_nonzero; lia.
Qed.

Lemma binary_normalize_sign (m e : Z) :
  emin <= e ->
  match m with
  | Z0 => binary_normalize prec emax m e false = S754_zero false
  | Zpos _ => nonzero_of_sign false (binary_normalize prec emax m e false)
  | Zneg _ => nonzero_of_sign true (binary_normalize prec emax m e false)
  end.
Proof.
  intros He. destruct m; cbn [binary_normalize];
    [ reflexivity | apply binary_round_nonzero | apply binary_round_nonzero ]; exact He.
Qed.

Lemma valid_finite_bounds (s : bool) (m : positive) (e : Z) :
  valid_binary (S754_finite s m e) = true ->
  emin <= e /\ Zpos m < 2 ^ 53 /\ (emin < e -> 2 ^ 52 <= Zpos m).
Proof.
  cbn [SpecFloat.valid_binary]. unfold bounded, canonical_mantissa.
  rewrite andb_true_iff, Z.eqb_eq. intros [Hc _].
  pose proof (digits2_pos_bounds m) as [Hlo Hhi].
  set (d := Zpos (digits2_pos m)) in *.
  unfold fexp, SpecFloat.emin, prec, emax in *.
  assert (Hd : d <= 53) by lia.
  split; [ lia | split ].
  - apply Z.lt_le_trans with (2 ^ d); [ exact Hhi | apply Z.pow_le_mono_r; lia ].
  - intros He. assert (d = 53) by lia. subst d.
    replace 52 with (Zpos (digits2_pos m) - 1) by lia. exact Hlo.
Qed.

Lemma iter_xO_value (m d : positive) : Zpos (Pos.iter xO m d) = Zpos m * 2 ^ Zpos d.
Proof.
  induction d as [ | d IH ] using Pos.peano_ind.
  - simpl. lia.
  - rewrite Pos.iter_succ, Pos2Z.inj_xO, IH, Pos2Z.inj_succ, Z.pow_succ_r by lia. lia.
Qed.

Lemma shl_align_value (mx : positive) (ex ez : Z) :
  ez <= ex -> Zpos (fst (shl_align mx ex ez)) = Zpos mx * 2 ^ (ex - ez).
Proof.
  intros H. unfold shl_align.
  destruct (ez - ex) as [ | d | d ] eqn:E; cbn [fst]; try lia.
  - replace (ex - ez) with 0 by lia. simpl. lia.
  - rewrite iter_xO_value. f_equal. f_equal. lia.
Qed.

(** The aligned mantissas of two valid finite floats compare as their exponents
    and then their mantissas do. *)
Lemma aligned_compare (sx sy : bool) (mx my : positive) (ex ey : Z) :
  valid_binary (S754_finite sx mx ex) = true ->
  valid_binary (S754_finite sy my ey) = true ->
  let ez := Z.min ex ey in
  (Zpos (fst (shl_align mx ex ez)) ?= Zpos (fst (shl_align my ey ez))) =
  match ex ?= ey with
  | Lt => Lt
  | Gt => Gt
  | Eq => Pos.compare_cont Eq mx my
  end.
Proof.
  intros Vx Vy ez.
  apply valid_finite_bounds in Vx. destruct Vx as (Hex & Hmx & Hnx).
  apply valid_finite_bounds in Vy. destruct Vy as (Hey & Hmy & Hny).
  rewrite !shl_align_value by (unfold ez; lia).
  destruct (Z.compare_spec ex ey) as [E | E | E].
  - subst ey. unfold ez. rewrite Z.min_id, Z.sub_diag. simpl (2 ^ 0).
    rewrite !Z.mul_1_r. reflexivity.
  - unfold ez. rewrite Z.min_l by lia. rewrite Z.sub_diag. simpl (2 ^ 0). rewrite Z.mul_1_r.
    apply Z.compare_lt_iff.
    assert (2 ^ 1 <= 2 ^ (ey - ex)) by (apply Z.pow_le_mono_r; lia).
    assert (2 ^ 52 <= Zpos my) by (apply Hny; lia).
    change (2 ^ 1) with 2 in *. change (2 ^ 53) with (2 * 2 ^ 52) in *. nia.
  - unfold ez. rewrite Z.min_r by lia. rewrite Z.sub_diag. simpl (2 ^ 0). rewrite Z.mul_1_r.
    apply Z.compare_gt_iff.
    assert (2 ^ 1 <= 2 ^ (ex - ey)) by (apply Z.pow_le_mono_r; lia).
    assert (2 ^ 52 <= Zpos mx) by (apply Hnx; lia).
    change (2 ^ 1) with 2 in *. change (2 ^ 53) with (2 * 2 ^ 52) in *. nia.
Qed.

Lemma SFltb_zero_nonzero (s : bool) (r : spec_float) :
  nonzero_of_sign s r -> SFltb (S754_zero false) r = negb s.
Proof.
  destruct r as [ | s' | | s' m e ]; cbn; try contradiction; intros ->; destruct s; reflexivity.
Qed.

(** The sign of a difference is the order of its operands. *)
Lemma SFsub_pos_iff (x y : spec_float) :
  valid_binary x = true -> valid_binary y = true ->
  SFltb (S754_zero false) (SF64sub y x) = SFltb x y.
Proof.
  intros Vx Vy.
  destruct x as [ sx | sx | | sx mx ex ]; destruct y as [ sy | sy | | sy my ey ];
    try reflexivity;
    try (destruct sx; try destruct sy; reflexivity);
    try (destruct sy; reflexivity).
  unfold SF64sub, SFsub.
  pose proof (aligned_compare sx sy mx my ex ey Vx Vy) as Hc. cbv zeta in Hc.
  pose proof (valid_finite_bounds _ _ _ Vx) as (Hex & _).
  pose proof (valid_finite_bounds _ _ _ Vy) as (Hey & _).
  set (ez := Z.min ey ex). replace (Z.min ex ey) with ez in Hc by (unfold ez; lia).
  set (X := Zpos (fst (shl_align mx ex ez))) in *.
  set (Y := Zpos (fst (shl_align my ey ez))) in *.
  assert (HX : 0 < X) by (unfold X; lia).
  assert (HY : 0 < Y) by (unfold Y; lia).
  pose proof (binary_normalize_sign (cond_Zopp sy Y - cond_Zopp sx X) ez
                ltac:(unfold ez; lia)) as Hn.
  unfold SFltb at 2. cbn [SFcompare].
  destruct sx, sy; cbn [cond_Zopp] in *.
  - (* both negative *)
    destruct (- Y - - X) as [ | d | d ] eqn:ED.
    + rewrite Hn. assert (E : X = Y) by lia.
      apply Z.compare_eq_iff in E. rewrite Hc in E.
      destruct (ex ?= ey); try discriminate. rewrite E. reflexivity.
    + rewrite (SFltb_zero_nonzero _ _ Hn). assert (E : Y < X) by lia.
      apply Z.compare_gt_iff in E. rewrite Hc in E.
      destruct (ex ?= ey); try discriminate; try reflexivity. rewrite E. reflexivity.
    + rewrite (SFltb_zero_nonzero _ _ Hn). assert (E : X < Y) by lia.
      apply Z.compare_lt_iff in E. rewrite Hc in E.
      destruct (ex ?= ey); try discriminate; try reflexivity. rewrite E. reflexivity.
  - (* x negative, y positive *)
    destruct (Y - - X) as [ | d | d ] eqn:ED; try lia.
    rewrite (SFltb_zero_nonzero _ _ Hn). reflexivity.
  - (* x positive, y negative *)
    destruct (- Y - X) as [ | d | d ] eqn:ED; try lia.
    rewrite (SFltb_zero_nonzero _ _ Hn). reflexivity.
  - (* both positive *)
    destruct (Y - X) as [ | d | d ] eqn:ED.
    + rewrite Hn. assert (E : X = Y) by lia.
      apply Z.compare_eq_iff in E. rewrite Hc in E.
      destruct (ex ?= ey); try discriminate. rewrite E. reflexivity.
    + rewrite (SFltb_zero_nonzero _ _ Hn). assert (E : X < Y) by lia.
      apply Z.compare_lt_iff in E. rewrite Hc in E.
      destruct (ex ?= ey); try discriminate; try reflexivity. rewrite E. reflexivity.
    + rewrite (SFltb_zero_nonzero _ _ Hn). assert (E : Y < X) by lia.
      apply Z.compare_gt_iff in E. rewrite Hc in E.
      destruct (ex ?= ey); try discriminate; try reflexivity. rewrite E. reflexivity.
Qed.


Lemma SFcompare_key_finite (sx sy : bool) (mx my : positive) (ex ey : Z) :
  SFcompare (S754_finite sx mx ex) (S754_finite sy my ey) =
  Some (lexCompare (orderKey (S754_finite sx mx ex)) (orderKey (S754_finite sy my ey))).
Proof.
  cbn [SFcompare orderKey]. f_equal.
  destruct sx, sy; cbn [lexCompare].
  - change (-1 ?= -1) with Eq. cbv iota.
    rewrite !Z.compare_opp. change (Z.compare (Zpos my) (Zpos mx)) with (Pos.compare my mx).
    rewrite (Pos.compare_antisym mx my). unfold Pos.compare.
    destruct (Z.compare_spec ex ey) as [E | E | E].
    + subst. rewrite Z.compare_refl. reflexivity.
    + apply Z.compare_gt_iff in E. rewrite E. reflexivity.
    + apply Z.compare_lt_iff in E. rewrite E. reflexivity.
  - change (-1 ?= 1) with Lt. reflexivity.
  - change (1 ?= -1) with Gt. reflexivity.
  - change (1 ?= 1) with Eq. cbv iota.
    change (Z.compare (Zpos mx) (Zpos my)) with (Pos.compare mx my). unfold Pos.compare.
    destruct (ex ?= ey); reflexivity.
Qed.

Lemma SFcompare_key (x y : spec_float) :
  SFcompare x y =
  if isNaN x || isNaN y then None else Some (lexCompare (orderKey x) (orderKey y)).
Proof.
  destruct x as [ sx | sx | | sx mx ex ]; destruct y as [ sy | sy | | sy my ey ];
    first [ apply SFcompare_key_finite
          | reflexivity
          | destruct sx; try destruct sy; reflexivity
          | destruct sy; reflexivity ].
Qed.

Lemma lexCompare_spec (a b : Z * Z * Z) :
  match lexCompare a b with
  | Lt => lexLt a b
  | Eq => a = b
  | Gt => lexLt b a
  end.
Proof.
  destruct a as [[a1 a2] a3], b as [[b1 b2] b3]. cbn [lexCompare lexLt].
  destruct (Z.compare_spec a1 b1); [ | lia | lia ].
  destruct (Z.compare_spec a2 b2); [ | lia | lia ].
  destruct (Z.compare_spec a3 b3); [ | lia | lia ].
  congruence.
Qed.

Lemma lexLt_irrefl (a : Z * Z * Z) : ~ lexLt a a.
Proof. destruct a as [[a1 a2] a3]. cbn. lia. Qed.

Lemma lexLt_trans (a b c : Z * Z * Z) : lexLt a b -> lexLt b c -> lexLt a c.
Proof.
  destruct a as [[a1 a2] a3], b as [[b1 b2] b3], c as [[c1 c2] c3]. cbn. lia.
Qed.


Local Open Scope float_scope.

Lemma lexCompare_refl (k : Z * Z * Z) : lexCompare k k = Eq.
Proof. destruct k as [[a b] c]. cbn. rewrite !Z.compare_refl. reflexivity. Qed.

Lemma is_nan_spec (x : float) : is_nan x = isNaN (Prim2SF x).
Proof.
  unfold is_nan. rewrite eqb_spec. unfold SFeqb. rewrite SFcompare_key.
  destruct (isNaN (Prim2SF x)); cbn; [ reflexivity | ].
  rewrite lexCompare_refl. reflexivity.
Qed.

Lemma compared (a b : float) : Compared a b.
Proof.
  pose proof (lexCompare_spec (key a) (key b)) as Hab.
  pose proof (lexCompare_spec (key b) (key a)) as Hba.
  pose proof (is_nan_spec a) as Na. pose proof (is_nan_spec b) as Nb.
  unfold key in *.
  assert (T : forall P : Prop,
    ((a <? b) = SFltb (Prim2SF a) (Prim2SF b) ->
     (a =? b) = SFeqb (Prim2SF a) (Prim2SF b) ->
     (a <=? b) = SFleb (Prim2SF a) (Prim2SF b) ->
     (b <? a) = SFltb (Prim2SF b) (Prim2SF a) ->
     (b =? a) = SFeqb (Prim2SF b) (Prim2SF a) ->
     (b <=? a) = SFleb (Prim2SF b) (Prim2SF a) -> P) -> P).
  { intros P HP. apply HP; [ apply ltb_spec | apply eqb_spec | apply leb_spec
                           | apply ltb_spec | apply eqb_spec | apply leb_spec ]. }
  apply T. clear T. unfold SFltb, SFeqb, SFleb. rewrite !SFcompare_key.
  destruct (isNaN (Prim2SF a)) eqn:Ea.
  { cbn [orb]. rewrite orb_true_r. intros. apply Unordered; auto. }
  destruct (isNaN (Prim2SF b)) eqn:Eb.
  { cbn [orb]. intros. apply Unordered; auto. }
  cbn [orb].
  destruct (lexCompare (orderKey (Prim2SF a)) (orderKey (Prim2SF b))) eqn:Cab;
  destruct (lexCompare (orderKey (Prim2SF b)) (orderKey (Prim2SF a))) eqn:Cba; intros.
  - apply Same; auto.
  - exfalso. rewrite Hab in Hba. exact (lexLt_irrefl _ Hba).
  - exfalso. rewrite Hab in Hba. exact (lexLt_irrefl _ Hba).
  - exfalso. rewrite Hba in Hab. exact (lexLt_irrefl _ Hab).
  - exfalso. exact (lexLt_irrefl _ (lexLt_trans _ _ _ Hab Hba)).
  - apply Less; auto.
  - exfalso. rewrite Hba in Hab. exact (lexLt_irrefl _ Hab).
  - apply Greater; auto.
  - exfalso. exact (lexLt_irrefl _ (lexLt_trans _ _ _ Hab Hba)).
Qed.

Lemma sub_pos_iff_lt (a b : float) : (0 <? b - a) = (a <? b).
Proof.
  rewrite !ltb_spec, sub_spec. change (Prim2SF 0) with (S754_zero false).
  apply SFsub_pos_iff; apply Prim2SF_valid.
Qed.

Ltac clash :=
  match goal with
  | H1 : ?x = true, H2 : ?x = false |- _ => rewrite H1 in H2; discriminate H2
  | H : _ \/ _ |- _ => destruct H; clash
  end.

Lemma leb_trans (a b c : float) :
  (a <=? b) = true -> (b <=? c) = true -> (a <=? c) = true.
Proof.
  intros Hab Hbc.
  destruct (compared a b) as [ | ? ? K1 | ? ? K1 | ]; try clash;
  destruct (compared b c) as [ | ? ? K2 | ? ? K2 | ]; try clash;
  destruct (compared a c) as [ | | | ? ? K3 ]; try clash; try assumption; exfalso.
  - exact (lexLt_irrefl _ (lexLt_trans _ _ _ (lexLt_trans _ _ _ K1 K2) K3)).
  - rewrite <- K2 in K3. exact (lexLt_irrefl _ (lexLt_trans _ _ _ K1 K3)).
  - rewrite K1 in K3. exact (lexLt_irrefl _ (lexLt_trans _ _ _ K2 K3)).
  - rewrite K1, K2 in K3. exact (lexLt_irrefl _ K3).
Qed.

Lemma ltb_false_leb (a b : float) :
  is_nan a = false -> is_nan b = false -> (a <? b) = false -> (b <=? a) = true.
Proof.
  intros Na Nb H. destruct (compared a b); try clash; assumption.
Qed.

Lemma ltb_leb (a b : float) : (a <? b) = true -> (a <=? b) = true.
Proof. intros H. destruct (compared a b); try clash; assumption. Qed.

Lemma eqb_ltb_other (a b v : float) :
  (a =? v) = true -> (a <? b) = true -> (b =? v) = false.
Proof.
  intros Hav Hab.
  destruct (compared a v) as [ | | ? ? K1 | ]; try clash.
  destruct (compared a b) as [ | ? ? K2 | | ]; try clash.
  destruct (compared b v) as [ | | ? ? K3 | ]; try assumption.
  exfalso. rewrite K3, <- K1 in K2. exact (lexLt_irrefl _ K2).
Qed.

Lemma pos_ne0 (c : float) : (0 <? c) = true -> (c =? 0) = false.
Proof. intros H. destruct (compared 0 c); try clash; assumption. Qed.

Lemma Prim2SF_eq (x : float) (v : spec_float) : Prim2SF x = v -> x = SF2Prim v.
Proof. intros <-. symmetry. apply SF2Prim_Prim2SF. Qed.

Lemma eqb_zero_spec (x : float) :
  (x =? 0) = true <-> exists s, Prim2SF x = S754_zero s.
Proof.
  rewrite eqb_spec. change (Prim2SF 0) with (S754_zero false). unfold SFeqb.
  destruct (Prim2SF x) as [ s | s | | s m e ]; cbn.
  - split; [ eexists; reflexivity | reflexivity ].
  - destruct s; split; try discriminate; intros [? ?]; discriminate.
  - split; try discriminate; intros [? ?]; discriminate.
  - destruct s; split; try discriminate; intros [? ?]; discriminate.
Qed.

Lemma eqb_zero_inv (x : float) : (x =? 0) = true -> x = 0 \/ x = (-0)%float.
Proof.
  intros H. apply eqb_zero_spec in H. destruct H as [s H].
  apply Prim2SF_eq in H. destruct s; [ right | left ]; exact H.
Qed.

Lemma is_nan_inv (x : float) : is_nan x = true -> x = nan.
Proof.
  rewrite is_nan_spec. destruct (Prim2SF x) eqn:E; try discriminate.
  intros _. exact (Prim2SF_eq _ _ E).
Qed.

(** A quotient by zero, times a hundred. *)
Lemma zero_over_zero (c t : float) :
  (c =? 0) = true -> (t =? 0) = true -> c / t * 100 = nan.
Proof.
  intros Hc Ht.
  destruct (eqb_zero_inv _ Hc) as [-> | ->]; destruct (eqb_zero_inv _ Ht) as [-> | ->];
    vm_compute; reflexivity.
Qed.

Lemma nonzero_over_zero (c t : float) :
  (t =? 0) = true -> (c =? 0) = false -> is_nan c = false ->
  c / t * 100 = infinity \/ c / t * 100 = neg_infinity.
Proof.
  intros Ht Hc Hn.
  assert (H : exists s, Prim2SF (c / t * 100) = S754_infinity s).
  { rewrite mul_spec, div_spec.
    apply eqb_zero_spec in Ht. destruct Ht as [st ->].
    rewrite is_nan_spec in Hn.
    assert (Hz : forall s, Prim2SF c <> S754_zero s).
    { intros s E. assert (X : (c =? 0) = true) by (apply eqb_zero_spec; eauto).
      rewrite X in Hc. discriminate. }
    destruct (Prim2SF c) as [ s | s | | s m e ]; try discriminate.
    - exfalso. exact (Hz s eq_refl).
    - eexists. vm_compute. reflexivity.
    - eexists. vm_compute. reflexivity. }
  destruct H as [s H]. apply Prim2SF_eq in H. destruct s; [ right | left ]; exact H.
Qed.

Lemma SFleb_zero_inv (x : spec_float) :
  SFleb (S754_zero false) x = true ->
  (exists s, x = S754_zero s) \/ x = S754_infinity false \/
  (exists m e, x = S754_finite false m e).
Proof.
  destruct x as [ s | s | | s m e ]; cbn.
  - intros _. left. eauto.
  - destruct s; [ discriminate | intros _; right; left; reflexivity ].
  - discriminate.
  - destruct s; [ discriminate | intros _; right; right; eauto ].
Qed.

(** The sum of two non-negative valid floats is non-negative, and it is zero
    only when both are. *)
Lemma SFadd_nonneg (x y : spec_float) :
  valid_binary x = true -> valid_binary y = true ->
  SFleb (S754_zero false) x = true -> SFleb (S754_zero false) y = true ->
  SFleb (S754_zero false) (SF64add x y) = true /\
  (SFeqb (SF64add x y) (S754_zero false) = true ->
   SFeqb x (S754_zero false) = true /\ SFeqb y (S754_zero false) = true).
Proof.
  intros Vx Vy Hx Hy.
  apply SFleb_zero_inv in Hx. apply SFleb_zero_inv in Hy.
  destruct Hx as [ [sx ->] | [ -> | (mx & ex & ->) ] ];
  destruct Hy as [ [sy ->] | [ -> | (my & ey & ->) ] ];
    try (split; [ reflexivity | vm_compute; intros; try discriminate; auto ]; fail);
    try (destruct sx; try destruct sy;
         (split; [ reflexivity | vm_compute; intros; try discriminate; auto ]); fail);
    try (destruct sy;
         (split; [ reflexivity | vm_compute; intros; try discriminate; auto ]); fail).
  unfold SF64add, SFadd. cbn [cond_Zopp].
  pose proof (valid_finite_bounds _ _ _ Vx) as (Hex & _).
  pose proof (valid_finite_bounds _ _ _ Vy) as (Hey & _).
  set (ez := Z.min ex ey).
  pose proof (binary_normalize_sign
                (Zpos (fst (shl_align mx ex ez)) + Zpos (fst (shl_align my ey ez))) ez
                ltac:(unfold ez; lia)) as Hn.
  cbn [Z.add] in Hn |- *.
  destruct (binary_normalize prec emax _ ez false) as [ s | s | | s m e ];
    cbn in Hn; try contradiction; subst s; split; try reflexivity; cbn; discriminate.
Qed.

Lemma add_nonneg (a b : float) :
  (0 <=? a) = true -> (0 <=? b) = true -> (0 <=? a + b) = true.
Proof.
  rewrite !leb_spec, add_spec. change (Prim2SF 0) with (S754_zero false).
  intros Ha Hb. apply SFadd_nonneg; auto using Prim2SF_valid.
Qed.

Lemma add_nonneg_zero (a b : float) :
  (0 <=? a) = true -> (0 <=? b) = true -> (a + b =? 0) = true ->
  (a =? 0) = true /\ (b =? 0) = true.
Proof.
  rewrite !leb_spec, !eqb_spec, add_spec. change (Prim2SF 0) with (S754_zero false).
  intros Ha Hb. apply SFadd_nonneg; auto using Prim2SF_valid.
Qed.

Lemma truthy_not_nan (x : float) : truthy x = true -> is_nan x = false.
Proof.
  unfold truthy. rewrite andb_true_iff, !negb_true_iff. tauto.
Qed.

Lemma orZero_not_nan (x : option float) : is_nan (orZero x) = false.
Proof.
  destruct x as [v | ]; cbn; [ | reflexivity ].
  destruct (truthy v) eqn:E; [ apply truthy_not_nan; exact E | reflexivity ].
Qed.

Lemma exactValue_orZero (a : float) : exactValue (orZero (Some a)) = exactValue a.
Proof.
  cbn [orZero]. destruct (truthy a) eqn:E; [ reflexivity | ].
  unfold truthy in E. rewrite andb_false_iff, !negb_false_iff in E.
  destruct E as [E | E].
  - destruct (eqb_zero_inv _ E) as [-> | ->]; reflexivity.
  - rewrite (is_nan_inv _ E). reflexivity.
Qed.

(** A non-negative amount passes [|| 0] unchanged in value. *)
Lemma orZero_nonneg (a : float) :
  (0 <=? a) = true -> (orZero (Some a) =? a) = true /\ (0 <=? orZero (Some a)) = true.
Proof.
  intros H. cbn [orZero]. destruct (truthy a) eqn:E.
  - split; [ | exact H ]. pose proof (truthy_not_nan _ E) as N.
    destruct (compared a a) as [ | ? ? K | | ? ? K ]; try clash; try assumption;
      exfalso; exact (lexLt_irrefl _ K).
  - split; [ | reflexivity ].
    unfold truthy in E. rewrite andb_false_iff, !negb_false_iff in E.
    destruct E as [E | E].
    + destruct (compared 0 a); try clash; assumption.
    + destruct (compared 0 a); try clash.
Qed.

Lemma fold_add_nonneg (l : list float) : forall acc,
  nonNegative acc -> Forall nonNegative l ->
  nonNegative (fold_left PrimFloat.add l acc) /\
  ((fold_left PrimFloat.add l acc =? 0) = true ->
   (acc =? 0) = true /\ Forall (fun x => (x =? 0) = true) l).
Proof.
  unfold nonNegative. induction l as [ | x l IH ]; intros acc Ha Hl; cbn [fold_left].
  - split; [ exact Ha | intros H; split; [ exact H | constructor ] ].
  - inversion Hl as [ | ? ? Hx Hl' ]; subst.
    destruct (IH (acc + x) (add_nonneg _ _ Ha Hx) Hl') as [H1 H2].
    split; [ exact H1 | ]. intros H. destruct (H2 H) as [H3 H4].
    destruct (add_nonneg_zero _ _ Ha Hx H3) as [H5 H6].
    split; [ exact H5 | constructor; assumption ].
Qed.

Lemma fold_add_zeros (l : list float) :
  Forall (fun x => x = 0) l -> fold_left PrimFloat.add l 0 = 0.
Proof.
  induction 1 as [ | x l -> _ IH ]; cbn [fold_left]; [ reflexivity | ].
  change (0 + 0) with 0. exact IH.
Qed.

Lemma orZero_of_zero (v : float) : (v =? 0) = true -> orZero (Some v) = 0.
Proof. intros H. cbn. unfold truthy. rewrite H. reflexivity. Qed.

End FloatFacts.

(** * Facts about strings and the classification *)

Module StringFacts.

Lemma prefix_spec (sub s : string) :
  String.prefix sub s = true <-> exists post, s = (sub ++ post)%string.
Proof.
  revert s. induction sub as [ | c sub IH ]; intros s.
  - destruct s; cbn; (split; [ intros _; eexists; reflexivity | reflexivity ]).
  - destruct s as [ | d s ]; cbn.
    + split; [ discriminate | intros [post H]; discriminate ].
    + destruct (ascii_dec c d) as [-> | N].
      * rewrite IH. split; intros [post H]; exists post; [ subst; reflexivity | ].
        congruence.
      * split; [ discriminate | intros [post H]; congruence ].
Qed.

Lemma includes_spec (s sub : string) :
  includes s sub = true <-> exists pre post, s = (pre ++ sub ++ post)%string.
Proof.
  induction s as [ | c s IH ]; cbn [includes]; rewrite orb_true_iff, prefix_spec.
  - split.
    + intros [[post H] | H]; [ | discriminate ]. exists EmptyString, post. exact H.
    + intros (pre & post & H). left. destruct pre; [ exists post; exact H | discriminate ].
  - rewrite IH. split.
    + intros [[post H] | (pre & post & H)].
      * exists EmptyString, post. exact H.
      * exists (String c pre), post. cbn. congruence.
    + intros (pre & post & H). destruct pre as [ | d pre ].
      * left. exists post. exact H.
      * right. exists pre, post. cbn in H. congruence.
Qed.

Lemma lower_upper_ascii (c : ascii) : lower_ascii (upper_ascii c) = lower_ascii c.
Proof.
  destruct c as [b0 b1 b2 b3 b4 b5 b6 b7].
  destruct b0, b1, b2, b3, b4, b5, b6, b7; vm_compute; reflexivity.
Qed.

Lemma lower_lower_ascii (c : ascii) : lower_ascii (lower_ascii c) = lower_ascii c.
Proof.
  destruct c as [b0 b1 b2 b3 b4 b5 b6 b7].
  destruct b0, b1, b2, b3, b4, b5, b6, b7; vm_compute; reflexivity.
Qed.

Lemma lowerAscii_upperAscii (s : string) : lowerAscii (upperAscii s) = lowerAscii s.
Proof. induction s as [ | c s IH ]; cbn; [ | rewrite lower_upper_ascii, IH ]; reflexivity. Qed.

Lemma lowerAscii_idempotent (s : string) : lowerAscii (lowerAscii s) = lowerAscii s.
Proof. induction s as [ | c s IH ]; cbn; [ | rewrite lower_lower_ascii, IH ]; reflexivity. Qed.

Lemma isAscii_lower_ascii (c : ascii) :
  Nat.ltb (nat_of_ascii (lower_ascii c)) 128 = Nat.ltb (nat_of_ascii c) 128.
Proof.
  destruct c as [b0 b1 b2 b3 b4 b5 b6 b7].
  destruct b0, b1, b2, b3, b4, b5, b6, b7; vm_compute; reflexivity.
Qed.

Lemma isAscii_upper_ascii (c : ascii) :
  Nat.ltb (nat_of_ascii (upper_ascii c)) 128 = Nat.ltb (nat_of_ascii c) 128.
Proof.
  destruct c as [b0 b1 b2 b3 b4 b5 b6 b7].
  destruct b0, b1, b2, b3, b4, b5, b6, b7; vm_compute; reflexivity.
Qed.

Lemma isAscii_lowerAscii (s : string) : isAscii (lowerAscii s) = isAscii s.
Proof.
  induction s as [ | c s IH ]; cbn [isAscii lowerAscii]; [ reflexivity | ].
  rewrite isAscii_lower_ascii, IH. reflexivity.
Qed.

Lemma isAscii_upperAscii (s : string) : isAscii (upperAscii s) = isAscii s.
Proof.
  induction s as [ | c s IH ]; cbn [isAscii upperAscii]; [ reflexivity | ].
  rewrite isAscii_upper_ascii, IH. reflexivity.
Qed.

Section Classified.

Context {caseMapping : CaseMapping}.

Lemma categoryOf_lower (a b : string) :
  toLowerCase a = toLowerCase b -> categoryOf a = categoryOf b.
Proof. unfold categoryOf. intros ->. reflexivity. Qed.

Lemma categoryOf_rules (name : string) :
  categoryOf name = firstMatch categoryRules (toLowerCase name).
Proof.
  unfold categoryOf, categoryRules. cbn [firstMatch].
  cbn [existsb]. rewrite !orb_false_r. reflexivity.
Qed.

Lemma categoryOf_in (name : string) : In (categoryOf name) categoryNames.
Proof.
  unfold categoryOf, categoryNames.
  repeat match goal with
  | |- context [ if ?b then _ else _ ] => destruct b
  end; cbn; tauto.
Qed.

End Classified.

End StringFacts.

(** * Facts about maps, sets and the sort *)

Module ListFacts.

Lemma existsb_eqb_In (x : string) (l : list string) :
  existsb (String.eqb x) l = true <-> In x l.
Proof.
  rewrite existsb_exists. split.
  - intros (y & Hy & E). apply String.eqb_eq in E. subst. exact Hy.
  - intros H. exists x. split; [ exact H | apply String.eqb_refl ].
Qed.

Lemma existsb_eqb_notIn (x : string) (l : list string) :
  existsb (String.eqb x) l = false <-> ~ In x l.
Proof.
  rewrite <- existsb_eqb_In. destruct (existsb (String.eqb x) l); split; congruence.
Qed.

Lemma Map_keys_set (m : Map) (k : string) (v : float) :
  Map_keys (Map_set m k v) = Set_add (Map_keys m) k.
Proof.
  unfold Set_add, Map_keys. induction m as [ | [k' v'] m IH ]; cbn.
  - reflexivity.
  - rewrite (String.eqb_sym k k'). destruct (String.eqb k' k) eqn:E; cbn.
    + reflexivity.
    + rewrite IH. destruct (existsb (String.eqb k) (List.map fst m)); reflexivity.
Qed.

Lemma Map_set_fresh (m : Map) (k : string) (v : float) :
  ~ In k (Map_keys m) -> Map_set m k v = m ++ [(k, v)].
Proof.
  unfold Map_keys. induction m as [ | [k' v'] m IH ]; cbn; intros H.
  - reflexivity.
  - destruct (String.eqb_spec k' k) as [-> | N]; [ tauto | ].
    rewrite IH by tauto. reflexivity.
Qed.

Lemma Map_get_set (m : Map) (k k' : string) (v : float) :
  Map_get (Map_set m k v) k' = if String.eqb k k' then Some v else Map_get m k'.
Proof.
  induction m as [ | [k0 v0] m IH ]; cbn.
  - reflexivity.
  - destruct (String.eqb_spec k0 k) as [-> | N]; cbn.
    + destruct (String.eqb k k'); reflexivity.
    + rewrite IH. destruct (String.eqb_spec k0 k') as [-> | N'].
      * destruct (String.eqb_spec k k'); [ congruence | reflexivity ].
      * reflexivity.
Qed.

Lemma Map_get_None (m : Map) (k : string) : ~ In k (Map_keys m) -> Map_get m k = None.
Proof.
  unfold Map_keys. induction m as [ | [k' v'] m IH ]; cbn; intros H; [ reflexivity | ].
  destruct (String.eqb_spec k' k); [ tauto | apply IH; tauto ].
Qed.

Lemma Map_get_app (m1 m2 : Map) (k : string) :
  Map_get (m1 ++ m2) k =
  match Map_get m1 k with Some v => Some v | None => Map_get m2 k end.
Proof.
  induction m1 as [ | [k' v'] m1 IH ]; cbn; [ reflexivity | ].
  destruct (String.eqb k' k); [ reflexivity | exact IH ].
Qed.

(** Last write wins. *)
Lemma Map_get_buildMap (entries : list (string * float)) : forall (m : Map) (name : string),
  Map_get (buildMap entries m) name =
  fold_left (fun found entry => if String.eqb (fst entry) name then Some (snd entry) else found)
            entries (Map_get m name).
Proof.
  unfold buildMap. induction entries as [ | [k v] entries IH ]; intros m name; cbn.
  - reflexivity.
  - rewrite IH, Map_get_set. reflexivity.
Qed.

Lemma Map_keys_buildMap (entries : list (string * float)) : forall (m : Map),
  Map_keys (buildMap entries m) = fold_left Set_add (List.map fst entries) (Map_keys m).
Proof.
  unfold buildMap. induction entries as [ | [k v] entries IH ]; intros m; cbn.
  - reflexivity.
  - rewrite IH, Map_keys_set. reflexivity.
Qed.

Lemma buildMap_NoDup (entries : list (string * float)) : forall (m : Map),
  NoDup (Map_keys m ++ List.map fst entries) -> buildMap entries m = m ++ entries.
Proof.
  unfold buildMap. induction entries as [ | [k v] entries IH ]; intros m H; cbn.
  - symmetry. apply app_nil_r.
  - cbn in H. pose proof (NoDup_remove_2 _ _ _ H) as Hk.
    rewrite Map_set_fresh by (intros X; apply Hk; apply in_or_app; left; exact X).
    rewrite IH.
    + rewrite <- app_assoc. reflexivity.
    + unfold Map_keys. rewrite map_app. cbn. rewrite <- app_assoc. exact H.
Qed.

(** [new Set]: the accumulator keeps its order, and what is added is new. *)
Lemma Set_add_fold (l : list string) : forall acc,
  NoDup acc ->
  exists extra,
    fold_left Set_add l acc = acc ++ extra /\
    NoDup (acc ++ extra) /\
    (forall x, In x extra <-> In x l /\ ~ In x acc).
Proof.
  induction l as [ | a l IH ]; intros acc Hacc; cbn [fold_left].
  - exists []. rewrite app_nil_r. cbn. intuition.
  - unfold Set_add at 2. destruct (existsb (String.eqb a) acc) eqn:E.
    + apply existsb_eqb_In in E.
      destruct (IH acc Hacc) as (extra & H1 & H2 & H3).
      exists extra. split; [ exact H1 | split; [ exact H2 | ] ].
      intros x. rewrite H3. cbn. intuition; subst; tauto.
    + apply existsb_eqb_notIn in E.
      assert (Hn : NoDup (acc ++ [a])).
      { apply NoDup_app; [ | | ]; try assumption.
        - constructor; [ intros [] | constructor ].
        - intros x Hx [<- | []]. exact (E Hx). }
      destruct (IH (acc ++ [a]) Hn) as (extra & H1 & H2 & H3).
      exists (a :: extra). rewrite H1, <- app_assoc. cbn.
      rewrite <- app_assoc in H2. cbn in H2.
      split; [ reflexivity | split; [ exact H2 | ] ].
      intros x. cbn. rewrite H3, in_app_iff. cbn.
      destruct (string_dec a x) as [-> | N]; intuition.
Qed.

Lemma Set_of_NoDup (l : list string) : NoDup (Set_of l).
Proof.
  destruct (Set_add_fold l [] (NoDup_nil _)) as (extra & H1 & H2 & _).
  unfold Set_of. rewrite H1. exact H2.
Qed.

Lemma Set_of_In (l : list string) (x : string) : In x (Set_of l) <-> In x l.
Proof.
  destruct (Set_add_fold l [] (NoDup_nil _)) as (extra & H1 & _ & H3).
  unfold Set_of. rewrite H1. cbn. rewrite H3. cbn. tauto.
Qed.

Lemma Set_add_fold_NoDup (l : list string) : forall acc,
  NoDup (acc ++ l) -> fold_left Set_add l acc = acc ++ l.
Proof.
  induction l as [ | a l IH ]; intros acc H; cbn [fold_left].
  - symmetry. apply app_nil_r.
  - pose proof (NoDup_remove_2 _ _ _ H) as Ha.
    unfold Set_add at 2.
    assert (E : existsb (String.eqb a) acc = false).
    { apply existsb_eqb_notIn. intros X. apply Ha. apply in_or_app. left. exact X. }
    rewrite E, IH; rewrite <- app_assoc; [ reflexivity | exact H ].
Qed.

(** The set of all services: the current window's names in their order, then
    the names that only the previous window has. *)
Lemma allServices_split (currentNames previousNames : list string) :
  NoDup currentNames ->
  exists extra,
    Set_of (currentNames ++ previousNames) = currentNames ++ extra /\
    NoDup (currentNames ++ extra) /\
    (forall x, In x extra <-> In x previousNames /\ ~ In x currentNames).
Proof.
  intros H. unfold Set_of. rewrite fold_left_app.
  rewrite (Set_add_fold_NoDup currentNames []) by exact H. cbn [app].
  apply Set_add_fold. exact H.
Qed.

Section SortFacts.
Context {A : Type} (comparefn : A -> A -> float).

Lemma sort_insert_perm (x : A) (l : list A) : Permutation (sort_insert comparefn x l) (x :: l).
Proof.
  induction l as [ | y l IH ]; cbn.
  - reflexivity.
  - destruct (0 <? comparefn x y).
    + rewrite IH. apply perm_swap.
    + reflexivity.
Qed.

Lemma sort_perm (l : list A) : Permutation (sort comparefn l) l.
Proof.
  induction l as [ | x l IH ]; cbn.
  - reflexivity.
  - rewrite sort_insert_perm. apply perm_skip. exact IH.
Qed.

(** An element jumps only over elements it has to follow, so the elements that
    a test selects keep their order when the test rejects what was jumped. *)
Lemma sort_insert_filter (p : A -> bool) (x : A) (l : list A) :
  (p x = true -> forall y, In y l -> (0 <? comparefn x y) = true -> p y = false) ->
  filter p (sort_insert comparefn x l) = filter p (x :: l).
Proof.
  induction l as [ | y l IH ]; intros H; cbn [sort_insert].
  - reflexivity.
  - destruct (0 <? comparefn x y) eqn:E; [ | reflexivity ].
    cbn [filter]. rewrite IH by (intros Hx z Hz; apply H; [ exact Hx | right; exact Hz ]).
    cbn [filter]. destruct (p x) eqn:Px; [ | reflexivity ].
    rewrite (H eq_refl y (or_introl eq_refl) E). reflexivity.
Qed.

Lemma sort_filter (p : A -> bool) (l : list A) :
  (forall x y, p x = true -> (0 <? comparefn x y) = true -> p y = false) ->
  filter p (sort comparefn l) = filter p l.
Proof.
  intros H. induction l as [ | x l IH ]; cbn [sort fold_right].
  - reflexivity.
  - rewrite sort_insert_filter by (intros Hx y _; apply H; exact Hx).
    cbn [filter]. fold (sort comparefn l). rewrite IH. reflexivity.
Qed.

End SortFacts.

End ListFacts.

(** * Facts about the aggregation *)

Module AggFacts.

Section Classified.

Context {caseMapping : CaseMapping}.

Lemma prop_update_keys {V : Type} (o : list (string * V)) (k : string) (f : V -> V) :
  List.map fst (prop_update o k f) = List.map fst o.
Proof.
  induction o as [ | [k' v] o IH ]; cbn; [ reflexivity | ].
  destruct (String.eqb k' k); cbn; [ | rewrite IH ]; reflexivity.
Qed.

Lemma prop_update_get {V : Type} (o : list (string * V)) (k k' : string) (f : V -> V) :
  prop (prop_update o k f) k' =
  if String.eqb k k' then option_map f (prop o k) else prop o k'.
Proof.
  induction o as [ | [k0 v] o IH ]; cbn.
  - destruct (String.eqb k k'); reflexivity.
  - destruct (String.eqb_spec k0 k) as [-> | N]; cbn.
    + destruct (String.eqb k k'); reflexivity.
    + rewrite IH. destruct (String.eqb_spec k0 k') as [-> | N'].
      * destruct (String.eqb_spec k k'); [ congruence | reflexivity ].
      * reflexivity.
Qed.

Lemma prop_of_key {V : Type} (o : list (string * V)) (k : string) :
  In k (List.map fst o) -> exists v, prop o k = Some v.
Proof.
  induction o as [ | [k' v] o IH ]; cbn; [ tauto | ].
  intros [-> | H].
  - rewrite String.eqb_refl. eauto.
  - destruct (String.eqb k' k); eauto.
Qed.

Lemma prop_In {V : Type} (o : list (string * V)) (k : string) (v : V) :
  NoDup (List.map fst o) -> (prop o k = Some v <-> In (k, v) o).
Proof.
  induction o as [ | [k' v'] o IH ]; cbn; intros H.
  - split; [ discriminate | tauto ].
  - inversion H as [ | ? ? Hk Hn ]; subst.
    destruct (String.eqb_spec k' k) as [-> | N].
    + split.
      * intros E. left. congruence.
      * intros [E | E]; [ congruence | ].
        exfalso. apply Hk. apply (in_map fst) in E. exact E.
    + rewrite (IH Hn). split; [ tauto | ].
      intros [E | E]; [ congruence | exact E ].
Qed.

Lemma addAll_current (l : list Cost.t) : forall c,
  Cat.current (addAll l c) = fold_left PrimFloat.add (List.map Cost.amount l) (Cat.current c).
Proof.
  unfold addAll. induction l as [ | x l IH ]; intros c; cbn; [ reflexivity | ].
  rewrite IH. reflexivity.
Qed.

Lemma addAll_previous (l : list Cost.t) : forall c,
  Cat.previous (addAll l c) =
  fold_left PrimFloat.add (List.map (fun x => orZero (Cost.previousAmount x)) l) (Cat.previous c).
Proof.
  unfold addAll. induction l as [ | x l IH ]; intros c; cbn; [ reflexivity | ].
  rewrite IH. reflexivity.
Qed.

Lemma accumulate_spec (costs : list Cost.t) : forall cats,
  List.map fst cats = categoryNames ->
  exists cats',
    accumulate costs cats = Ok cats' /\
    List.map fst cats' = categoryNames /\
    (forall k c0, prop cats k = Some c0 ->
       prop cats' k = Some (addAll (filter (inCategory k) costs) c0)).
Proof.
  induction costs as [ | cost rest IH ]; intros cats Hk; cbn [accumulate].
  - exists cats. cbn. auto.
  - pose proof (StringFacts.categoryOf_in (Cost.serviceName cost)) as Hin.
    rewrite <- Hk in Hin. destruct (prop_of_key _ _ Hin) as [c Hc]. rewrite Hc.
    destruct (IH (prop_update cats (categoryOf (Cost.serviceName cost)) (addToCategory cost)))
      as (cats' & H1 & H2 & H3).
    { rewrite prop_update_keys. exact Hk. }
    exists cats'. split; [ exact H1 | split; [ exact H2 | ] ].
    intros k c0 Hc0. cbn [filter]. unfold inCategory at 1.
    destruct (String.eqb_spec (categoryOf (Cost.serviceName cost)) k) as [E | N].
    + cbn [addAll fold_left]. apply H3. rewrite prop_update_get, E, String.eqb_refl.
      rewrite <- E, Hc in *. cbn. congruence.
    + apply H3. rewrite prop_update_get.
      destruct (String.eqb_spec (categoryOf (Cost.serviceName cost)) k); [ contradiction | ].
      exact Hc0.
Qed.

Lemma iterationOrder_eq (Number : string -> float) (cur prev : GetCostAndUsageResponse)
  (t pt : float) (cm pm : Map) :
  processWindow Number cur = Ok (t, cm) ->
  processWindow Number prev = Ok (pt, pm) ->
  iterationOrder Number cur prev = unsortedCosts cm pm.
Proof. intros H1 H2. unfold iterationOrder, windowCosts. rewrite H1, H2. reflexivity. Qed.

Lemma unsortedCosts_not_nan (cm pm : Map) :
  Forall (fun cost => is_nan (Cost.amount cost) = false) (unsortedCosts cm pm).
Proof.
  unfold unsortedCosts. apply Forall_map. apply Forall_forall. intros name _.
  cbn. apply FloatFacts.orZero_not_nan.
Qed.

Lemma byAmountDesc_after (x y : Cost.t) :
  (0 <? byAmountDesc x y) = (Cost.amount x <? Cost.amount y).
Proof. unfold byAmountDesc. apply FloatFacts.sub_pos_iff_lt. Qed.

Lemma notBelow_trans (a b c : Cost.t) : notBelow a b -> notBelow b c -> notBelow a c.
Proof. unfold notBelow. intros H1 H2. exact (FloatFacts.leb_trans _ _ _ H2 H1). Qed.

Lemma HdRel_sort_insert (y x : Cost.t) (l : list Cost.t) :
  notBelow y x -> HdRel notBelow y l -> HdRel notBelow y (sort_insert byAmountDesc x l).
Proof.
  intros Hyx H. destruct l as [ | z l ]; cbn [sort_insert].
  - constructor. exact Hyx.
  - destruct (0 <? byAmountDesc x z).
    + inversion H; subst. constructor. assumption.
    + constructor. exact Hyx.
Qed.

Lemma sort_insert_sorted (x : Cost.t) (l : list Cost.t) :
  is_nan (Cost.amount x) = false ->
  Forall (fun cost => is_nan (Cost.amount cost) = false) l ->
  Sorted notBelow l -> Sorted notBelow (sort_insert byAmountDesc x l).
Proof.
  intros Nx Nl H. induction H as [ | y l Hl IH Hd ]; cbn [sort_insert].
  - repeat constructor.
  - inversion Nl as [ | ? ? Ny Nl' ]; subst.
    rewrite byAmountDesc_after. destruct (Cost.amount x <? Cost.amount y) eqn:E.
    + constructor; [ apply IH; exact Nl' | ].
      apply HdRel_sort_insert; [ | exact Hd ].
      unfold notBelow. apply FloatFacts.ltb_leb. exact E.
    + constructor; [ constructor; assumption | ].
      constructor. unfold notBelow. apply FloatFacts.ltb_false_leb; assumption.
Qed.

Lemma sort_sorted (l : list Cost.t) :
  Forall (fun cost => is_nan (Cost.amount cost) = false) l ->
  StronglySorted notBelow (sort byAmountDesc l).
Proof.
  intros N. apply Sorted_StronglySorted; [ exact notBelow_trans | ].
  induction N as [ | x l Nx Nl IH ]; cbn [sort fold_right].
  - constructor.
  - apply sort_insert_sorted; [ exact Nx | | exact IH ].
    apply (Permutation_Forall (Permutation_sym (ListFacts.sort_perm byAmountDesc l))).
    exact Nl.
Qed.

Lemma sort_stable (v : float) (l : list Cost.t) :
  withAmount v (sort byAmountDesc l) = withAmount v l.
Proof.
  unfold withAmount. apply ListFacts.sort_filter. intros x y Hx Hxy.
  rewrite byAmountDesc_after in Hxy. exact (FloatFacts.eqb_ltb_other _ _ _ Hx Hxy).
Qed.

Lemma lastWrite_get (entries : list (string * float)) (name : string) :
  Map_get (buildMap entries []) name = lastWrite name entries.
Proof. rewrite ListFacts.Map_get_buildMap. reflexivity. Qed.

Lemma buildMap_keys (entries : list (string * float)) :
  Map_keys (buildMap entries []) = Set_of (List.map fst entries).
Proof. rewrite ListFacts.Map_keys_buildMap. reflexivity. Qed.

Lemma unsortedCosts_names (cm pm : Map) :
  List.map Cost.serviceName (unsortedCosts cm pm) = Set_of (Map_keys cm ++ Map_keys pm).
Proof.
  unfold unsortedCosts. rewrite map_map. cbn. apply map_id.
Qed.

Lemma lastWrite_In (name : string) (entries : list (string * float)) : forall found v,
  fold_left (fun found entry => if String.eqb (fst entry) name then Some (snd entry) else found)
            entries found = Some v ->
  found = Some v \/ In v (List.map snd entries).
Proof.
  induction entries as [ | [k a] entries IH ]; intros found v; cbn.
  - auto.
  - intros H. apply IH in H. destruct H as [H | H]; [ | auto ].
    destruct (String.eqb k name); [ injection H as ->; auto | auto ].
Qed.

Lemma serviceCost_amount_zero (entries : list (string * float)) (pm : Map) (name : string) :
  Forall (fun x => (x =? 0) = true) (List.map snd entries) ->
  Cost.amount (serviceCost (buildMap entries []) pm name) = 0.
Proof.
  intros H. cbn. rewrite lastWrite_get. unfold lastWrite.
  destruct (fold_left _ entries None) as [v | ] eqn:E; [ | reflexivity ].
  apply lastWrite_In in E. destruct E as [E | E]; [ discriminate | ].
  rewrite Forall_forall in H. apply FloatFacts.orZero_of_zero. apply H. exact E.
Qed.

Lemma map_const_repeat {A B : Type} (f : A -> B) (x : B) (l : list A) :
  Forall (fun a => f a = x) l -> List.map f l = repeat x (List.length l).
Proof. induction 1 as [ | a l H _ IH ]; cbn; [ | rewrite H, IH ]; reflexivity. Qed.

Lemma Map_get_prop (m : Map) (k : string) : Map_get m k = prop m k.
Proof. induction m as [ | [k' v] m IH ]; cbn; [ | rewrite IH ]; reflexivity. Qed.

Lemma exactSum_app (l1 l2 : list float) :
  exactSum (l1 ++ l2) = (exactSum l1 + exactSum l2)%Z.
Proof.
  unfold exactSum. induction l1 as [ | x l1 IH ]; cbn; [ reflexivity | ].
  rewrite IH. lia.
Qed.

Lemma exactSum_perm (l1 l2 : list float) :
  Permutation l1 l2 -> exactSum l1 = exactSum l2.
Proof.
  unfold exactSum. induction 1; cbn; lia.
Qed.

Lemma exactSum_zeros (n : nat) : exactSum (repeat 0 n) = 0%Z.
Proof. unfold exactSum. induction n as [ | n IH ]; cbn; [ | rewrite IH ]; reflexivity. Qed.

Lemma exactSum_orZero (l : list float) :
  exactSum (List.map (fun a => orZero (Some a)) l) = exactSum l.
Proof.
  unfold exactSum. induction l as [ | x l IH ]; cbn [List.map fold_right]; [ reflexivity | ].
  rewrite IH, FloatFacts.exactValue_orZero. reflexivity.
Qed.

Lemma exactSum_filter_cons (k : string) (x : Cost.t) (l : list Cost.t) :
  exactSum (List.map Cost.amount (filter (inCategory k) (x :: l))) =
  ((if String.eqb (categoryOf (Cost.serviceName x)) k then exactValue (Cost.amount x) else 0)
   + exactSum (List.map Cost.amount (filter (inCategory k) l)))%Z.
Proof.
  cbn [filter]. unfold inCategory at 1.
  destruct (String.eqb (categoryOf (Cost.serviceName x)) k); reflexivity.
Qed.

(** Every service counts in one category, so the categories' exact sums add up
    to the exact sum of the list. *)
Lemma exactSum_partition (l : list Cost.t) :
  exactSumByCategory categoryNames l = exactSum (List.map Cost.amount l).
Proof.
  unfold exactSumByCategory, categoryNames.
  induction l as [ | x l IH ]; [ reflexivity | ].
  cbn [List.map fold_right] in IH |- *. rewrite !exactSum_filter_cons.
  change (exactSum (Cost.amount x :: List.map Cost.amount l))
    with (exactValue (Cost.amount x) + exactSum (List.map Cost.amount l))%Z.
  rewrite <- IH.
  pose proof (StringFacts.categoryOf_in (Cost.serviceName x)) as Hin.
  cbn in Hin.
  destruct Hin as [<- | [<- | [<- | [<- | [<- | [<- | []]]]]]];
    repeat match goal with
    | |- context [ String.eqb ?a ?b ] =>
        let v := eval vm_compute in (String.eqb a b) in
        change (String.eqb a b) with v
    end; cbv iota; lia.
Qed.

(** With distinct names in the current window, the service list carries the
    fetched amounts, in the order of the fetch, then a zero for each name of
    the previous window only. *)
Lemma unsortedCosts_amounts (entries : list (string * float)) (pm : Map) :
  NoDup (List.map fst entries) ->
  exists n,
    List.map Cost.amount (unsortedCosts (buildMap entries []) pm) =
    List.map (fun a => orZero (Some a)) (List.map snd entries) ++ repeat 0 n.
Proof.
  intros N. rewrite (ListFacts.buildMap_NoDup entries []) by exact N. cbn [app].
  unfold unsortedCosts.
  destruct (ListFacts.allServices_split (Map_keys entries) (Map_keys pm) N)
    as (extra & E & _ & X).
  rewrite E. exists (List.length extra). rewrite !map_app, !map_map. f_equal.
  - unfold Map_keys. rewrite map_map. apply map_ext_in. intros [k v] Hin. cbn.
    rewrite Map_get_prop. rewrite (proj2 (prop_In entries k v N) Hin). reflexivity.
  - cbn. apply map_const_repeat. apply Forall_forall. intros name Hn.
    apply X in Hn. rewrite (ListFacts.Map_get_None entries name) by tauto. reflexivity.
Qed.

Section WithNumber.
Variable Number : string -> float.

Lemma processGroups_fetched (groups : list Group) : forall t m entries,
  fetched Number groups = Ok entries ->
  processGroups Number groups t m =
  Ok (fold_left PrimFloat.add (List.map snd entries) t, buildMap entries m).
Proof.
  unfold fetched. induction groups as [ | g groups IH ]; intros t m entries; cbn.
  - intros [= <-]. reflexivity.
  - destruct (groupAmount Number g) as [a | e]; cbn; [ | discriminate ].
    destruct (mapM _ groups) as [rest | e] eqn:E; cbn; [ | discriminate ].
    intros [= <-]. cbn. apply IH. reflexivity.
Qed.

Lemma processGroups_throw (groups : list Group) : forall t m e,
  fetched Number groups = Throw e -> processGroups Number groups t m = Throw e.
Proof.
  unfold fetched. induction groups as [ | g groups IH ]; intros t m e; cbn.
  - discriminate.
  - destruct (groupAmount Number g) as [a | e']; cbn; [ | intros [= <-]; reflexivity ].
    destruct (mapM _ groups) as [rest | e'] eqn:E; cbn; [ discriminate | ].
    intros [= <-]. apply IH. reflexivity.
Qed.

Lemma fetched_names (groups : list Group) : forall entries,
  fetched Number groups = Ok entries -> List.map fst entries = List.map groupKey groups.
Proof.
  unfold fetched. induction groups as [ | g groups IH ]; intros entries; cbn.
  - intros [= <-]. reflexivity.
  - destruct (groupAmount Number g) as [a | e]; cbn; [ | discriminate ].
    destruct (mapM _ groups) as [rest | e] eqn:E; cbn; [ | discriminate ].
    intros [= <-]. cbn. f_equal. apply IH. reflexivity.
Qed.

Lemma processWindow_inv (response : GetCostAndUsageResponse) (t : float) (m : Map) :
  processWindow Number response = Ok (t, m) ->
  exists entries,
    fetched Number (windowGroups response) = Ok entries /\
    t = fsum (List.map snd entries) /\ m = buildMap entries [].
Proof.
  unfold processWindow, windowGroups.
  destruct (ResultsByTime response) as [ [ | first rest ] | ].
  - discriminate.
  - destruct (Groups first) as [groups | ].
    + destruct (fetched Number groups) as [entries | e] eqn:E.
      * rewrite (processGroups_fetched _ _ _ _ E). intros [= <- <-]. eauto.
      * rewrite (processGroups_throw _ _ _ _ E). discriminate.
    + intros [= <- <-]. exists []. auto.
  - intros [= <- <-]. exists []. auto.
Qed.

Lemma processWindow_entries (response : GetCostAndUsageResponse) (t : float) (m : Map) :
  processWindow Number response = Ok (t, m) ->
  fetched Number (windowGroups response) = Ok (windowEntries Number response) /\
  t = fsum (List.map snd (windowEntries Number response)) /\
  m = buildMap (windowEntries Number response) [] /\
  windowCosts Number response = m.
Proof.
  intros H. destruct (processWindow_inv _ _ _ H) as (entries & E & -> & ->).
  unfold windowEntries, windowCosts. rewrite E, H. auto.
Qed.

Lemma aggregate_inv (cur prev : GetCostAndUsageResponse) (start_ end_ : string)
  (r : CostResult) :
  aggregate Number cur prev start_ end_ = Ok r ->
  exists t cm pt pm cats,
    processWindow Number cur = Ok (t, cm) /\
    processWindow Number prev = Ok (pt, pm) /\
    accumulate (sort byAmountDesc (unsortedCosts cm pm)) initialCategories = Ok cats /\
    r = {| costs := sort byAmountDesc (unsortedCosts cm pm);
           total := t;
           previousTotal := pt;
           totalChangePercentage := changePercentageOf t pt;
           startDate := start_;
           endDate := end_;
           categories := List.map (fun kv => (fst kv, withChangePercentage (snd kv))) cats |}.
Proof.
  unfold aggregate.
  destruct (processWindow Number cur) as [[t cm] | e]; cbn; [ | discriminate ].
  destruct (processWindow Number prev) as [[pt pm] | e]; cbn; [ | discriminate ].
  destruct (accumulate _ initialCategories) as [cats | e] eqn:E; cbn; [ | discriminate ].
  intros [= <-]. exists t, cm, pt, pm, cats. auto.
Qed.

(** The aggregation fails only where reading a window fails. *)
Lemma aggregate_ok (cur prev : GetCostAndUsageResponse) (start_ end_ : string)
  (t pt : float) (cm pm : Map) :
  processWindow Number cur = Ok (t, cm) ->
  processWindow Number prev = Ok (pt, pm) ->
  exists r, aggregate Number cur prev start_ end_ = Ok r.
Proof.
  intros H1 H2. unfold aggregate. rewrite H1, H2. cbn.
  destruct (accumulate_spec (sort byAmountDesc (unsortedCosts cm pm)) initialCategories
              eq_refl) as (cats & E & _).
  rewrite E. cbn. eauto.
Qed.

(** The categories of a result: the six names in their order, each with the
    float sums of its services' amounts in list order. *)
Lemma categories_sums (cur prev : GetCostAndUsageResponse) (start_ end_ : string)
  (r : CostResult) :
  aggregate Number cur prev start_ end_ = Ok r ->
  List.map fst (categories r) = categoryNames /\
  (forall k c, In (k, c) (categories r) ->
     Cat.current c = fsum (List.map Cost.amount (filter (inCategory k) (costs r))) /\
     Cat.previous c =
       fsum (List.map (fun x => orZero (Cost.previousAmount x))
                      (filter (inCategory k) (costs r)))).
Proof.
  intros H. apply aggregate_inv in H.
  destruct H as (t & cm & pt & pm & cats & _ & _ & A & ->). cbn [costs categories].
  destruct (accumulate_spec (sort byAmountDesc (unsortedCosts cm pm)) initialCategories
              eq_refl) as (cats' & E & K & P).
  rewrite A in E. injection E as <-.
  split; [ rewrite map_map; cbn; exact K | ].
  intros k c Hin. apply in_map_iff in Hin. destruct Hin as ([k' c'] & Heq & Hin).
  cbn [fst snd] in Heq. injection Heq as -> <-.
  cbn [withChangePercentage Cat.current Cat.previous].
  assert (Hk : In k categoryNames) by (rewrite <- K; apply (in_map fst) in Hin; exact Hin).
  assert (H0 : prop initialCategories k = Some (Cat.mk 0 0 0)).
  { cbn in Hk. repeat destruct Hk as [<- | Hk]; try reflexivity. contradiction. }
  apply P in H0.
  assert (N : NoDup (List.map fst cats)).
  { rewrite K. repeat (constructor; [ cbn; intuition discriminate | ]). constructor. }
  apply (prop_In _ _ _ N) in Hin. rewrite Hin in H0. injection H0 as ->.
  rewrite addAll_current, addAll_previous. split; reflexivity.
Qed.

(** With non-negative amounts, a total of zero leaves every category at zero. *)
Lemma zero_total_zero_categories (cur prev : GetCostAndUsageResponse) (start_ end_ : string)
  (r : CostResult) :
  aggregate Number cur prev start_ end_ = Ok r ->
  Forall nonNegative (List.map snd (windowEntries Number cur)) ->
  (total r =? 0) = true ->
  Forall (fun entry => Cat.current (snd entry) = 0) (categories r).
Proof.
  intros H Hn Ht. pose proof (categories_sums _ _ _ _ _ H) as [_ Hs].
  apply aggregate_inv in H.
  destruct H as (t & cm & pt & pm & cats & H1 & _ & _ & E).
  destruct (processWindow_entries _ _ _ H1) as (_ & T1 & M1 & _).
  assert (Hz : Forall (fun x => (x =? 0) = true) (List.map snd (windowEntries Number cur))).
  { assert (Ht' : (fold_left PrimFloat.add (List.map snd (windowEntries Number cur)) 0 =? 0)
                  = true).
    { rewrite E in Ht. cbn [total] in Ht. rewrite T1 in Ht. exact Ht. }
    exact (proj2 (proj2 (FloatFacts.fold_add_nonneg _ 0 eq_refl Hn) Ht')). }
  assert (Hc : Forall (fun cost => Cost.amount cost = 0) (costs r)).
  { rewrite E. cbn [costs].
    apply (Permutation_Forall (Permutation_sym (ListFacts.sort_perm byAmountDesc _))).
    unfold unsortedCosts. apply Forall_map. apply Forall_forall. intros name _.
    rewrite M1. apply serviceCost_amount_zero. exact Hz. }
  apply Forall_forall. intros [k c] Hin. cbn [snd].
  rewrite (proj1 (Hs k c Hin)). apply FloatFacts.fold_add_zeros.
  apply Forall_map. apply Forall_forall. intros cost Hcost.
  apply filter_In in Hcost. rewrite Forall_forall in Hc. apply Hc. tauto.
Qed.

Lemma aggregate_changes_set (cur prev : GetCostAndUsageResponse) (start_ end_ : string)
  (r : CostResult) :
  aggregate Number cur prev start_ end_ = Ok r ->
  Forall (fun cost => exists p, Cost.changePercentage cost = Some p) (costs r).
Proof.
  intros H. apply aggregate_inv in H.
  destruct H as (t & cm & pt & pm & cats & _ & _ & _ & ->). cbn [costs].
  apply (Permutation_Forall (Permutation_sym (ListFacts.sort_perm byAmountDesc _))).
  unfold unsortedCosts. apply Forall_map. apply Forall_forall. intros name _.
  cbn. eauto.
Qed.

End WithNumber.

End Classified.

End AggFacts.

(** * Facts about a run *)

Module RunFacts.

Section WithWorld.

Variable Number : string -> float.
Context {caseMapping : CaseMapping}.
Variable toFixedFinite : float -> nat -> string.
Variable Date : Type.
Variable subDays : Date -> Z -> Date.
Variable format : Date -> string -> string.
Variable world : World Date.

Lemma getCostsByService_initial :
  getCostsByService Number Date subDays format world initialState =
  (aggregation Number Date subDays format world,
   {| trace := fetchEvents Date subDays format world; clockReads := 1 |}).
Proof.
  unfold getCostsByService, aggregation, fetchEvents, bindIO, newDate,
    awaitGetCostAndUsage, lift, initialState. cbn.
  fold (currentRequest Date subDays format world).
  fold (previousRequest Date subDays format world).
  destruct (getCostAndUsage Date world 0 _) as [cur | e]; cbn; [ | reflexivity ].
  destruct (getCostAndUsage Date world 1 _) as [prev | e]; cbn; reflexivity.
Qed.

Lemma createGitHubIssue_missing (r : CostResult) (s : State) (key : string) :
  firstMissing Date world = Some key ->
  createGitHubIssue toFixedFinite Date format world r s =
  (Throw (Error (key ++ " environment variable is not set")), s).
Proof.
  unfold firstMissing, createGitHubIssue, throw.
  destruct (negb (isSet (env Date world "GITHUB_TOKEN"))); [ intros [= <-]; reflexivity | ].
  destruct (negb (isSet (env Date world "GITHUB_OWNER"))); [ intros [= <-]; reflexivity | ].
  destruct (negb (isSet (env Date world "GITHUB_REPO"))); [ intros [= <-]; reflexivity | ].
  discriminate.
Qed.

Lemma createGitHubIssue_configured (r : CostResult) (t : list Event) :
  firstMissing Date world = None ->
  createGitHubIssue toFixedFinite Date format world r {| trace := t; clockReads := 1 |} =
  match issueBody toFixedFinite Date format r (clock Date world 1) with
  | Throw e => (Throw e, {| trace := t; clockReads := 2 |})
  | Ok text =>
      (issues_create Date world (issueRequest Date format world text),
       {| trace := t ++ [CallIssuesCreate (issueRequest Date format world text)];
          clockReads := 3 |})
  end.
Proof.
  unfold firstMissing, createGitHubIssue.
  destruct (negb (isSet (env Date world "GITHUB_TOKEN"))); [ discriminate | ].
  destruct (negb (isSet (env Date world "GITHUB_OWNER"))); [ discriminate | ].
  destruct (negb (isSet (env Date world "GITHUB_REPO"))); [ discriminate | ].
  intros _. unfold bindIO, newDate, lift, awaitIssuesCreate. cbn.
  destruct (issueBody toFixedFinite Date format r (clock Date world 1)); reflexivity.
Qed.

(** Every run, event by event. *)
Lemma run_spec :
  run Number toFixedFinite Date subDays format world =
  match aggregation Number Date subDays format world with
  | Throw e => fetchEvents Date subDays format world ++ failure e
  | Ok r =>
      fetchEvents Date subDays format world ++
      ConsoleLog (summaryDocument toFixedFinite r) ::
      publishEvents Date format world toFixedFinite r
  end.
Proof.
  unfold run, main, tryCatch, bindIO. rewrite getCostsByService_initial.
  destruct (aggregation Number Date subDays format world) as [r | e].
  2:{ unfold emit, failure. cbn. rewrite <- app_assoc. reflexivity. }
  unfold emit at 1. cbn [trace clockReads]. unfold publishEvents, failure.
  destruct (firstMissing Date world) as [key | ] eqn:M.
  - rewrite (createGitHubIssue_missing _ _ _ M). unfold emit. cbn.
    rewrite <- !app_assoc. reflexivity.
  - rewrite (createGitHubIssue_configured _ _ M).
    destruct (issueBody toFixedFinite Date format r (clock Date world 1)) as [text | e].
    + destruct (issues_create Date world _) as [u | e]; unfold emit; cbn;
        rewrite <- !app_assoc; reflexivity.
    + unfold emit. cbn. rewrite <- !app_assoc. reflexivity.
Qed.

Lemma fetchEvents_counts :
  (1 <= fetchCount (fetchEvents Date subDays format world) <= 2)%nat /\
  issueCount (fetchEvents Date subDays format world) = 0%nat.
Proof.
  unfold fetchEvents. destruct (getCostAndUsage Date world 0 _); cbn; lia.
Qed.

Lemma fetchEvents_two (r : CostResult) :
  aggregation Number Date subDays format world = Ok r ->
  fetchEvents Date subDays format world =
  [ CallGetCostAndUsage (currentRequest Date subDays format world);
    CallGetCostAndUsage (previousRequest Date subDays format world) ].
Proof.
  unfold aggregation, fetchEvents.
  destruct (getCostAndUsage Date world 0 _); cbn; [ reflexivity | discriminate ].
Qed.

Lemma mapM_ok {A B : Type} (f : A -> result B) (l : list A) :
  Forall (fun x => exists y, f x = Ok y) l -> exists ys, mapM f l = Ok ys.
Proof.
  induction 1 as [ | x l [y Hy] _ [ys IH] ]; cbn.
  - eauto.
  - rewrite Hy, IH. cbn. eauto.
Qed.

(** The body is always produced for a result in which every service has its
    change percentage, as the aggregator's results do. *)
Lemma issueBody_ok (r : CostResult) (today : Date) :
  Forall (fun cost => exists p, Cost.changePercentage cost = Some p) (costs r) ->
  exists text, issueBody toFixedFinite Date format r today = Ok text.
Proof.
  intros H. unfold issueBody, detailSection, notableSection, notableChanges.
  destruct (mapM_ok
    (fun cost =>
       change <- formatChangePercentage_ toFixedFinite (Cost.changePercentage cost) ;;
       Ok (template
             [ "- "; Cost.serviceName cost; ":"; nl;
               "  - 現在: "; toFixed toFixedFinite (Cost.amount cost) 4; " "; Cost.unit cost; nl;
               "  - 前日: "; toFixedOpt toFixedFinite (Cost.previousAmount cost) 4; " ";
               Cost.unit cost; nl;
               "  - 変化率: "; change ]))
    (filter hasCost (costs r))) as [details Ed].
  { apply Forall_forall. intros cost Hc. apply filter_In in Hc. destruct Hc as [Hc _].
    rewrite Forall_forall in H. destruct (H cost Hc) as [p ->]. cbn. eauto. }
  destruct (mapM_ok (notableLine toFixedFinite) (filter isNotable (costs r))) as [notes En].
  { apply Forall_forall. intros cost Hc. apply filter_In in Hc. destruct Hc as [Hc _].
    rewrite Forall_forall in H. destruct (H cost Hc) as [p Hp].
    unfold notableLine. rewrite Hp. cbn. eauto. }
  rewrite Ed. cbn. rewrite En. cbn. eauto.
Qed.

Lemma aggregation_changes_set (r : CostResult) :
  aggregation Number Date subDays format world = Ok r ->
  Forall (fun cost => exists p, Cost.changePercentage cost = Some p) (costs r).
Proof.
  unfold aggregation.
  destruct (getCostAndUsage Date world 0 _) as [cur | e]; cbn; [ | discriminate ].
  destruct (getCostAndUsage Date world 1 _) as [prev | e]; cbn; [ | discriminate ].
  apply AggFacts.aggregate_changes_set.
Qed.

Lemma publishEvents_no_fetch (r : CostResult) :
  fetchCount (publishEvents Date format world toFixedFinite r) = 0%nat.
Proof.
  unfold publishEvents.
  destruct (firstMissing Date world); [ reflexivity | ].
  destruct (issueBody toFixedFinite Date format r (clock Date world 1)); [ | reflexivity ].
  destruct (issues_create Date world _); reflexivity.
Qed.

End WithWorld.

End RunFacts.

(** * The claims *)

Section ClassificationClaim.

Context {caseMapping : CaseMapping}.

(** C4. Classification is total and exhaustive: every name gets one of the six
    fixed category names; the conditional chain of the source is the ordered
    rule list ec2, security, management, storage, tax, else other, with the
    first matching rule winning; a rule matches when one of its substrings
    occurs anywhere in the lower-cased name, so names with the same lower-cased
    form classify alike. All of this holds whatever the case mappings of the
    language are. With them being the ASCII ones on strings of ASCII
    characters, as they are, such names classify alike when they differ only
    in the case of letters, upper-casing or lower-casing such a name keeps
    its category, and the three sample names are [ec2]. *)
Theorem categoryOf_total_ordered_case_insensitive :
  NoDup categoryNames /\
  (forall name, In (categoryOf name) categoryNames) /\
  (forall name, categoryOf name = firstMatch categoryRules (toLowerCase name)) /\
  (forall s sub, includes s sub = true <-> exists pre post, s = (pre ++ sub ++ post)%string) /\
  (forall a b, toLowerCase a = toLowerCase b -> categoryOf a = categoryOf b) /\
  (asciiOnAscii ->
   (forall a b, isAscii a = true -> isAscii b = true ->
      lowerAscii a = lowerAscii b -> categoryOf a = categoryOf b) /\
   (forall name, isAscii name = true ->
      categoryOf (toUpperCase name) = categoryOf name /\
      categoryOf (toLowerCase name) = categoryOf name) /\
   categoryOf "Amazon EC2" = "ec2" /\
   categoryOf "amazon ec2" = "ec2" /\
   categoryOf "AMAZON-EC2-INSTANCE" = "ec2").
Proof.
  split; [ | split; [ | split; [ | split; [ | split ] ] ] ].
  - unfold categoryNames.
    repeat (constructor; [ cbn; intuition discriminate | ]).
    constructor.
  - exact StringFacts.categoryOf_in.
  - exact StringFacts.categoryOf_rules.
  - exact StringFacts.includes_spec.
  - exact StringFacts.categoryOf_lower.
  - intros L.
    assert (Low : forall s, isAscii s = true -> toLowerCase s = lowerAscii s)
      by (intros s Hs; exact (proj1 (L s Hs))).
    assert (Up : forall s, isAscii s = true -> toUpperCase s = upperAscii s)
      by (intros s Hs; exact (proj2 (L s Hs))).
    split; [ | split ].
    + intros a b Ha Hb E. apply StringFacts.categoryOf_lower.
      rewrite (Low a Ha), (Low b Hb). exact E.
    + intros name Hn. split; apply StringFacts.categoryOf_lower.
      * rewrite (Up name Hn), Low by (rewrite StringFacts.isAscii_upperAscii; exact Hn).
        rewrite (Low name Hn). apply StringFacts.lowerAscii_upperAscii.
      * rewrite (Low name Hn), Low by (rewrite StringFacts.isAscii_lowerAscii; exact Hn).
        apply StringFacts.lowerAscii_idempotent.
    + repeat split; rewrite StringFacts.categoryOf_rules, Low by reflexivity;
        vm_compute; reflexivity.
Qed.

End ClassificationClaim.

(** The three sample names under the ASCII case mappings. *)
Lemma categoryOf_total_ordered_case_insensitive_witness :
  categoryOf (caseMapping := Sample.asciiCase) "Amazon EC2" = "ec2" /\
  categoryOf (caseMapping := Sample.asciiCase) "amazon ec2" = "ec2" /\
  categoryOf (caseMapping := Sample.asciiCase) "AMAZON-EC2-INSTANCE" = "ec2".
Proof.
  apply (categoryOf_total_ordered_case_insensitive (caseMapping := Sample.asciiCase)).
  intros s _. split; reflexivity.
Defined.

Section AggregationClaims.

Variable Number : string -> float.
Context {caseMapping : CaseMapping}.

(** C3, as the code has it. The change percentage of every entity follows
    the zero-previous rule: [0] when current and previous are both zero, [100]
    when previous is zero and current is positive, and
    [(current - previous) / previous * 100] when previous is not zero, so
    nothing is ever divided by zero; each service of the result, each category
    and the grand total carry the rule applied to their own current and
    previous amounts. With previous zero the code answers [100] for every
    current that is not zero, the negative ones and [NaN] included: the
    formula is not used there. *)
Theorem changePercentage_zero_previous_rule
  (cur prev : GetCostAndUsageResponse) (start_ end_ : string) (r : CostResult) :
  aggregate Number cur prev start_ end_ = Ok r ->
  (forall c p, (p =? 0) = true -> (c =? 0) = true -> changePercentageOf c p = 0) /\
  (forall c p, (p =? 0) = true -> (0 <? c) = true -> changePercentageOf c p = 100) /\
  (forall c p, (p =? 0) = true -> (c =? 0) = false -> changePercentageOf c p = 100) /\
  (forall c p, (p =? 0) = false -> changePercentageOf c p = (c - p) / p * 100) /\
  Forall (fun cost =>
            exists p, Cost.previousAmount cost = Some p /\
                      Cost.changePercentage cost =
                      Some (changePercentageOf (Cost.amount cost) p)) (costs r) /\
  Forall (fun entry =>
            Cat.changePercentage (snd entry) =
            changePercentageOf (Cat.current (snd entry)) (Cat.previous (snd entry)))
         (categories r) /\
  totalChangePercentage r = changePercentageOf (total r) (previousTotal r).
Proof.
  intros H. apply AggFacts.aggregate_inv in H.
  destruct H as (t & cm & pt & pm & cats & _ & _ & _ & ->). cbn [costs categories total
    previousTotal totalChangePercentage].
  split; [ | split; [ | split; [ | split; [ | split; [ | split ] ] ] ] ].
  - intros c p Hp Hc. unfold changePercentageOf. rewrite Hp, Hc. reflexivity.
  - intros c p Hp Hc. unfold changePercentageOf.
    rewrite Hp, (FloatFacts.pos_ne0 _ Hc). reflexivity.
  - intros c p Hp Hc. unfold changePercentageOf. rewrite Hp, Hc. reflexivity.
  - intros c p Hp. unfold changePercentageOf. rewrite Hp. reflexivity.
  - apply (Permutation_Forall (Permutation_sym (ListFacts.sort_perm byAmountDesc _))).
    unfold unsortedCosts. apply Forall_map. apply Forall_forall. intros name _.
    cbn. eexists. split; reflexivity.
  - apply Forall_map. apply Forall_forall. intros entry _. reflexivity.
  - reflexivity.
Qed.

(** C5. A response without [ResultsByTime], or whose first result has no
    [Groups] or an empty list of them, is read as an empty map with a total of
    zero, and the aggregation of two such windows completes. A response whose
    [ResultsByTime] is an empty array is not: the guard takes the array for
    present, reads [Groups] from its missing first element, and the
    aggregation throws a [TypeError], for the current window as for the
    previous one. *)
Theorem empty_results_array_throws :
  (forall response,
     ResultsByTime response = None \/
     (exists first rest,
        ResultsByTime response = Some (first :: rest) /\
        (Groups first = None \/ Groups first = Some [])) ->
     processWindow Number response = Ok (0, [])) /\
  (forall cur prev start_ end_,
     processWindow Number cur = Ok (0, []) ->
     processWindow Number prev = Ok (0, []) ->
     exists r,
       aggregate Number cur prev start_ end_ = Ok r /\
       costs r = [] /\ total r = 0 /\ previousTotal r = 0) /\
  (forall response,
     ResultsByTime response = Some [] ->
     processWindow Number response =
     Throw (TypeError "Cannot read properties of undefined (reading 'Groups')")) /\
  (forall prev start_ end_,
     aggregate Number {| ResultsByTime := Some [] |} prev start_ end_ =
     Throw (TypeError "Cannot read properties of undefined (reading 'Groups')")) /\
  (forall cur start_ end_ t m,
     processWindow Number cur = Ok (t, m) ->
     aggregate Number cur {| ResultsByTime := Some [] |} start_ end_ =
     Throw (TypeError "Cannot read properties of undefined (reading 'Groups')")).
Proof.
  split; [ | split; [ | split; [ | split ] ] ].
  - intros response [E | (first & rest & E & [G | G])];
      unfold processWindow; rewrite E; try rewrite G; reflexivity.
  - intros cur prev start_ end_ H1 H2. unfold aggregate. rewrite H1, H2.
    eexists. split; [ reflexivity | ]. cbn. auto.
  - intros response E. unfold processWindow. rewrite E. reflexivity.
  - intros prev start_ end_. reflexivity.
  - intros cur start_ end_ t m H. unfold aggregate. rewrite H. reflexivity.
Qed.

End AggregationClaims.

(** The run on an empty array of results: both provider calls, then the error
    and the exit, and no summary. *)
Example empty_results_run :
  List.map Sample.eventName (Sample.runIn Sample.noResults)
    = ["getCostAndUsage"; "getCostAndUsage"; "console.error"; "process.exit"] /\
  skipn 2 (Sample.runIn Sample.noResults)
    = [ ConsoleError (TypeError "Cannot read properties of undefined (reading 'Groups')");
        ProcessExit 1 ].
Proof. split; vm_compute; reflexivity. Qed.

(** C3, as the claim states it, fails: a refund of 5 on a service that had
    nothing the day before has previous 0 and a current that is not positive;
    the claim's formula for every other case, (current - previous) / previous
    * 100, is -Infinity there, and the code answers 100. *)
Lemma refund_after_nothing_changes_by_100 :
  aggregate Sample.Number Sample.credited (Sample.response []) "2025-04-19" "2025-04-20"
    = Ok Sample.creditedReport /\
  In (Cost.mk "Refund" (-5) "USD" (Some 0) (Some 100)) (costs Sample.creditedReport) /\
  (0 <? -5) = false /\
  (-5 - 0) / 0 * 100 = neg_infinity /\
  (changePercentageOf (-5) 0 =? (-5 - 0) / 0 * 100) = false.
Proof.
  split; [ vm_compute; reflexivity | ].
  split; [ vm_compute; right; left; reflexivity | ].
  repeat split; vm_compute; reflexivity.
Qed.

(** The rule on the sample windows: a change from 21.2345 to 21.7158, a new
    service at 100, a service at zero on both days at 0. *)
Lemma changePercentage_zero_previous_rule_witness :
  aggregate Sample.Number Sample.current Sample.previous "2025-04-19" "2025-04-20"
    = Ok Sample.report /\
  List.map (fun cost => (Cost.serviceName cost, Cost.changePercentage cost))
           (costs Sample.report)
    = [ ("Amazon Elastic Compute Cloud", Some ((21.7158 - 21.2345) / 21.2345 * 100));
        ("Amazon Simple Storage Service", Some ((2.10 - 2.00) / 2.00 * 100));
        ("Tax", Some 100);
        ("AWS Key Management Service", Some 0);
        ("Amazon Route 53", Some ((0 - 0.50) / 0.50 * 100)) ] /\
  totalChangePercentage Sample.report
    = changePercentageOf (total Sample.report) (previousTotal Sample.report).
Proof.
  split; [ vm_compute; reflexivity | split; [ vm_compute; reflexivity | ] ].
  apply (changePercentage_zero_previous_rule Sample.Number Sample.current Sample.previous
           "2025-04-19" "2025-04-20" Sample.report).
  vm_compute. reflexivity.
Defined.

Section OrderClaim.

Variable Number : string -> float.
Context {caseMapping : CaseMapping}.

(** C7. The service list of the result is the list of the loop over all
    services, rearranged so that amounts never increase from one service to a
    later one; services with equal amounts keep the order in which the loop
    created them (no second key). *)
Theorem costs_sorted_descending_stable
  (cur prev : GetCostAndUsageResponse) (start_ end_ : string) (r : CostResult) :
  aggregate Number cur prev start_ end_ = Ok r ->
  Permutation (costs r) (iterationOrder Number cur prev) /\
  StronglySorted notBelow (costs r) /\
  (forall v, withAmount v (costs r) = withAmount v (iterationOrder Number cur prev)).
Proof.
  intros H. apply AggFacts.aggregate_inv in H.
  destruct H as (t & cm & pt & pm & cats & H1 & H2 & _ & ->). cbn [costs].
  rewrite (AggFacts.iterationOrder_eq _ _ _ _ _ _ _ H1 H2).
  split; [ apply ListFacts.sort_perm | split ].
  - apply AggFacts.sort_sorted. apply AggFacts.unsortedCosts_not_nan.
  - intros v. apply AggFacts.sort_stable.
Qed.

End OrderClaim.

(** The sample windows, sorted: the two services at zero keep the order of the
    loop. *)
Lemma costs_sorted_descending_stable_witness :
  aggregate Sample.Number Sample.current Sample.previous "2025-04-19" "2025-04-20"
    = Ok Sample.report /\
  List.map Cost.serviceName (iterationOrder Sample.Number Sample.current Sample.previous)
    = [ "Amazon Elastic Compute Cloud"; "Amazon Simple Storage Service";
        "AWS Key Management Service"; "Tax"; "Amazon Route 53" ] /\
  List.map (fun cost => (Cost.serviceName cost, Cost.amount cost)) (costs Sample.report)
    = [ ("Amazon Elastic Compute Cloud", 21.7158);
        ("Amazon Simple Storage Service", 2.10);
        ("Tax", 1.5);
        ("AWS Key Management Service", 0);
        ("Amazon Route 53", 0) ] /\
  StronglySorted notBelow (costs Sample.report) /\
  withAmount 0 (costs Sample.report)
    = withAmount 0 (iterationOrder Sample.Number Sample.current Sample.previous).
Proof.
  split; [ vm_compute; reflexivity | ].
  split; [ vm_compute; reflexivity | ].
  split; [ vm_compute; reflexivity | ].
  pose proof (costs_sorted_descending_stable Sample.Number Sample.current Sample.previous
                "2025-04-19" "2025-04-20" Sample.report) as H.
  destruct H as (_ & Hs & Ht); [ vm_compute; reflexivity | ].
  split; [ exact Hs | apply Ht ].
Defined.

Section NamingClaim.

Variable Number : string -> float.
Context {caseMapping : CaseMapping}.

(** C9. A group without a service-name key (no keys, an empty list of keys or
    an empty first key) is read under the name [Unknown].
    Each window's map keeps, for a name, the amount of the last group read
    under it, and the service list has one record per name with that last
    amount (passed through [|| 0]) as its current or previous amount, while
    the window totals add the amounts of all the groups. *)
Theorem unknown_name_and_last_write_wins
  (cur prev : GetCostAndUsageResponse) (start_ end_ : string) (r : CostResult) :
  aggregate Number cur prev start_ end_ = Ok r ->
  (forall group,
     Keys group = None \/ Keys group = Some [] \/
     (exists rest, Keys group = Some ("" :: rest)) ->
     groupKey group = "Unknown") /\
  fetched Number (windowGroups cur) = Ok (windowEntries Number cur) /\
  fetched Number (windowGroups prev) = Ok (windowEntries Number prev) /\
  List.map fst (windowEntries Number cur) = List.map groupKey (windowGroups cur) /\
  List.map fst (windowEntries Number prev) = List.map groupKey (windowGroups prev) /\
  (forall name,
     Map_get (windowCosts Number cur) name = lastWrite name (windowEntries Number cur) /\
     Map_get (windowCosts Number prev) name = lastWrite name (windowEntries Number prev)) /\
  NoDup (List.map Cost.serviceName (costs r)) /\
  (forall name,
     In name (List.map Cost.serviceName (costs r)) <->
     In name (List.map fst (windowEntries Number cur)) \/
     In name (List.map fst (windowEntries Number prev))) /\
  (forall cost,
     In cost (costs r) ->
     Cost.amount cost = orZero (lastWrite (Cost.serviceName cost) (windowEntries Number cur)) /\
     Cost.previousAmount cost =
       Some (orZero (lastWrite (Cost.serviceName cost) (windowEntries Number prev)))) /\
  total r = fsum (List.map snd (windowEntries Number cur)) /\
  previousTotal r = fsum (List.map snd (windowEntries Number prev)).
Proof.
  intros H. apply AggFacts.aggregate_inv in H.
  destruct H as (t & cm & pt & pm & cats & H1 & H2 & _ & ->).
  cbn [costs total previousTotal].
  destruct (AggFacts.processWindow_entries Number _ _ _ H1) as (F1 & T1 & M1 & W1).
  destruct (AggFacts.processWindow_entries Number _ _ _ H2) as (F2 & T2 & M2 & W2).
  pose proof (ListFacts.sort_perm byAmountDesc (unsortedCosts cm pm)) as P.
  split; [ | split; [ exact F1 | split; [ exact F2 | split; [ | split; [ |
    split; [ | split; [ | split; [ | split; [ | split; [ exact T1 | exact T2 ] ] ] ] ] ] ] ] ] ].
  - intros group [E | [E | [rest E]]]; unfold groupKey; rewrite E; reflexivity.
  - exact (AggFacts.fetched_names Number _ _ F1).
  - exact (AggFacts.fetched_names Number _ _ F2).
  - intros name. rewrite W1, W2, M1, M2, !AggFacts.lastWrite_get. auto.
  - apply (Permutation_NoDup (Permutation_map Cost.serviceName (Permutation_sym P))).
    rewrite AggFacts.unsortedCosts_names. apply ListFacts.Set_of_NoDup.
  - intros name.
    assert (Q : In name (List.map Cost.serviceName (sort byAmountDesc (unsortedCosts cm pm)))
                <-> In name (List.map Cost.serviceName (unsortedCosts cm pm))).
    { split; apply Permutation_in; apply Permutation_map;
        [ exact P | apply Permutation_sym; exact P ]. }
    rewrite Q, AggFacts.unsortedCosts_names.
    rewrite ListFacts.Set_of_In, in_app_iff, M1, M2, !AggFacts.buildMap_keys.
    rewrite !ListFacts.Set_of_In. reflexivity.
  - intros cost Hc. apply (Permutation_in _ P) in Hc.
    unfold unsortedCosts in Hc. apply in_map_iff in Hc. destruct Hc as (name & <- & _).
    cbn. rewrite M1, M2, !AggFacts.lastWrite_get. auto.
Qed.

End NamingClaim.

(** Two groups without a key and two named alike: the last amounts are listed,
    all four are in the total. *)
Lemma unknown_name_and_last_write_wins_witness :
  aggregate Sample.Number Sample.repeated (Sample.response []) "2025-04-19" "2025-04-20"
    = Ok Sample.repeatedReport /\
  windowEntries Sample.Number Sample.repeated
    = [ ("Unknown", 1.25); ("Amazon EC2", 3); ("Unknown", 2.5); ("Amazon EC2", 4) ] /\
  List.map (fun cost => (Cost.serviceName cost, Cost.amount cost)) (costs Sample.repeatedReport)
    = [ ("Amazon EC2", 4); ("Unknown", 2.5) ] /\
  total Sample.repeatedReport = 10.75 /\
  NoDup (List.map Cost.serviceName (costs Sample.repeatedReport)).
Proof.
  split; [ vm_compute; reflexivity | ].
  split; [ vm_compute; reflexivity | ].
  split; [ vm_compute; reflexivity | ].
  split; [ vm_compute; reflexivity | ].
  pose proof (unknown_name_and_last_write_wins Sample.Number Sample.repeated
                (Sample.response []) "2025-04-19" "2025-04-20" Sample.repeatedReport) as H.
  destruct H as (_ & _ & _ & _ & _ & _ & Hn & _); [ vm_compute; reflexivity | ].
  exact Hn.
Defined.

Section RunClaims.

Variable Number : string -> float.
Context {caseMapping : CaseMapping}.
Variable toFixedFinite : float -> nat -> string.
Variable Date : Type.
Variable subDays : Date -> Z -> Date.
Variable format : Date -> string -> string.
Variable world : World Date.

Local Abbreviation theRun := (run Number toFixedFinite Date subDays format world).

(** C1, as the code has it. When a required configuration value (token, owner
    or repository) is unset or empty, no issue is created in the run and the
    provider has been called by then: the check stands in the publisher, which
    runs after the aggregation. When the aggregation succeeds, the run is two
    provider calls, the printed summary, and then the error that names the
    first missing key, and the process exits with status 1. *)
Theorem missing_configuration_fails_before_publish (key : string) :
  firstMissing Date world = Some key ->
  In key ["GITHUB_TOKEN"; "GITHUB_OWNER"; "GITHUB_REPO"] /\
  (isSet (env Date world "GITHUB_TOKEN") = false -> key = "GITHUB_TOKEN") /\
  issueCount theRun = 0%nat /\
  (1 <= fetchCount theRun <= 2)%nat /\
  (forall r,
     aggregation Number Date subDays format world = Ok r ->
     theRun =
       [ CallGetCostAndUsage (currentRequest Date subDays format world);
         CallGetCostAndUsage (previousRequest Date subDays format world);
         ConsoleLog (summaryDocument toFixedFinite r);
         ConsoleError (Error (key ++ " environment variable is not set"));
         ProcessExit 1 ] /\
     fetchCount theRun = 2%nat).
Proof.
  intros M. rewrite RunFacts.run_spec.
  pose proof (RunFacts.fetchEvents_counts Date subDays format world) as [Hf Hi].
  split; [ | split; [ | split; [ | split ] ] ].
  - unfold firstMissing in M.
    repeat match type of M with
    | (if ?b then _ else _) = _ => destruct b
    end; inversion M; cbn; tauto.
  - unfold firstMissing in M. intros E. rewrite E in M. cbn in M. congruence.
  - destruct (aggregation Number Date subDays format world) as [r | e].
    + unfold publishEvents. rewrite M. unfold issueCount in *.
      rewrite filter_app, length_app, Hi. reflexivity.
    + unfold issueCount in *. rewrite filter_app, length_app, Hi. reflexivity.
  - pose proof (RunFacts.publishEvents_no_fetch toFixedFinite Date format world) as Hp.
    destruct (aggregation Number Date subDays format world) as [r | e].
    + specialize (Hp r). unfold fetchCount in *.
      rewrite filter_app, length_app. cbn [filter]. lia.
    + unfold fetchCount in *. rewrite filter_app, length_app. cbn. lia.
  - intros r Hr. rewrite Hr, (RunFacts.fetchEvents_two _ _ _ _ _ _ Hr).
    unfold publishEvents. rewrite M. split; reflexivity.
Qed.

(** C8. When the aggregation succeeds, the run is the two provider calls, then
    the summary on standard output, then the publisher: every call that
    creates an issue comes after the summary, and when the issue tracker
    fails, the error and the exit follow a summary that was already
    printed. *)
Theorem summary_printed_before_publish (r : CostResult) :
  aggregation Number Date subDays format world = Ok r ->
  theRun =
    [ CallGetCostAndUsage (currentRequest Date subDays format world);
      CallGetCostAndUsage (previousRequest Date subDays format world);
      ConsoleLog (summaryDocument toFixedFinite r) ] ++
    publishEvents Date format world toFixedFinite r /\
  (forall before request after,
     theRun = before ++ CallIssuesCreate request :: after ->
     In (ConsoleLog (summaryDocument toFixedFinite r)) before) /\
  (firstMissing Date world = None ->
   exists text,
     issueBody toFixedFinite Date format r (clock Date world 1) = Ok text /\
     forall e,
       issues_create Date world (issueRequest Date format world text) = Throw e ->
       theRun =
         [ CallGetCostAndUsage (currentRequest Date subDays format world);
           CallGetCostAndUsage (previousRequest Date subDays format world);
           ConsoleLog (summaryDocument toFixedFinite r);
           CallIssuesCreate (issueRequest Date format world text);
           ConsoleError e;
           ProcessExit 1 ]).
Proof.
  intros Hr.
  assert (E : theRun =
    [ CallGetCostAndUsage (currentRequest Date subDays format world);
      CallGetCostAndUsage (previousRequest Date subDays format world);
      ConsoleLog (summaryDocument toFixedFinite r) ] ++
    publishEvents Date format world toFixedFinite r).
  { rewrite RunFacts.run_spec, Hr, (RunFacts.fetchEvents_two _ _ _ _ _ _ Hr).
    reflexivity. }
  split; [ exact E | split ].
  - intros before request after H. rewrite E in H.
    destruct before as [ | x [ | y [ | z before ] ] ]; cbn in H; try discriminate.
    injection H as _ _ <- _. cbn. tauto.
  - intros M.
    destruct (RunFacts.issueBody_ok toFixedFinite Date format r (clock Date world 1)
                (RunFacts.aggregation_changes_set Number Date subDays format world r Hr))
      as [text Ht].
    exists text. split; [ exact Ht | ].
    intros e He. rewrite E. unfold publishEvents. rewrite M, Ht, He. reflexivity.
Qed.

End RunClaims.

(** C1, as the claim states it, fails: with the token unset the provider is
    called twice before the run fails. *)
Lemma token_unset_still_fetches :
  env Sample.Date Sample.tokenUnset "GITHUB_TOKEN" = None /\
  fetchCount (Sample.runIn Sample.tokenUnset) = 2%nat /\
  List.map Sample.eventName (Sample.runIn Sample.tokenUnset)
    = ["getCostAndUsage"; "getCostAndUsage"; "console.log"; "console.error"; "process.exit"].
Proof. repeat split; vm_compute; reflexivity. Qed.

(** The run without a token: no issue is created, and the run ends with the
    error that names the token. *)
Lemma missing_configuration_fails_before_publish_witness :
  firstMissing Sample.Date Sample.tokenUnset = Some "GITHUB_TOKEN" /\
  issueCount (Sample.runIn Sample.tokenUnset) = 0%nat /\
  skipn 3 (Sample.runIn Sample.tokenUnset)
    = [ ConsoleError (Error "GITHUB_TOKEN environment variable is not set"); ProcessExit 1 ].
Proof.
  split; [ vm_compute; reflexivity | ].
  split; [ | vm_compute; reflexivity ].
  apply (missing_configuration_fails_before_publish Sample.Number
           (caseMapping := Sample.asciiCase) Sample.toFixedFinite
           Sample.Date Sample.subDays Sample.format Sample.tokenUnset "GITHUB_TOKEN").
  vm_compute. reflexivity.
Defined.

(** The run against a tracker that refuses: the summary is printed, then the
    call is made, then the run fails. *)
Lemma summary_printed_before_publish_witness :
  aggregation Sample.Number Sample.Date Sample.subDays Sample.format Sample.trackerDown
    = Ok (Sample.reportIn Sample.trackerDown) /\
  List.map Sample.eventName (Sample.runIn Sample.trackerDown)
    = [ "getCostAndUsage"; "getCostAndUsage"; "console.log"; "issues.create";
        "console.error"; "process.exit" ] /\
  Sample.runIn Sample.trackerDown =
    [ CallGetCostAndUsage (currentRequest Sample.Date Sample.subDays Sample.format
                             Sample.trackerDown);
      CallGetCostAndUsage (previousRequest Sample.Date Sample.subDays Sample.format
                             Sample.trackerDown);
      ConsoleLog (summaryDocument Sample.toFixedFinite (Sample.reportIn Sample.trackerDown)) ] ++
    publishEvents Sample.Date Sample.format Sample.trackerDown Sample.toFixedFinite
      (Sample.reportIn Sample.trackerDown).
Proof.
  split; [ vm_compute; reflexivity | ].
  split; [ vm_compute; reflexivity | ].
  apply (summary_printed_before_publish Sample.Number (caseMapping := Sample.asciiCase)
           Sample.toFixedFinite Sample.Date
           Sample.subDays Sample.format Sample.trackerDown (Sample.reportIn Sample.trackerDown)).
  vm_compute. reflexivity.
Defined.

Section ShareClaim.

Variable Number : string -> float.
Context {caseMapping : CaseMapping}.
Variable toFixedFinite : float -> nat -> string.

(** C10, as the code has it. Both renderers print a category's share of the
    grand total as [current / total * 100] with no guard for a total of zero.
    In a run whose grand total is zero, the share of a category whose current
    is zero is NaN and prints as [NaN]; with non-negative amounts this is so
    for all six categories. The share of a category whose current is not zero
    (negative amounts that cancel) is an infinity and prints as [Infinity] or
    [-Infinity]. *)
Theorem share_of_zero_total
  (cur prev : GetCostAndUsageResponse) (start_ end_ : string) (r : CostResult) :
  aggregate Number cur prev start_ end_ = Ok r ->
  (total r =? 0) = true ->
  percentageFields (summaryDocument toFixedFinite r) =
    List.map (fun entry =>
                Some (JString (toFixed toFixedFinite (shareOfTotal (snd entry) (total r)) 1)))
             (categories r) /\
  (forall name data,
     categoryText toFixedFinite r (name, data) =
     template
       [ "### "; toUpperCase name; ": "; toFixed toFixedFinite (Cat.current data) 2;
         " USD ("; toFixed toFixedFinite (shareOfTotal data (total r)) 1; "%)"; nl;
         "- 前日比: "; formatChangePercentage toFixedFinite (Cat.changePercentage data); nl;
         "- 前日の金額: "; toFixed toFixedFinite (Cat.previous data) 2; " USD" ]) /\
  (forall data,
     (Cat.current data =? 0) = true ->
     shareOfTotal data (total r) = nan /\
     toFixed toFixedFinite (shareOfTotal data (total r)) 1 = "NaN") /\
  (forall data,
     (Cat.current data =? 0) = false -> is_nan (Cat.current data) = false ->
     (shareOfTotal data (total r) = infinity /\
      toFixed toFixedFinite (shareOfTotal data (total r)) 1 = "Infinity") \/
     (shareOfTotal data (total r) = neg_infinity /\
      toFixed toFixedFinite (shareOfTotal data (total r)) 1 = "-Infinity")) /\
  (Forall nonNegative (List.map snd (windowEntries Number cur)) ->
   percentageFields (summaryDocument toFixedFinite r) = repeat (Some (JString "NaN")) 6).
Proof.
  intros H Ht.
  assert (T1 : percentageFields (summaryDocument toFixedFinite r) =
    List.map (fun entry =>
                Some (JString (toFixed toFixedFinite (shareOfTotal (snd entry) (total r)) 1)))
             (categories r)).
  { unfold percentageFields, summaryDocument. cbn. rewrite map_map.
    apply map_ext. intros [name data]. reflexivity. }
  split; [ exact T1 | split; [ | split; [ | split ] ] ].
  - intros name data. reflexivity.
  - intros data Hc. unfold shareOfTotal.
    rewrite (FloatFacts.zero_over_zero _ _ Hc Ht). split; reflexivity.
  - intros data Hc Hn. unfold shareOfTotal.
    destruct (FloatFacts.nonzero_over_zero _ _ Ht Hc Hn) as [-> | ->];
      [ left | right ]; split; reflexivity.
  - intros Hnn. rewrite T1.
    pose proof (AggFacts.zero_total_zero_categories Number _ _ _ _ _ H Hnn Ht) as Hz.
    pose proof (AggFacts.categories_sums Number _ _ _ _ _ H) as [K _].
    replace 6%nat with (List.length (categories r))
      by (rewrite <- (length_map fst), K; reflexivity).
    apply AggFacts.map_const_repeat.
    apply Forall_forall. intros entry Hin. rewrite Forall_forall in Hz.
    unfold shareOfTotal. rewrite (Hz entry Hin).
    rewrite (FloatFacts.zero_over_zero 0 (total r) eq_refl Ht). reflexivity.
Qed.

End ShareClaim.

(** C10, as the claim states it, fails: a credit that cancels a charge makes
    the grand total zero, and the shares are then infinite for the two
    categories that are not empty. *)
Lemma cancelled_total_gives_infinite_shares :
  aggregate Sample.Number Sample.credited (Sample.response []) "2025-04-19" "2025-04-20"
    = Ok Sample.creditedReport /\
  total Sample.creditedReport = 0 /\
  percentageFields (summaryDocument Sample.toFixedFinite Sample.creditedReport)
    = [ Some (JString "Infinity"); Some (JString "NaN"); Some (JString "NaN");
        Some (JString "NaN"); Some (JString "-Infinity"); Some (JString "NaN") ] /\
  includes (categorySection Sample.toFixedFinite Sample.creditedReport)
           "### EC2: 5.00 USD (Infinity%)" = true.
Proof. repeat split; vm_compute; reflexivity. Qed.

(** A day without any cost: all six shares print as NaN. *)
Lemma share_of_zero_total_witness :
  aggregate Sample.Number (Sample.response []) (Sample.response []) "2025-04-19" "2025-04-20"
    = Ok Sample.emptyReport /\
  (total Sample.emptyReport =? 0) = true /\
  percentageFields (summaryDocument Sample.toFixedFinite Sample.emptyReport)
    = repeat (Some (JString "NaN")) 6.
Proof.
  split; [ vm_compute; reflexivity | ].
  split; [ vm_compute; reflexivity | ].
  apply (share_of_zero_total Sample.Number Sample.toFixedFinite (Sample.response [])
           (Sample.response []) "2025-04-19" "2025-04-20" Sample.emptyReport).
  - vm_compute. reflexivity.
  - vm_compute. reflexivity.
  - vm_compute. constructor.
Defined.

Section SumClaim.

Variable Number : string -> float.
Context {caseMapping : CaseMapping}.

(** C2, as the code has it. With distinct service names in the current window
    and non-negative amounts, the grand total is the float sum of the fetched
    amounts in the order of the fetch; the service list carries the same
    amounts rearranged (and a zero for each service of the previous window
    only); each of the six categories has the float sum, in list order, of the
    amounts of the services classified into it, and every service is in one
    category. The three sums therefore add the same numbers and are equal as
    exact sums; as binary64 sums taken in different orders they agree up to
    rounding only. *)
Theorem total_and_category_sums_add_the_same_amounts
  (cur prev : GetCostAndUsageResponse) (start_ end_ : string) (r : CostResult) :
  aggregate Number cur prev start_ end_ = Ok r ->
  NoDup (List.map fst (windowEntries Number cur)) ->
  Forall nonNegative (List.map snd (windowEntries Number cur)) ->
  total r = fsum (List.map snd (windowEntries Number cur)) /\
  (exists n,
     Permutation (List.map Cost.amount (costs r))
       (List.map (fun a => orZero (Some a)) (List.map snd (windowEntries Number cur))
        ++ repeat 0 n)) /\
  Forall (fun a => (orZero (Some a) =? a) = true) (List.map snd (windowEntries Number cur)) /\
  List.map fst (categories r) = categoryNames /\
  (forall k c, In (k, c) (categories r) ->
     Cat.current c = fsum (List.map Cost.amount (filter (inCategory k) (costs r)))) /\
  exactSum (List.map snd (windowEntries Number cur)) = exactSum (List.map Cost.amount (costs r)) /\
  exactSum (List.map Cost.amount (costs r)) = exactSumByCategory categoryNames (costs r).
Proof.
  intros H N P.
  pose proof (AggFacts.categories_sums Number _ _ _ _ _ H) as [K S].
  apply AggFacts.aggregate_inv in H.
  destruct H as (t & cm & pt & pm & cats & H1 & _ & _ & E).
  destruct (AggFacts.processWindow_entries Number _ _ _ H1) as (_ & T1 & M1 & _).
  assert (Q : exists n,
     Permutation (List.map Cost.amount (costs r))
       (List.map (fun a => orZero (Some a)) (List.map snd (windowEntries Number cur))
        ++ repeat 0 n)).
  { destruct (AggFacts.unsortedCosts_amounts (windowEntries Number cur) pm N) as [n En].
    exists n. rewrite <- En, <- M1, E. cbn [costs].
    apply Permutation_map. apply ListFacts.sort_perm. }
  split; [ rewrite E; exact T1 | ].
  split; [ exact Q | ].
  split; [ | split; [ exact K | split; [ intros k c Hin; exact (proj1 (S k c Hin)) | split ] ] ].
  - apply Forall_forall. intros a Ha. rewrite Forall_forall in P.
    exact (proj1 (FloatFacts.orZero_nonneg a (P a Ha))).
  - destruct Q as [n Q]. rewrite (AggFacts.exactSum_perm _ _ Q).
    rewrite AggFacts.exactSum_app, AggFacts.exactSum_orZero, AggFacts.exactSum_zeros. lia.
  - symmetry. apply AggFacts.exactSum_partition.
Qed.

End SumClaim.

(** C2, as the claim states it, fails: for 0.1, 0.2 and 0.3 the grand total,
    added in the order of the fetch, is 0.6000000000000001, while the amounts
    of the sorted service list and the six categories add up to 0.6. *)
Lemma rounding_separates_total_from_category_sum :
  aggregate Sample.Number Sample.tenths (Sample.response []) "2025-04-19" "2025-04-20"
    = Ok Sample.tenthsReport /\
  windowEntries Sample.Number Sample.tenths
    = [ ("Service A", 0.1); ("Service B", 0.2); ("Service C", 0.3) ] /\
  total Sample.tenthsReport = 0.6000000000000001 /\
  fsum (List.map Cost.amount (costs Sample.tenthsReport)) = 0.6 /\
  fsum (List.map (fun entry => Cat.current (snd entry)) (categories Sample.tenthsReport)) = 0.6 /\
  (total Sample.tenthsReport
     =? fsum (List.map (fun entry => Cat.current (snd entry)) (categories Sample.tenthsReport)))
    = false.
Proof. repeat split; vm_compute; reflexivity. Qed.

(** The sample windows: the exact sums of the fetched amounts, of the service
    list and of the categories coincide. *)
Lemma total_and_category_sums_add_the_same_amounts_witness :
  aggregate Sample.Number Sample.current Sample.previous "2025-04-19" "2025-04-20"
    = Ok Sample.report /\
  total Sample.report = 21.7158 + 2.10 + 0 + 1.5 /\
  exactSum (List.map snd (windowEntries Sample.Number Sample.current))
    = exactSum (List.map Cost.amount (costs Sample.report)) /\
  exactSum (List.map Cost.amount (costs Sample.report))
    = exactSumByCategory categoryNames (costs Sample.report).
Proof.
  split; [ vm_compute; reflexivity | ].
  split; [ vm_compute; reflexivity | ].
  pose proof (total_and_category_sums_add_the_same_amounts Sample.Number Sample.current
                Sample.previous "2025-04-19" "2025-04-20" Sample.report) as H.
  destruct H as (_ & _ & _ & _ & _ & H1 & H2).
  - vm_compute. reflexivity.
  - vm_compute. repeat (constructor; [ cbn; intuition discriminate | ]). constructor.
  - vm_compute. repeat constructor.
  - split; assumption.
Defined.

Section ReportClaims.

Context {caseMapping : CaseMapping}.
Variable toFixedFinite : float -> nat -> string.
Variable Date : Type.
Variable format : Date -> string -> string.

Lemma notableLines (l : list Cost.t) :
  Forall (fun cost => isNotable cost = true) l ->
  exists lines,
    mapM (notableLine toFixedFinite) l = Ok lines /\
    Forall2 (fun cost line =>
               exists p, Cost.changePercentage cost = Some p /\ line = notableText toFixedFinite cost p)
            l lines.
Proof.
  induction l as [ | cost l IH ]; intros H.
  - exists []. split; [ reflexivity | constructor ].
  - inversion H as [ | ? ? Hc Hl ]; subst. destruct (IH Hl) as (lines & E & F).
    unfold isNotable in Hc.
    destruct (Cost.changePercentage cost) as [p | ] eqn:Ep; [ | discriminate ].
    exists (notableText toFixedFinite cost p :: lines). split.
    + cbn [mapM]. unfold notableLine at 1. rewrite Ep. cbn. rewrite E. reflexivity.
    + constructor; [ exists p; auto | exact F ].
Qed.

(** C6. The notable-changes section lists exactly the services whose change
    exceeds 10 in absolute value and whose current amount exceeds 0.01: one
    line for each, in the order of the service list, placed between the head
    and the fixed tail of the issue body. A service with change 500 and amount
    0.001 is left out; one with change 15 (or -15) and amount 5.00 is listed. *)
Theorem notable_changes_need_both_conditions (r : CostResult) :
  (forall cost,
     In cost (notableChanges r) <->
     In cost (costs r) /\
     exists p, Cost.changePercentage cost = Some p /\
               (10 <? PrimFloat.abs p) = true /\ (0.01 <? Cost.amount cost) = true) /\
  (exists lines,
     notableSection toFixedFinite r = Ok (join nl lines) /\
     Forall2 (fun cost line =>
                exists p, Cost.changePercentage cost = Some p /\ line = notableText toFixedFinite cost p)
             (notableChanges r) lines) /\
  (forall today text,
     issueBody toFixedFinite Date format r today = Ok text ->
     exists detailText notableText,
       notableSection toFixedFinite r = Ok notableText /\
       text = template [ bodyHead toFixedFinite Date format r today
                           (categorySection toFixedFinite r) detailText;
                         notableText; bodyTail ]) /\
  (forall name unit_ previous,
     isNotable (Cost.mk name 0.001 unit_ previous (Some 500)) = false /\
     isNotable (Cost.mk name 5.00 unit_ previous (Some 15)) = true /\
     isNotable (Cost.mk name 5.00 unit_ previous (Some (-15))) = true).
Proof.
  split; [ | split; [ | split ] ].
  - intros cost. unfold notableChanges. rewrite filter_In. unfold isNotable.
    split.
    + intros [Hin H]. split; [ exact Hin | ].
      destruct (Cost.changePercentage cost) as [p | ]; [ | discriminate ].
      apply andb_true_iff in H. exists p. tauto.
    + intros [Hin (p & -> & H1 & H2)]. split; [ exact Hin | ].
      rewrite H1, H2. reflexivity.
  - destruct (notableLines (notableChanges r)) as (lines & E & F).
    { unfold notableChanges. apply Forall_forall. intros cost Hc.
      apply filter_In in Hc. tauto. }
    exists lines. split; [ | exact F ].
    unfold notableSection. rewrite E. reflexivity.
  - intros today text. unfold issueBody.
    destruct (detailSection toFixedFinite r) as [detailText | e]; cbn; [ | discriminate ].
    destruct (notableSection toFixedFinite r) as [notableText | e]; cbn; [ | discriminate ].
    intros [= <-]. exists detailText, notableText. auto.
  - intros name unit_ previous. repeat split; vm_compute; reflexivity.
Qed.

End ReportClaims.

(** * Further properties of the program *)

Module MoreFacts.

Lemma ltb_trans (a b c : float) :
  (a <? b) = true -> (b <? c) = true -> (a <? c) = true.
Proof.
  intros Hab Hbc.
  destruct (FloatFacts.compared a b) as [ | ? ? K1 | | ]; try FloatFacts.clash.
  destruct (FloatFacts.compared b c) as [ | ? ? K2 | | ]; try FloatFacts.clash.
  destruct (FloatFacts.compared a c) as [ | | ? ? K3 | ? ? K3 ];
    try FloatFacts.clash; try assumption; exfalso.
  - rewrite K3 in K1. exact (FloatFacts.lexLt_irrefl _ (FloatFacts.lexLt_trans _ _ _ K2 K1)).
  - exact (FloatFacts.lexLt_irrefl _
             (FloatFacts.lexLt_trans _ _ _ (FloatFacts.lexLt_trans _ _ _ K1 K2) K3)).
Qed.

Lemma add_nan_l (a b : float) : is_nan a = true -> is_nan (a + b) = true.
Proof.
  rewrite !FloatFacts.is_nan_spec, add_spec. unfold SF64add.
  destruct (Prim2SF a); try discriminate. reflexivity.
Qed.

Lemma add_nan_r (a b : float) : is_nan b = true -> is_nan (a + b) = true.
Proof.
  rewrite !FloatFacts.is_nan_spec, add_spec. unfold SF64add.
  destruct (Prim2SF b); try discriminate. destruct (Prim2SF a); reflexivity.
Qed.

Lemma fold_add_nan (l : list float) : forall acc,
  is_nan acc = true \/ Exists (fun x => is_nan x = true) l ->
  is_nan (fold_left PrimFloat.add l acc) = true.
Proof.
  induction l as [ | x l IH ]; intros acc H; cbn [fold_left].
  - destruct H as [H | H]; [ exact H | inversion H ].
  - apply IH. destruct H as [H | H].
    + left. apply add_nan_l. exact H.
    + inversion H as [ ? ? Hx | ? ? Hl ]; subst.
      * left. apply add_nan_r. exact Hx.
      * right. exact Hl.
Qed.

Lemma orZero_idempotent (x : option float) : orZero (Some (orZero x)) = orZero x.
Proof.
  destruct x as [v | ]; cbn; [ | reflexivity ].
  destruct (truthy v) eqn:E; [ rewrite E | ]; reflexivity.
Qed.

Section WithNumber.
Variable Number : string -> float.
Context {caseMapping : CaseMapping}.

Lemma groupAmount_cases (g : Group) :
  if lacksMetric g
  then groupAmount Number g =
       Throw (TypeError "Cannot read properties of undefined (reading 'Amount')")
  else exists a, groupAmount Number g = Ok a.
Proof.
  unfold lacksMetric, groupAmount.
  destruct (Metrics g) as [metrics | ]; [ | eauto ].
  destruct (prop metrics "UnblendedCost") as [m | ]; [ | reflexivity ].
  destruct (Amount m) as [a | ]; [ destruct (String.eqb a "") | ]; eauto.
Qed.

Lemma fetched_throw_iff (groups : list Group) :
  (existsb lacksMetric groups = true ->
   fetched Number groups =
   Throw (TypeError "Cannot read properties of undefined (reading 'Amount')")) /\
  (existsb lacksMetric groups = false -> exists entries, fetched Number groups = Ok entries).
Proof.
  unfold fetched. induction groups as [ | g groups [IH1 IH2] ]; cbn [existsb mapM].
  - split; [ discriminate | intros _; eexists; reflexivity ].
  - pose proof (groupAmount_cases g) as Hg.
    destruct (lacksMetric g); cbn [orb].
    + rewrite Hg. split; [ reflexivity | discriminate ].
    + destruct Hg as [a ->]. cbn [bind].
      split; [ intros H; rewrite (IH1 H); reflexivity
             | intros H; destruct (IH2 H) as [entries ->]; cbn; eauto ].
Qed.

End WithNumber.

End MoreFacts.

Section FurtherAggregation.

Variable Number : string -> float.
Context {caseMapping : CaseMapping}.

(** X1. The aggregation throws exactly when reading a window throws, the
    current window first, and with that error; when both windows are read it
    returns a result: the lookup of a service's category never fails. *)
Theorem aggregate_fails_only_on_window_read
  (cur prev : GetCostAndUsageResponse) (start_ end_ : string) :
  match processWindow Number cur, processWindow Number prev with
  | Throw e, _ => aggregate Number cur prev start_ end_ = Throw e
  | Ok _, Throw e => aggregate Number cur prev start_ end_ = Throw e
  | Ok (t, _), Ok (pt, _) =>
      exists r, aggregate Number cur prev start_ end_ = Ok r /\
                total r = t /\ previousTotal r = pt /\
                startDate r = start_ /\ endDate r = end_
  end.
Proof.
  destruct (processWindow Number cur) as [[t cm] | e] eqn:H1.
  - destruct (processWindow Number prev) as [[pt pm] | e] eqn:H2.
    + destruct (AggFacts.aggregate_ok Number cur prev start_ end_ _ _ _ _ H1 H2) as [r Hr].
      exists r. split; [ exact Hr | ].
      apply AggFacts.aggregate_inv in Hr.
      destruct Hr as (t' & cm' & pt' & pm' & cats & E1 & E2 & _ & ->).
      rewrite H1 in E1. rewrite H2 in E2. injection E1 as <- <-. injection E2 as <- <-.
      cbn. auto.
    + unfold aggregate. rewrite H1, H2. reflexivity.
  - unfold aggregate. rewrite H1. reflexivity.
Qed.

(** X2. A window whose first result has groups is read without error exactly
    when no group has a [Metrics] object without [UnblendedCost]: such a group
    throws a [TypeError] (the optional chain guards [Metrics] only), while a
    group without [Metrics], without [Amount] or with an empty [Amount] counts
    as 0. *)
Theorem window_read_throws_iff_metric_missing
  (response : GetCostAndUsageResponse) (first : ResultByTime) (rest : list ResultByTime)
  (groups : list Group) :
  ResultsByTime response = Some (first :: rest) ->
  Groups first = Some groups ->
  (existsb lacksMetric groups = true ->
   processWindow Number response =
   Throw (TypeError "Cannot read properties of undefined (reading 'Amount')")) /\
  (existsb lacksMetric groups = false ->
   exists entries,
     fetched Number groups = Ok entries /\
     processWindow Number response = Ok (fsum (List.map snd entries), buildMap entries [])) /\
  (forall group,
     Metrics group = None \/
     (exists metrics unit_,
        Metrics group = Some metrics /\
        (prop metrics "UnblendedCost" = Some {| Amount := None; Unit := unit_ |} \/
         prop metrics "UnblendedCost" = Some {| Amount := Some ""; Unit := unit_ |})) ->
     groupAmount Number group = Ok 0).
Proof.
  intros E G. unfold processWindow. rewrite E, G.
  destruct (MoreFacts.fetched_throw_iff Number groups) as [H1 H2].
  split; [ | split ].
  - intros H. apply AggFacts.processGroups_throw. exact (H1 H).
  - intros H. destruct (H2 H) as [entries He]. exists entries.
    split; [ exact He | ]. exact (AggFacts.processGroups_fetched Number _ _ _ _ He).
  - intros group [M | (metrics & unit_ & M & [A | A])];
      unfold groupAmount; rewrite M; try rewrite A; reflexivity.
Qed.

(** X3. Every service record of a result has the unit USD, an amount and a
    previous amount that are numbers (never NaN, whatever was fetched), and a
    change percentage; the records have distinct names. *)
Theorem services_are_well_formed
  (cur prev : GetCostAndUsageResponse) (start_ end_ : string) (r : CostResult) :
  aggregate Number cur prev start_ end_ = Ok r ->
  NoDup (List.map Cost.serviceName (costs r)) /\
  Forall (fun cost =>
            Cost.unit cost = "USD" /\
            is_nan (Cost.amount cost) = false /\
            (exists p, Cost.previousAmount cost = Some p /\ is_nan p = false) /\
            (exists c, Cost.changePercentage cost = Some c)) (costs r).
Proof.
  intros H. apply AggFacts.aggregate_inv in H.
  destruct H as (t & cm & pt & pm & cats & _ & _ & _ & ->). cbn [costs].
  pose proof (ListFacts.sort_perm byAmountDesc (unsortedCosts cm pm)) as P.
  split.
  - apply (Permutation_NoDup (Permutation_map Cost.serviceName (Permutation_sym P))).
    rewrite AggFacts.unsortedCosts_names. apply ListFacts.Set_of_NoDup.
  - apply (Permutation_Forall (Permutation_sym P)).
    unfold unsortedCosts. apply Forall_map. apply Forall_forall. intros name _. cbn.
    split; [ reflexivity | split; [ apply FloatFacts.orZero_not_nan | split ] ].
    + eexists. split; [ reflexivity | apply FloatFacts.orZero_not_nan ].
    + eauto.
Qed.

(** X4. An amount that does not read as a number makes the grand total NaN,
    while the service it belongs to is listed with a number: the total and the
    service list then disagree. *)
Theorem unread_amount_makes_total_nan
  (cur prev : GetCostAndUsageResponse) (start_ end_ : string) (r : CostResult) :
  aggregate Number cur prev start_ end_ = Ok r ->
  Exists (fun entry => is_nan (snd entry) = true) (windowEntries Number cur) ->
  is_nan (total r) = true /\
  Forall (fun cost => is_nan (Cost.amount cost) = false) (costs r).
Proof.
  intros H X. split.
  - apply AggFacts.aggregate_inv in H.
    destruct H as (t & cm & pt & pm & cats & H1 & _ & _ & ->). cbn [total].
    destruct (AggFacts.processWindow_entries Number _ _ _ H1) as (_ & -> & _).
    apply MoreFacts.fold_add_nan. right. apply Exists_exists in X.
    destruct X as (entry & Hin & Hn). apply Exists_exists.
    exists (snd entry). split; [ apply in_map; exact Hin | exact Hn ].
  - apply AggFacts.aggregate_inv in H.
    destruct H as (t & cm & pt & pm & cats & _ & _ & _ & ->). cbn [costs].
    apply (Permutation_Forall (Permutation_sym (ListFacts.sort_perm byAmountDesc _))).
    apply AggFacts.unsortedCosts_not_nan.
Qed.

End FurtherAggregation.

(** A metric under another name throws; a group without metrics counts as 0. *)
Lemma window_read_throws_iff_metric_missing_witness :
  existsb lacksMetric [Sample.group "Tax" "1"; More.blended] = true /\
  processWindow Sample.Number (Sample.response [Sample.group "Tax" "1"; More.blended])
    = Throw (TypeError "Cannot read properties of undefined (reading 'Amount')").
Proof.
  split; [ reflexivity | ].
  apply (window_read_throws_iff_metric_missing Sample.Number
           (Sample.response [Sample.group "Tax" "1"; More.blended])
           {| Groups := Some [Sample.group "Tax" "1"; More.blended] |} []
           [Sample.group "Tax" "1"; More.blended]); reflexivity.
Defined.

(** The sample windows: five records, all in USD. *)
Lemma services_are_well_formed_witness :
  aggregate Sample.Number Sample.current Sample.previous "2025-04-19" "2025-04-20"
    = Ok Sample.report /\
  List.map Cost.unit (costs Sample.report) = ["USD"; "USD"; "USD"; "USD"; "USD"] /\
  NoDup (List.map Cost.serviceName (costs Sample.report)).
Proof.
  split; [ vm_compute; reflexivity | ].
  split; [ vm_compute; reflexivity | ].
  apply (services_are_well_formed Sample.Number Sample.current Sample.previous
           "2025-04-19" "2025-04-20" Sample.report).
  vm_compute. reflexivity.
Defined.

(** An amount of n/a: the total is NaN, the services are listed at 3 and 0. *)
Lemma unread_amount_makes_total_nan_witness :
  aggregate Sample.Number More.garbled (Sample.response []) "2025-04-19" "2025-04-20"
    = Ok More.garbledReport /\
  List.map (fun cost => (Cost.serviceName cost, Cost.amount cost)) (costs More.garbledReport)
    = [ ("Amazon EC2", 3); ("AWS Lambda", 0) ] /\
  is_nan (total More.garbledReport) = true.
Proof.
  split; [ vm_compute; reflexivity | ].
  split; [ vm_compute; reflexivity | ].
  apply (unread_amount_makes_total_nan Sample.Number More.garbled (Sample.response [])
           "2025-04-19" "2025-04-20" More.garbledReport).
  - vm_compute. reflexivity.
  - vm_compute. apply Exists_cons_tl. apply Exists_cons_hd. reflexivity.
Defined.

Module PreviousFacts.

Section Classified.

Context {caseMapping : CaseMapping}.

Lemma exactSumOf_filter_cons (value : Cost.t -> float) (k : string) (x : Cost.t)
  (l : list Cost.t) :
  exactSum (List.map value (filter (inCategory k) (x :: l))) =
  ((if String.eqb (categoryOf (Cost.serviceName x)) k then exactValue (value x) else 0)
   + exactSum (List.map value (filter (inCategory k) l)))%Z.
Proof.
  cbn [filter]. unfold inCategory at 1.
  destruct (String.eqb (categoryOf (Cost.serviceName x)) k); reflexivity.
Qed.

Lemma exactSumOf_partition (value : Cost.t -> float) (l : list Cost.t) :
  exactSumByCategoryOf value categoryNames l = exactSum (List.map value l).
Proof.
  unfold exactSumByCategoryOf, categoryNames.
  induction l as [ | x l IH ]; [ reflexivity | ].
  cbn [List.map fold_right] in IH |- *. rewrite !exactSumOf_filter_cons.
  change (exactSum (value x :: List.map value l))
    with (exactValue (value x) + exactSum (List.map value l))%Z.
  rewrite <- IH.
  pose proof (StringFacts.categoryOf_in (Cost.serviceName x)) as Hin.
  cbn in Hin.
  destruct Hin as [<- | [<- | [<- | [<- | [<- | [<- | []]]]]]];
    repeat match goal with
    | |- context [ String.eqb ?a ?b ] =>
        let v := eval vm_compute in (String.eqb a b) in
        change (String.eqb a b) with v
    end; cbv iota; lia.
Qed.

(** The set of all services, seen from the previous window: its names, and
    the names of the current window only. *)
Lemma allServices_from_previous (currentNames previousNames : list string) :
  NoDup previousNames ->
  exists extra,
    Permutation (Set_of (currentNames ++ previousNames)) (previousNames ++ extra) /\
    (forall x, In x extra -> ~ In x previousNames).
Proof.
  intros N.
  set (all := Set_of (currentNames ++ previousNames)).
  set (extra := filter (fun x => negb (existsb (String.eqb x) previousNames)) all).
  assert (X : forall x, In x extra <-> In x all /\ ~ In x previousNames).
  { intros x. unfold extra. rewrite filter_In, negb_true_iff, ListFacts.existsb_eqb_notIn.
    reflexivity. }
  exists extra. split; [ | intros x Hx; apply X in Hx; tauto ].
  apply NoDup_Permutation.
  - apply ListFacts.Set_of_NoDup.
  - apply NoDup_app; [ exact N | | ].
    + apply NoDup_filter. apply ListFacts.Set_of_NoDup.
    + intros x Hp Hx. apply X in Hx. tauto.
  - intros x. rewrite in_app_iff, X. unfold all. rewrite ListFacts.Set_of_In, in_app_iff.
    destruct (in_dec string_dec x previousNames); tauto.
Qed.

Lemma unsortedCosts_previous (cm : Map) (entries : list (string * float)) :
  NoDup (List.map fst entries) ->
  exists n,
    Permutation (List.map previousOf (unsortedCosts cm (buildMap entries [])))
      (List.map (fun a => orZero (Some a)) (List.map snd entries) ++ repeat 0 n).
Proof.
  intros N. rewrite (ListFacts.buildMap_NoDup entries []) by exact N. cbn [app].
  unfold unsortedCosts.
  destruct (allServices_from_previous (Map_keys cm) (Map_keys entries) N) as (extra & P & X).
  exists (List.length extra). rewrite map_map.
  rewrite (Permutation_map _ P), map_app.
  apply Permutation_app.
  - unfold Map_keys. rewrite !map_map.
    erewrite map_ext_in; [ reflexivity | ].
    intros [k v] Hin. unfold previousOf. cbn.
    rewrite AggFacts.Map_get_prop, (proj2 (AggFacts.prop_In entries k v N) Hin).
    apply MoreFacts.orZero_idempotent.
  - rewrite (AggFacts.map_const_repeat _ 0 extra); [ reflexivity | ].
    apply Forall_forall. intros name Hn. unfold previousOf. cbn.
    rewrite (ListFacts.Map_get_None entries name) by (apply X; exact Hn). reflexivity.
Qed.

Lemma above_cent_nonzero (a : float) : (0.01 <? a) = true -> (a =? 0) = false.
Proof.
  intros H. apply (FloatFacts.eqb_ltb_other 0 a 0 eq_refl).
  exact (MoreFacts.ltb_trans 0 0.01 a eq_refl H).
Qed.

Lemma lastWrite_absent (name : string) (entries : list (string * float)) :
  ~ In name (List.map fst entries) -> lastWrite name entries = None.
Proof.
  intros H. rewrite <- AggFacts.lastWrite_get. apply ListFacts.Map_get_None.
  rewrite AggFacts.buildMap_keys, ListFacts.Set_of_In. exact H.
Qed.

End Classified.

End PreviousFacts.

Section FurtherSums.

Variable Number : string -> float.
Context {caseMapping : CaseMapping}.

(** X5. The previous window is kept the way the current one is: with distinct
    service names in the previous window, the previous total is the float sum
    of its fetched amounts in fetch order, the previous amounts of the service
    list are those amounts rearranged (and a zero for each service of the
    current window only), each category's previous is the float sum of its
    services' previous amounts in list order, and the exact sums coincide. *)
Theorem previous_total_and_category_sums
  (cur prev : GetCostAndUsageResponse) (start_ end_ : string) (r : CostResult) :
  aggregate Number cur prev start_ end_ = Ok r ->
  NoDup (List.map fst (windowEntries Number prev)) ->
  previousTotal r = fsum (List.map snd (windowEntries Number prev)) /\
  (exists n,
     Permutation (List.map previousOf (costs r))
       (List.map (fun a => orZero (Some a)) (List.map snd (windowEntries Number prev))
        ++ repeat 0 n)) /\
  (forall k c, In (k, c) (categories r) ->
     Cat.previous c = fsum (List.map previousOf (filter (inCategory k) (costs r)))) /\
  exactSum (List.map snd (windowEntries Number prev))
    = exactSum (List.map previousOf (costs r)) /\
  exactSum (List.map previousOf (costs r))
    = exactSumByCategoryOf previousOf categoryNames (costs r).
Proof.
  intros H N.
  pose proof (AggFacts.categories_sums Number _ _ _ _ _ H) as [_ S].
  apply AggFacts.aggregate_inv in H.
  destruct H as (t & cm & pt & pm & cats & _ & H2 & _ & E).
  destruct (AggFacts.processWindow_entries Number _ _ _ H2) as (_ & T2 & M2 & _).
  assert (Q : exists n,
     Permutation (List.map previousOf (costs r))
       (List.map (fun a => orZero (Some a)) (List.map snd (windowEntries Number prev))
        ++ repeat 0 n)).
  { destruct (PreviousFacts.unsortedCosts_previous cm (windowEntries Number prev) N)
      as [n Pn].
    exists n. rewrite <- Pn, <- M2, E. cbn [costs].
    apply Permutation_map. apply ListFacts.sort_perm. }
  split; [ rewrite E; exact T2 | ].
  split; [ exact Q | ].
  split; [ intros k c Hin; exact (proj2 (S k c Hin)) | split ].
  - destruct Q as [n Q]. rewrite (AggFacts.exactSum_perm _ _ Q).
    rewrite AggFacts.exactSum_app, AggFacts.exactSum_orZero, AggFacts.exactSum_zeros. lia.
  - symmetry. apply PreviousFacts.exactSumOf_partition.
Qed.

(** X6. A service that only one window has: without a group today its amount
    is 0 and it is never among the notable changes, whatever it cost the day
    before; without a group the day before its previous amount is 0, its
    change is 100, or 0 when today's amount is 0 as well, and it is among the
    notable changes exactly when today's amount is above 0.01. *)
Theorem service_of_one_window
  (cur prev : GetCostAndUsageResponse) (start_ end_ : string) (r : CostResult)
  (cost : Cost.t) :
  aggregate Number cur prev start_ end_ = Ok r ->
  In cost (costs r) ->
  (~ In (Cost.serviceName cost) (List.map fst (windowEntries Number cur)) ->
   Cost.amount cost = 0 /\ isNotable cost = false) /\
  (~ In (Cost.serviceName cost) (List.map fst (windowEntries Number prev)) ->
   Cost.previousAmount cost = Some 0 /\
   Cost.changePercentage cost = Some (if Cost.amount cost =? 0 then 0 else 100) /\
   isNotable cost = (0.01 <? Cost.amount cost)).
Proof.
  intros H Hc. apply AggFacts.aggregate_inv in H.
  destruct H as (t & cm & pt & pm & cats & H1 & H2 & _ & ->). cbn [costs] in Hc.
  destruct (AggFacts.processWindow_entries Number _ _ _ H1) as (_ & _ & M1 & _).
  destruct (AggFacts.processWindow_entries Number _ _ _ H2) as (_ & _ & M2 & _).
  apply (Permutation_in _ (ListFacts.sort_perm byAmountDesc _)) in Hc.
  unfold unsortedCosts in Hc. apply in_map_iff in Hc. destruct Hc as (name & <- & _).
  unfold isNotable.
  cbn [serviceCost Cost.serviceName Cost.amount Cost.previousAmount Cost.changePercentage].
  rewrite M1, M2, !AggFacts.lastWrite_get.
  split.
  - intros Hn. rewrite (PreviousFacts.lastWrite_absent _ _ Hn).
    split; [ reflexivity | ]. cbn [orZero]. apply andb_false_r.
  - intros Hn. rewrite (PreviousFacts.lastWrite_absent _ _ Hn).
    split; [ reflexivity | split; [ reflexivity | ] ].
    destruct (0.01 <? orZero (lastWrite name (windowEntries Number cur))) eqn:E.
    + unfold changePercentageOf. change (orZero None =? 0) with true. cbv iota.
      rewrite (PreviousFacts.above_cent_nonzero _ E). reflexivity.
    + apply andb_false_r.
Qed.

End FurtherSums.

(** The sample windows: the exact sums of the previous side coincide. *)
Lemma previous_total_and_category_sums_witness :
  aggregate Sample.Number Sample.current Sample.previous "2025-04-19" "2025-04-20"
    = Ok Sample.report /\
  previousTotal Sample.report = 21.2345 + 2.00 + 0 + 0.50 /\
  exactSum (List.map snd (windowEntries Sample.Number Sample.previous))
    = exactSum (List.map previousOf (costs Sample.report)) /\
  exactSum (List.map previousOf (costs Sample.report))
    = exactSumByCategoryOf previousOf categoryNames (costs Sample.report).
Proof.
  split; [ vm_compute; reflexivity | ].
  split; [ vm_compute; reflexivity | ].
  pose proof (previous_total_and_category_sums Sample.Number Sample.current
                Sample.previous "2025-04-19" "2025-04-20" Sample.report) as H.
  destruct H as (_ & _ & _ & H1 & H2).
  - vm_compute. reflexivity.
  - vm_compute. repeat (constructor; [ cbn; intuition discriminate | ]). constructor.
  - split; assumption.
Defined.

(** Route 53 was billed the day before only: it is listed at 0 today and is
    not notable. *)
Lemma service_of_one_window_witness :
  aggregate Sample.Number Sample.current Sample.previous "2025-04-19" "2025-04-20"
    = Ok Sample.report /\
  In (Cost.mk "Amazon Route 53" 0 "USD" (Some 0.50) (Some ((0 - 0.50) / 0.50 * 100)))
     (costs Sample.report) /\
  isNotable (Cost.mk "Amazon Route 53" 0 "USD" (Some 0.50) (Some ((0 - 0.50) / 0.50 * 100)))
    = false.
Proof.
  split; [ vm_compute; reflexivity | ].
  assert (Hin : In (Cost.mk "Amazon Route 53" 0 "USD" (Some 0.50)
                      (Some ((0 - 0.50) / 0.50 * 100))) (costs Sample.report)).
  { vm_compute. do 4 right. left. reflexivity. }
  split; [ exact Hin | ].
  pose proof (service_of_one_window Sample.Number (caseMapping := Sample.asciiCase)
                Sample.current Sample.previous
                "2025-04-19" "2025-04-20" Sample.report _ ltac:(vm_compute; reflexivity) Hin)
    as [H _].
  apply H. vm_compute. intuition discriminate.
Defined.

Section FurtherReport.

(** X7. Every service among the notable changes is also in the per-service
    detail of the issue body: an amount above 0.01 is above 0. The notable
    services are the notable ones of the detail list, in its order. *)
Theorem notable_services_are_detailed (r : CostResult) :
  (forall cost, isNotable cost = true -> hasCost cost = true) /\
  notableChanges r = filter isNotable (filter hasCost (costs r)).
Proof.
  assert (H : forall cost, isNotable cost = true -> hasCost cost = true).
  { intros cost Hn. unfold isNotable in Hn. apply andb_true_iff in Hn. destruct Hn as [_ Hn].
    unfold hasCost. rewrite (MoreFacts.ltb_trans 0 0.01 _ eq_refl Hn). reflexivity. }
  split; [ exact H | ].
  unfold notableChanges. induction (costs r) as [ | x l IH ]; cbn [filter]; [ reflexivity | ].
  destruct (isNotable x) eqn:E.
  - rewrite (H x E). cbn [filter]. rewrite E, IH. reflexivity.
  - destruct (hasCost x); cbn [filter]; rewrite ?E; exact IH.
Qed.

End FurtherReport.

Module SortByKey.

Section ByKey.

Context {A : Type}.
Variable key : A -> float.

Lemma after (x y : A) : (0 <? key y - key x) = (key x <? key y).
Proof. apply FloatFacts.sub_pos_iff_lt. Qed.

Lemma HdRel_insert_by_key (y x : A) (l : list A) :
  (key x <=? key y) = true ->
  HdRel (fun a b => (key b <=? key a) = true) y l ->
  HdRel (fun a b => (key b <=? key a) = true) y
    (sort_insert (fun a b => key b - key a) x l).
Proof.
  intros Hyx H. destruct l as [ | z l ]; cbn [sort_insert].
  - constructor. exact Hyx.
  - destruct (0 <? key z - key x).
    + inversion H; subst. constructor. assumption.
    + constructor. exact Hyx.
Qed.

Lemma insert_by_key_sorted (x : A) (l : list A) :
  is_nan (key x) = false ->
  Forall (fun a => is_nan (key a) = false) l ->
  Sorted (fun a b => (key b <=? key a) = true) l ->
  Sorted (fun a b => (key b <=? key a) = true) (sort_insert (fun a b => key b - key a) x l).
Proof.
  intros Nx Nl H. induction H as [ | y l Hl IH Hd ]; cbn [sort_insert].
  - repeat constructor.
  - inversion Nl as [ | ? ? Ny Nl' ]; subst.
    rewrite after. destruct (key x <? key y) eqn:E.
    + constructor; [ apply IH; exact Nl' | ].
      apply HdRel_insert_by_key; [ | exact Hd ].
      apply FloatFacts.ltb_leb. exact E.
    + constructor; [ constructor; assumption | ].
      constructor. apply FloatFacts.ltb_false_leb; assumption.
Qed.

Lemma sort_by_key_sorted (l : list A) :
  Forall (fun a => is_nan (key a) = false) l ->
  StronglySorted (fun a b => (key b <=? key a) = true) (sort (fun a b => key b - key a) l).
Proof.
  intros N. apply Sorted_StronglySorted.
  { intros a b c H1 H2. exact (FloatFacts.leb_trans _ _ _ H2 H1). }
  induction N as [ | x l Nx Nl IH ]; cbn [sort fold_right].
  - constructor.
  - apply insert_by_key_sorted; [ exact Nx | | exact IH ].
    apply (Permutation_Forall
             (Permutation_sym (ListFacts.sort_perm (fun a b => key b - key a) l))).
    exact Nl.
Qed.

Lemma sort_by_key_stable (v : float) (l : list A) :
  filter (fun a => key a =? v) (sort (fun a b => key b - key a) l)
  = filter (fun a => key a =? v) l.
Proof.
  apply ListFacts.sort_filter. intros x y Hx Hxy.
  rewrite after in Hxy. exact (FloatFacts.eqb_ltb_other _ _ _ Hx Hxy).
Qed.

End ByKey.

End SortByKey.

Section FurtherBreakdown.

Context {caseMapping : CaseMapping}.
Variable toFixedFinite : float -> nat -> string.

(** X12. When no category of a result has a current sum that is NaN, the
    category breakdown of the issue body is the texts of the categories,
    separated by an empty line, in an order that lists every category of the
    result once, with current sums that never increase from one category to a
    later one, and in which categories with equal current sums keep the order
    the result has them in. *)
Theorem category_breakdown_sorted_stable (r : CostResult) :
  Forall (fun entry => is_nan (currentOf entry) = false) (categories r) ->
  exists ordered,
    categorySection toFixedFinite r
      = join (nl ++ nl)%string (List.map (categoryText toFixedFinite r) ordered) /\
    Permutation ordered (categories r) /\
    StronglySorted largerFirst ordered /\
    (forall v,
       filter (fun entry => currentOf entry =? v) ordered
       = filter (fun entry => currentOf entry =? v) (categories r)).
Proof.
  intros N. exists (sort byCurrentDesc (categories r)).
  split; [ reflexivity | split; [ apply ListFacts.sort_perm | split ] ].
  - exact (SortByKey.sort_by_key_sorted currentOf (categories r) N).
  - intros v. exact (SortByKey.sort_by_key_stable currentOf v (categories r)).
Qed.

End FurtherBreakdown.

(** The sample report: the categories other and tax come first, and the four
    categories at 0 follow in the order of the result. *)
Lemma category_breakdown_sorted_stable_witness :
  List.map (fun entry => (fst entry, currentOf entry)) (categories Sample.report)
    = [ ("ec2", 0); ("security", 0); ("management", 0); ("storage", 0);
        ("other", 21.7158 + 2.10 + 0); ("tax", 1.5) ] /\
  exists ordered,
    categorySection Sample.toFixedFinite Sample.report
      = join (nl ++ nl)%string
          (List.map (categoryText Sample.toFixedFinite Sample.report) ordered) /\
    Permutation ordered (categories Sample.report) /\
    StronglySorted largerFirst ordered /\
    filter (fun entry => currentOf entry =? 0) ordered
      = filter (fun entry => currentOf entry =? 0) (categories Sample.report).
Proof.
  split; [ vm_compute; reflexivity | ].
  destruct (category_breakdown_sorted_stable (caseMapping := Sample.asciiCase)
              Sample.toFixedFinite Sample.report) as (ordered & H1 & H2 & H3 & H4).
  - vm_compute. repeat (constructor; [ reflexivity | ]). constructor.
  - exists ordered. split; [ exact H1 | split; [ exact H2 | split; [ exact H3 | apply H4 ] ] ].
Defined.

Module RunMoreFacts.

Lemma isSet_value (value : option string) :
  isSet value = true -> value = Some (orString value "").
Proof.
  destruct value as [v | ]; cbn; [ | discriminate ].
  destruct (String.eqb v ""); [ discriminate | reflexivity ].
Qed.

Section WithWorld.

Variable Date : Type.
Variable world : World Date.

Lemma firstMissing_None :
  firstMissing Date world = None ->
  isSet (env Date world "GITHUB_TOKEN") = true /\
  isSet (env Date world "GITHUB_OWNER") = true /\
  isSet (env Date world "GITHUB_REPO") = true.
Proof.
  unfold firstMissing.
  destruct (isSet (env Date world "GITHUB_TOKEN")); cbn; [ | discriminate ].
  destruct (isSet (env Date world "GITHUB_OWNER")); cbn; [ | discriminate ].
  destruct (isSet (env Date world "GITHUB_REPO")); cbn; [ | discriminate ].
  auto.
Qed.

End WithWorld.

End RunMoreFacts.

Section FurtherRuns.

Variable Number : string -> float.
Context {caseMapping : CaseMapping}.
Variable toFixedFinite : float -> nat -> string.
Variable Date : Type.
Variable subDays : Date -> Z -> Date.
Variable format : Date -> string -> string.
Variable world : World Date.

Local Abbreviation thisRun := (run Number toFixedFinite Date subDays format world).
Local Abbreviation current_ := (currentRequest Date subDays format world).
Local Abbreviation previous_ := (previousRequest Date subDays format world).

(** X8. A rejected provider call ends the run: the rejection goes to the
    error stream unchanged and the process exits with status 1, without a
    summary and without an issue. When the first call is rejected the second
    is not made. *)
Theorem provider_failure_ends_run (e : error) :
  (getCostAndUsage Date world 0 current_ = Throw e ->
   thisRun = [ CallGetCostAndUsage current_; ConsoleError e; ProcessExit 1 ]) /\
  (forall response,
     getCostAndUsage Date world 0 current_ = Ok response ->
     getCostAndUsage Date world 1 previous_ = Throw e ->
     thisRun = [ CallGetCostAndUsage current_; CallGetCostAndUsage previous_;
                 ConsoleError e; ProcessExit 1 ]).
Proof.
  split.
  - intros H. rewrite RunFacts.run_spec. unfold aggregation, fetchEvents.
    rewrite H. reflexivity.
  - intros response H1 H2. rewrite RunFacts.run_spec. unfold aggregation, fetchEvents.
    rewrite H1. cbn. rewrite H2. reflexivity.
Qed.

(** X9. With the three configuration values set, a run whose aggregation
    succeeds always has an issue body and sends one request: token, owner and
    repository are the values of the environment, the labels are cost,
    monitoring and daily-report, and the title carries the date of the third
    clock reading. When the tracker accepts the request, the run ends with
    it: nothing is written to the error stream and the process does not
    exit with a status. *)
Theorem accepted_issue_ends_run (r : CostResult) :
  aggregation Number Date subDays format world = Ok r ->
  firstMissing Date world = None ->
  exists text,
    issueBody toFixedFinite Date format r (clock Date world 1) = Ok text /\
    env Date world "GITHUB_TOKEN" = Some (auth (issueRequest Date format world text)) /\
    env Date world "GITHUB_OWNER" = Some (owner (issueRequest Date format world text)) /\
    env Date world "GITHUB_REPO" = Some (repo (issueRequest Date format world text)) /\
    labels (issueRequest Date format world text) = ["cost"; "monitoring"; "daily-report"] /\
    body (issueRequest Date format world text) = text /\
    title (issueRequest Date format world text)
      = (format (clock Date world 2) "yyyy年MM月dd日" ++ " AWSコスト分析レポート")%string /\
    (issues_create Date world (issueRequest Date format world text) = Ok tt ->
     thisRun = [ CallGetCostAndUsage current_; CallGetCostAndUsage previous_;
                 ConsoleLog (summaryDocument toFixedFinite r);
                 CallIssuesCreate (issueRequest Date format world text) ]).
Proof.
  intros Hr M.
  destruct (RunFacts.issueBody_ok toFixedFinite Date format r (clock Date world 1)
              (RunFacts.aggregation_changes_set Number Date subDays format world r Hr))
    as [text Ht].
  destruct (RunMoreFacts.firstMissing_None Date world M) as (S1 & S2 & S3).
  exists text. split; [ exact Ht | ].
  split; [ exact (RunMoreFacts.isSet_value _ S1) | ].
  split; [ exact (RunMoreFacts.isSet_value _ S2) | ].
  split; [ exact (RunMoreFacts.isSet_value _ S3) | ].
  split; [ reflexivity | split; [ reflexivity | split ] ].
  - reflexivity.
  - intros Hi. rewrite RunFacts.run_spec, Hr, (RunFacts.fetchEvents_two _ _ _ _ _ _ Hr).
    unfold publishEvents. rewrite M, Ht, Hi. reflexivity.
Qed.

(** X10. Every run, whatever the provider, the environment and the tracker
    do: it starts with the request for the current window; it makes at most
    two provider calls, prints at most one summary and creates at most one
    issue; and either it ends with one error on the error stream followed by
    the exit with status 1, with no error or exit before them, or it has no
    error and no exit and consists of the two provider calls, the summary and
    the issue. *)
Theorem run_invariants :
  (exists rest, thisRun = CallGetCostAndUsage current_ :: rest) /\
  (fetchCount thisRun <= 2)%nat /\
  (eventCount isLog thisRun <= 1)%nat /\
  (issueCount thisRun <= 1)%nat /\
  ((exists before e,
      thisRun = before ++ [ConsoleError e; ProcessExit 1] /\
      eventCount isError before = 0%nat /\ eventCount isExit before = 0%nat)
   \/
   (exists document request,
      thisRun = [ CallGetCostAndUsage current_; CallGetCostAndUsage previous_;
                  ConsoleLog document; CallIssuesCreate request ])).
Proof.
  rewrite RunFacts.run_spec.
  destruct (aggregation Number Date subDays format world) as [r | e] eqn:Hr.
  - rewrite (RunFacts.fetchEvents_two _ _ _ _ _ _ Hr). unfold publishEvents, failure.
    destruct (firstMissing Date world) as [key | ].
    { cbn. repeat split; eauto; try lia. left.
      exists [ CallGetCostAndUsage current_; CallGetCostAndUsage previous_;
               ConsoleLog (summaryDocument toFixedFinite r) ].
      eexists. repeat split. }
    destruct (issueBody toFixedFinite Date format r (clock Date world 1)) as [text | e].
    2:{ cbn. repeat split; eauto; try lia. left.
        exists [ CallGetCostAndUsage current_; CallGetCostAndUsage previous_;
                 ConsoleLog (summaryDocument toFixedFinite r) ].
        eexists. repeat split. }
    destruct (issues_create Date world _) as [u | e].
    + cbn. repeat split; eauto; try lia.
    + cbn. repeat split; eauto; try lia. left.
      exists [ CallGetCostAndUsage current_; CallGetCostAndUsage previous_;
               ConsoleLog (summaryDocument toFixedFinite r);
               CallIssuesCreate (issueRequest Date format world text) ].
      eexists. repeat split.
  - unfold fetchEvents, failure.
    destruct (getCostAndUsage Date world 0 current_) as [response | e'].
    + cbn. repeat split; eauto; try lia. left.
      exists [ CallGetCostAndUsage current_; CallGetCostAndUsage previous_ ].
      eexists. repeat split.
    + cbn. repeat split; eauto; try lia. left.
      exists [ CallGetCostAndUsage current_ ].
      eexists. repeat split.
Qed.

(** X11. The aggregator reads the clock once. When it returns a result it has
    made two requests, both daily, for the unblended cost, grouped by service;
    the previous window ends on the day the current one starts, and the
    period of the result is the current window. *)
Theorem windows_are_adjacent (r : CostResult) (s : State) :
  getCostsByService Number Date subDays format world initialState = (Ok r, s) ->
  exists current previous,
    trace s = [CallGetCostAndUsage current; CallGetCostAndUsage previous] /\
    clockReads s = 1%nat /\
    Req.End_ previous = Req.Start current /\
    startDate r = Req.Start current /\
    endDate r = Req.End_ current /\
    Forall (fun request =>
              Req.Granularity request = "DAILY" /\
              Req.Metrics request = ["UnblendedCost"] /\
              Req.GroupBy request = [("DIMENSION", "SERVICE")]) [current; previous].
Proof.
  rewrite RunFacts.getCostsByService_initial. intros [= Hr <-].
  exists current_, previous_. cbn [trace clockReads].
  split; [ exact (RunFacts.fetchEvents_two _ _ _ _ _ _ Hr) | ].
  split; [ reflexivity | split; [ reflexivity | ] ].
  unfold aggregation in Hr.
  destruct (getCostAndUsage Date world 0 _) as [cur | e]; cbn in Hr; [ | discriminate ].
  destruct (getCostAndUsage Date world 1 _) as [prev | e]; cbn in Hr; [ | discriminate ].
  apply AggFacts.aggregate_inv in Hr.
  destruct Hr as (t & cm & pt & pm & cats & _ & _ & _ & ->).
  split; [ reflexivity | split; [ reflexivity | ] ].
  repeat constructor.
Qed.

End FurtherRuns.

(** The provider refuses the first call: one call, the error, the exit. *)
Lemma provider_failure_ends_run_witness :
  getCostAndUsage Sample.Date More.providerDown 0
    (currentRequest Sample.Date Sample.subDays Sample.format More.providerDown)
    = Throw (Rejected "AccessDeniedException") /\
  Sample.runIn More.providerDown =
    [ CallGetCostAndUsage
        (currentRequest Sample.Date Sample.subDays Sample.format More.providerDown);
      ConsoleError (Rejected "AccessDeniedException"); ProcessExit 1 ].
Proof.
  split; [ reflexivity | ].
  apply (provider_failure_ends_run Sample.Number (caseMapping := Sample.asciiCase)
           Sample.toFixedFinite Sample.Date
           Sample.subDays Sample.format More.providerDown (Rejected "AccessDeniedException")).
  reflexivity.
Defined.

(** A run in which everything succeeds: four events, the last one the issue
    for octo/costs. *)
Lemma accepted_issue_ends_run_witness :
  aggregation Sample.Number Sample.Date Sample.subDays Sample.format More.allFine
    = Ok (Sample.reportIn More.allFine) /\
  firstMissing Sample.Date More.allFine = None /\
  exists text,
    issueBody Sample.toFixedFinite Sample.Date Sample.format (Sample.reportIn More.allFine)
      (clock Sample.Date More.allFine 1) = Ok text /\
    owner (issueRequest Sample.Date Sample.format More.allFine text) = "octo" /\
    repo (issueRequest Sample.Date Sample.format More.allFine text) = "costs" /\
    List.map Sample.eventName (Sample.runIn More.allFine)
      = [ "getCostAndUsage"; "getCostAndUsage"; "console.log"; "issues.create" ].
Proof.
  split; [ vm_compute; reflexivity | ].
  split; [ vm_compute; reflexivity | ].
  destruct (accepted_issue_ends_run Sample.Number Sample.toFixedFinite Sample.Date
              Sample.subDays Sample.format More.allFine (Sample.reportIn More.allFine))
    as (text & Ht & _ & _ & _ & _ & _ & _ & Hrun).
  - vm_compute. reflexivity.
  - vm_compute. reflexivity.
  - exists text. split; [ exact Ht | ].
    split; [ reflexivity | split; [ reflexivity | ] ].
    unfold Sample.runIn. rewrite (Hrun eq_refl). reflexivity.
Defined.

(** The sample run: the windows 19 to 20 April and 18 to 19 April 2025. *)
Lemma windows_are_adjacent_witness :
  exists r s current previous,
    getCostsByService Sample.Number Sample.Date Sample.subDays Sample.format More.allFine
      initialState = (Ok r, s) /\
    trace s = [CallGetCostAndUsage current; CallGetCostAndUsage previous] /\
    Req.End_ previous = Req.Start current /\
    startDate r = Req.Start current.
Proof.
  destruct (getCostsByService Sample.Number Sample.Date Sample.subDays Sample.format
              More.allFine initialState) as [[r | e] s] eqn:E;
    [ | vm_compute in E; discriminate E ].
  destruct (windows_are_adjacent Sample.Number Sample.Date Sample.subDays Sample.format
              More.allFine r s E) as (current & previous & H1 & _ & H2 & H3 & _).
  exists r, s, current, previous. rewrite <- E. auto.
Defined.

Section FurtherSummary.

Variable Number : string -> float.
Context {caseMapping : CaseMapping}.
Variable toFixedFinite : float -> nat -> string.

(** X13. The summary printed for a result of the aggregator lists the six
    categories in the order in which the result was built (ec2, security,
    management, storage, other, tax), unsorted, and one detail per service in
    the order of the service list; no detail lacks its previous amount or its
    change percentage, and every unit is USD. *)
Theorem summary_lists_categories_and_services
  (cur prev : GetCostAndUsageResponse) (start_ end_ : string) (r : CostResult) :
  aggregate Number cur prev start_ end_ = Ok r ->
  List.map (field "name") (items (field "categories" (summaryDocument toFixedFinite r)))
    = List.map (fun k => Some (JString k))
        ["ec2"; "security"; "management"; "storage"; "other"; "tax"] /\
  List.map (field "service") (items (field "details" (summaryDocument toFixedFinite r)))
    = List.map (fun cost => Some (JString (Cost.serviceName cost))) (costs r) /\
  Forall (fun item =>
            field "unit" item = Some (JString "USD") /\
            (exists text, field "previous" item = Some (JString text)) /\
            (exists text, field "changePercentage" item = Some (JString text)))
    (items (field "details" (summaryDocument toFixedFinite r))).
Proof.
  intros H.
  pose proof (AggFacts.categories_sums Number _ _ _ _ _ H) as [K _].
  change (field "categories" (summaryDocument toFixedFinite r))
    with (Some (JArray (List.map (categoryObject toFixedFinite r) (categories r)))).
  cbn [items]. split; [ | split ].
  - rewrite map_map. change categoryNames with
      ["ec2"; "security"; "management"; "storage"; "other"; "tax"] in K.
    rewrite <- K, map_map. apply map_ext. intros [name data]. reflexivity.
  - cbn. rewrite map_map. reflexivity.
  - cbn. apply Forall_map.
    apply AggFacts.aggregate_inv in H.
    destruct H as (t & cm & pt & pm & cats & _ & _ & _ & ->). cbn [costs].
    apply (Permutation_Forall (Permutation_sym (ListFacts.sort_perm byAmountDesc _))).
    unfold unsortedCosts. apply Forall_map. apply Forall_forall. intros name _.
    cbn. eauto.
Qed.

End FurtherSummary.

(** The summary of the sample report: six categories, five details. *)
Lemma summary_lists_categories_and_services_witness :
  aggregate Sample.Number Sample.current Sample.previous "2025-04-19" "2025-04-20"
    = Ok Sample.report /\
  List.map (field "name")
    (items (field "categories" (summaryDocument Sample.toFixedFinite Sample.report)))
    = [ Some (JString "ec2"); Some (JString "security"); Some (JString "management");
        Some (JString "storage"); Some (JString "other"); Some (JString "tax") ] /\
  List.length (items (field "details" (summaryDocument Sample.toFixedFinite Sample.report)))
    = 5%nat.
Proof.
  split; [ vm_compute; reflexivity | ].
  split; [ | vm_compute; reflexivity ].
  apply (summary_lists_categories_and_services Sample.Number Sample.toFixedFinite
           Sample.current Sample.previous "2025-04-19" "2025-04-20" Sample.report).
  vm_compute. reflexivity.
Defined.
